(** * Resumable documentation pipeline: fetch_python_docs.py and
      translate_python_docs.py

    A shallow embedding of the two resumable scripts of the repository
    (the state model, the planner, the atomic writes, the retry wrapper
    and the per-item loops) and the properties of their specification.

    Conventions of the embedding:
    - a Python [str] is the list of its code points;
    - a value read from JSON is a [pyval], the dynamically typed values
      that [json.loads] can build;
    - a Python [dict] is an association list in insertion order with
      distinct keys (iteration order is observable in the planner);
    - code that raises returns an [outcome], and code that touches the
      disk runs in the monad [M] over a [world]. *)

From Stdlib Require Import ZArith QArith List String Ascii Lia.
From stdpp Require Import base gmap list strings fin_maps.
Import ListNotations.

Local Open Scope Z_scope.
Set Warnings "-register-all".

(** ** Strings *)

Abbreviation str := (list N) (only parsing).

Definition lit (s : string) : str := List.map N_of_ascii (list_ascii_of_string s).
Arguments lit s%_string : simpl never.

Definition str_eqb (a b : str) : bool := bool_decide (a = b).

(** [u in l] for a list of strings. *)
Definition contains (u : str) (l : list str) : bool := existsb (str_eqb u) l.

Fixpoint startswith (p s : str) : bool :=
  match p, s with
  | [], _ => true
  | _ :: _, [] => false
  | a :: p', b :: s' => if N.eqb a b then startswith p' s' else false
  end.

Definition endswith (p s : str) : bool := startswith (rev p) (rev s).

(** [s.replace(old, new)] for a non-empty [old]: leftmost matches, not
    overlapping.  [skip] counts the characters of a match still to drop. *)
Fixpoint replace_go (old new : str) (skip : nat) (s : str) : str :=
  match s with
  | [] => []
  | c :: s' =>
      match skip with
      | S k => replace_go old new k s'
      | O =>
          if startswith old s
          then new ++ replace_go old new (length old - 1) s'
          else c :: replace_go old new 0 s'
      end
  end.

Definition replace (old new s : str) : str := replace_go old new 0 s.

(** [s.split(sep)] for a one-character separator: never empty. *)
Fixpoint split (sep : N) (s : str) : list str :=
  match s with
  | [] => [[]]
  | c :: s' =>
      if N.eqb c sep then [] :: split sep s'
      else match split sep s' with
           | h :: t => (c :: h) :: t
           | [] => [[c]]
           end
  end.

(** [sep.join(l)] *)
Fixpoint join (sep : str) (l : list str) : str :=
  match l with
  | [] => []
  | [x] => x
  | x :: t => x ++ sep ++ join sep t
  end.

(** ** Dynamically typed values *)

Inductive pyfloat :=
| FNaN
| FInf (negative : bool)
| FFinite (m e : Z).          (* the number m * 2^e *)

Inductive pyval :=
| PNone
| PBool (b : bool)
| PInt (z : Z)
| PFloat (f : pyfloat)
| PStr (s : str)
| PList (l : list pyval)
| PDict (d : list (str * pyval)).

(** [u == v] for a string [u]: equal only to the same string. *)
Definition py_is_str (u : str) (v : pyval) : bool :=
  match v with
  | PStr s => str_eqb u s
  | _ => false
  end.

(** [u in l] for a string [u] and a list of arbitrary values. *)
Definition str_in (u : str) (l : list pyval) : bool := existsb (py_is_str u) l.

(** ** Dictionaries in insertion order *)

Definition dict (V : Type) := list (str * V).

Definition dict_keys {V} (d : dict V) : list str := List.map fst d.

Fixpoint dict_get {V} (k : str) (d : dict V) : option V :=
  match d with
  | [] => None
  | (k', v) :: d' => if str_eqb k k' then Some v else dict_get k d'
  end.

Definition dict_has {V} (k : str) (d : dict V) : bool := contains k (dict_keys d).

(** [d[k] = v]: an existing key keeps its position, a new key goes last. *)
Fixpoint dict_set {V} (k : str) (v : V) (d : dict V) : dict V :=
  match d with
  | [] => [(k, v)]
  | (k', v') :: d' =>
      if str_eqb k k' then (k', v) :: d' else (k', v') :: dict_set k v d'
  end.

(** [del d[k]] *)
Definition dict_del {V} (k : str) (d : dict V) : dict V :=
  List.filter (fun kv => negb (str_eqb k (fst kv))) d.

(** [d.get(k, default)] *)
Definition dict_get_default {V} (k : str) (default : V) (d : dict V) : V :=
  match dict_get k d with
  | Some v => v
  | None => default
  end.

(** ** Exceptions *)

Inductive exn_class :=
| KeyboardInterrupt
| SystemExit (code : Z)
| OSError              (* also HTTPError, URLError and the other subclasses *)
| FileNotFoundError
| PermissionError
| TimeoutError         (* concurrent.futures.TimeoutError is this class *)
| ValueError
| JSONDecodeError
| UnicodeDecodeError
| TypeError
| AttributeError
| OverflowError
| IndexError
| OtherException.      (* any other subclass of Exception *)

(** An exception: its class (for [isinstance]), [type(e).__name__],
    [str(e)] and the text [traceback.format_exc()] gives for it. *)
Record exn := mkExn {
  exn_type : exn_class;
  exn_name : str;
  exn_msg : str;
  exn_tb : str
}.

(** [isinstance(e, OSError)] *)
Definition is_OSError (c : exn_class) : bool :=
  match c with
  | OSError | FileNotFoundError | PermissionError | TimeoutError => true
  | _ => false
  end.

(** [isinstance(e, ValueError)] *)
Definition is_ValueError (c : exn_class) : bool :=
  match c with
  | ValueError | JSONDecodeError | UnicodeDecodeError => true
  | _ => false
  end.

(** [isinstance(e, Exception)]: everything but the two BaseException-only
    classes. *)
Definition is_Exception (c : exn_class) : bool :=
  match c with
  | KeyboardInterrupt | SystemExit _ => false
  | _ => true
  end.

Inductive outcome (A : Type) :=
| Return (a : A)
| Raise (e : exn).
Arguments Return {A} a.
Arguments Raise {A} e.


(** [try: ... except: ...] on pure code: [handler] answers [None] when no
    clause matches. *)
Definition catch {A : Type} (r : outcome A) (handler : exn -> option (outcome A)) : outcome A :=
  match r with
  | Return a => Return a
  | Raise e => match handler e with
               | Some h => h
               | None => Raise e
               end
  end.

(** ** The disk, the faults and the monad of effects *)

Inductive file :=
| Text (content : str)   (* bytes that decode as UTF-8 to [content] *)
| Undecodable            (* bytes that are not valid UTF-8 *)
| Unreadable.            (* present, but opening it raises PermissionError *)

(** What the next call that writes to the disk will do: succeed, or raise
    [e]; a failing [write_text] leaves the first [n] characters in the
    file ([Some n]) or fails before creating it ([None]). *)
Inductive fault :=
| NoFault
| Fail (e : exn) (written : option nat).

Inductive event :=
| EvStep (item : str)             (* fetch_and_save_one entered *)
| EvTranslate (text : str)        (* translator.translate submitted *)
| EvSleep (ms : Z)                (* time.sleep, in milliseconds *)
| EvPrintError (attempts : Z) (last_err : option exn).

(** [mem] holds the mutable object the script updates in place (the
    [FetchState], or the [completed] set); [trail] keeps every state the
    disk has been through, the newest last, so that a statement can speak
    of what a crash at any moment would leave. *)
Record world (St : Type) := mkWorld {
  mem : St;
  files : gmap str file;
  trail : list (gmap str file);
  faults : list fault;
  calls : nat;
  log : list event
}.
Arguments mkWorld {St}.
Arguments mem {St}.
Arguments files {St}.
Arguments trail {St}.
Arguments faults {St}.
Arguments calls {St}.
Arguments log {St}.

Definition M (St A : Type) : Type := world St -> outcome A * world St.

Definition ret {St A : Type} (a : A) : M St A := fun w => (Return a, w).

Definition raise {St A : Type} (e : exn) : M St A := fun w => (Raise e, w).

Definition bind {St A B : Type} (m : M St A) (k : A -> M St B) : M St B :=
  fun w =>
    match m w with
    | (Return a, w') => k a w'
    | (Raise e, w') => (Raise e, w')
    end.

Notation "'let*' x ':=' m 'in' k" := (bind m (fun x => k))
  (at level 10, x name, m at level 200, k at level 200, only parsing).

Definition lift {St A : Type} (r : outcome A) : M St A := fun w => (r, w).

(** [try: body except ...: handler] *)
Definition try_except {St A : Type} (body : M St A) (handler : exn -> option (M St A)) : M St A :=
  fun w =>
    match body w with
    | (Return a, w') => (Return a, w')
    | (Raise e, w') =>
        match handler e with
        | Some h => h w'
        | None => (Raise e, w')
        end
    end.

(** [try: body finally: cleanup]: an exception of the cleanup replaces the
    result of the body. *)
Definition try_finally {St A : Type} (body : M St A) (cleanup : M St unit) : M St A :=
  fun w =>
    match body w with
    | (r, w') =>
        match cleanup w' with
        | (Return _, w'') => (r, w'')
        | (Raise e, w'') => (Raise e, w'')
        end
    end.

Definition get_mem {St : Type} : M St St := fun w => (Return (mem w), w).

Definition set_mem {St : Type} (s : St) : M St unit :=
  fun w => (Return tt, mkWorld s (files w) (trail w) (faults w) (calls w) (log w)).

Definition set_files {St : Type} (f : gmap str file) : M St unit :=
  fun w => (Return tt, mkWorld (mem w) f (trail w ++ [f]) (faults w) (calls w) (log w)).

Definition emit {St : Type} (e : event) : M St unit :=
  fun w =>
    (Return tt, mkWorld (mem w) (files w) (trail w) (faults w) (calls w) (log w ++ [e])).

Definition next_fault {St : Type} : M St fault :=
  fun w =>
    match faults w with
    | [] => (Return NoFault, w)
    | f :: rest =>
        (Return f, mkWorld (mem w) (files w) (trail w) rest (calls w) (log w))
    end.

Definition exn_of (c : exn_class) (name : string) : exn :=
  {| exn_type := c; exn_name := lit name; exn_msg := []; exn_tb := [] |}.

(** [p.exists()] *)
Definition file_exists (fs : gmap str file) (p : str) : bool :=
  bool_decide (is_Some (fs !! p)).

Definition path_exists {St : Type} (p : str) : M St bool :=
  fun w => (Return (file_exists (files w) p), w).

(** [p.read_text(encoding="utf-8")] *)
Definition read_text {St : Type} (p : str) : M St str :=
  fun w =>
    match files w !! p with
    | None => (Raise (exn_of FileNotFoundError "FileNotFoundError"), w)
    | Some (Text s) => (Return s, w)
    | Some Undecodable => (Raise (exn_of UnicodeDecodeError "UnicodeDecodeError"), w)
    | Some Unreadable => (Raise (exn_of PermissionError "PermissionError"), w)
    end.

(** [p.write_text(content, encoding="utf-8")] *)
Definition write_text {St : Type} (p content : str) : M St unit :=
  let* f := next_fault in
  match f with
  | NoFault => fun w => set_files (<[p := Text content]> (files w)) w
  | Fail e None => raise e
  | Fail e (Some n) =>
      let* _ := (fun w => set_files (<[p := Text (take n content)]> (files w)) w) in
      raise e
  end.

(** [src.replace(dst)]: the atomic rename. *)
Definition rename {St : Type} (src dst : str) : M St unit :=
  let* f := next_fault in
  match f with
  | NoFault =>
      fun w =>
        match files w !! src with
        | None => (Raise (exn_of FileNotFoundError "FileNotFoundError"), w)
        | Some c => set_files (<[dst := c]> (delete src (files w))) w
        end
  | Fail e _ => raise e
  end.

(** [p.unlink(missing_ok=...)] *)
Definition unlink {St : Type} (p : str) (missing_ok : bool) : M St unit :=
  let* f := next_fault in
  match f with
  | NoFault =>
      fun w =>
        match files w !! p with
        | None =>
            if missing_ok then (Return tt, w)
            else (Raise (exn_of FileNotFoundError "FileNotFoundError"), w)
        | Some _ => set_files (delete p (files w)) w
        end
  | Fail e _ => raise e
  end.

(** [p.parent.mkdir(parents=True, exist_ok=True)]: directories are not
    part of the model, the call can only fail. *)
Definition mkdir_parent {St : Type} (p : str) : M St unit :=
  let* f := next_fault in
  match f with
  | NoFault => ret tt
  | Fail e _ => raise e
  end.

(** [p.with_suffix(p.suffix + ".tmp")]: the name with [.tmp] appended. *)
Definition tmp_of (p : str) : str := p ++ lit ".tmp".

Definition nl : str := [10%N].

(** [sys.exit(code)] *)
Definition sys_exit {St A : Type} (code : Z) : M St A :=
  raise {| exn_type := SystemExit code; exn_name := lit "SystemExit";
           exn_msg := []; exn_tb := [] |}.

(** [int(val)]; [int_of_str] is [int] on a [str] ([None]: ValueError). *)
Definition py_int (int_of_str : str -> option Z) (val : pyval) : outcome Z :=
  match val with
  | PNone => Raise (exn_of TypeError "TypeError")
  | PBool b => Return (if b then 1 else 0)
  | PInt z => Return z
  | PFloat FNaN => Raise (exn_of ValueError "ValueError")
  | PFloat (FInf _) => Raise (exn_of OverflowError "OverflowError")
  | PFloat (FFinite m e) =>
      Return (if 0 <=? e then m * 2 ^ e else Z.quot m (2 ^ (- e)))
  | PStr s =>
      match int_of_str s with
      | Some z => Return z
      | None => Raise (exn_of ValueError "ValueError")
      end
  | PList _ | PDict _ => Raise (exn_of TypeError "TypeError")
  end.

(** [bool(v)] *)
Definition py_truthy (v : pyval) : bool :=
  match v with
  | PNone => false
  | PBool b => b
  | PInt z => negb (z =? 0)
  | PFloat (FFinite m _) => negb (m =? 0)
  | PFloat _ => true
  | PStr s => match s with [] => false | _ => true end
  | PList l => match l with [] => false | _ => true end
  | PDict d => match d with [] => false | _ => true end
  end.

(** [data.get(key, default)]: only a dict has [get]. *)
Definition py_get (data : pyval) (key : str) (default : pyval) : outcome pyval :=
  match data with
  | PDict d => Return (dict_get_default key default d)
  | _ => Raise (exn_of AttributeError "AttributeError")
  end.

(** [json.loads(text)]; [loads] answers [None] where the library raises
    JSONDecodeError. *)
Definition py_json_loads (loads : str -> option pyval) (text : str) : outcome pyval :=
  match loads text with
  | Some v => Return v
  | None => Raise (exn_of JSONDecodeError "JSONDecodeError")
  end.

(** The final component of a path and [Path.stem]. *)
Definition path_name (p : str) : str := List.last (split 47%N p) [].

Fixpoint index_of (c : N) (s : str) : option nat :=
  match s with
  | [] => None
  | x :: s' => if N.eqb x c then Some O else option_map S (index_of c s')
  end.

Definition path_stem (p : str) : str :=
  let name := path_name p in
  match index_of 46%N (rev name) with
  | Some j =>
      (* the last dot is at i = len - 1 - j; a suffix needs 0 < i < len - 1 *)
      if ((0 <? j) && (j <? length name - 1))%nat
      then take (length name - 1 - j) name
      else name
  | None => name
  end.

(** The sweep both scripts run first:
[[
    for p in root.rglob("*.md.tmp"):
        try: p.unlink(); removed += 1
        except OSError: pass
]]
    The order of [rglob] is the order in which the disk lists its files. *)
Fixpoint unlink_each {St : Type} (ps : list str) (removed : Z) : M St Z :=
  match ps with
  | [] => ret removed
  | p :: rest =>
      let* removed :=
        try_except
          (let* _ := unlink p false in ret (removed + 1))
          (fun e => if is_OSError (exn_type e) then Some (ret removed) else None) in
      unlink_each rest removed
  end.

Definition rglob_md_tmp (fs : gmap str file) (root : str) : list str :=
  List.filter
    (fun p => startswith (root ++ lit "/") p && endswith (lit ".md.tmp") (path_name p))
    (List.map fst (map_to_list fs)).

Definition _cleanup_orphan_tmp_files {St : Type} (state_filename root : str) : M St Z :=
  let* removed := (fun w => unlink_each (rglob_md_tmp (files w) root) 0 w) in
  let state_tmp := root ++ lit "/" ++ (state_filename ++ lit ".tmp") in
  let* e := path_exists state_tmp in
  if e
  then
    try_except
      (let* _ := unlink state_tmp false in ret (removed + 1))
      (fun e => if is_OSError (exn_type e) then Some (ret removed) else None)
  else ret removed.

(** * fetch_python_docs.py: state model and planner *)

Module Fetch.

Definition STATE_FILENAME : str := lit ".fetch_state.json".

Definition SECTION_TO_DIR : dict str :=
  [ (lit "whatsnew", lit "04_WHATSNEW");
    (lit "tutorial", lit "01_TUTORIAL");
    (lit "library", lit "02_LIBRARY");
    (lit "reference", lit "03_LANGUAGE_REFERENCE");
    (lit "using", lit "05_USING");
    (lit "howto", lit "06_HOWTO");
    (lit "installing", lit "07_INSTALLING");
    (lit "distributing", lit "08_DISTRIBUTING");
    (lit "extending", lit "09_EXTENDING");
    (lit "c-api", lit "10_CAPI");
    (lit "faq", lit "11_FAQ");
    (lit "license", lit "12_MISC");
    (lit "copyright", lit "12_MISC") ].

Record FetchState := mkFetchState {
  completed_urls : list pyval;
  failed_urls : dict pyval;
  last_url : pyval;
  error_info : pyval;
  total_planned : Z
}.

(** [FetchState()] *)
Definition empty_state : FetchState :=
  {| completed_urls := []; failed_urls := []; last_url := PNone;
     error_info := PNone; total_planned := 0 |}.

Definition should_skip (self : FetchState) (url_path : str) : bool :=
  str_in url_path (completed_urls self).

Definition mark_completed (self : FetchState) (url_path : str) : FetchState :=
  {| completed_urls :=
       if negb (str_in url_path (completed_urls self))
       then completed_urls self ++ [PStr url_path]
       else completed_urls self;
     failed_urls :=
       if dict_has url_path (failed_urls self)
       then dict_del url_path (failed_urls self)
       else failed_urls self;
     last_url := PStr url_path;
     error_info := PNone;
     total_planned := total_planned self |}.

Definition mark_failed (self : FetchState) (url_path error tb : str) : FetchState :=
  {| completed_urls := completed_urls self;
     failed_urls := dict_set url_path (PStr error) (failed_urls self);
     last_url := last_url self;
     error_info :=
       PDict [ (lit "url", PStr url_path);
               (lit "error", PStr error);
               (lit "traceback", PStr tb) ];
     total_planned := total_planned self |}.

(** A path is the string of its components joined by [/]. *)
Definition path_join (dir name : str) : str := dir ++ lit "/" ++ name.

Definition _url_to_output_path (url_path output_dir : str) : str :=
  let parts := split 47%N (replace (lit ".html") [] url_path) in
  let '(section, name) :=
    if (length parts <? 2)%nat
    then
      let name := match parts with p0 :: _ => p0 | [] => lit "index" end in
      (name, name)
    else
      (match parts with p0 :: _ => p0 | [] => [] end,
       if (1 <? length parts)%nat then join (lit "_") (tl parts) else lit "index")
  in
  let dir_name := dict_get_default section (lit "99_OTHER") SECTION_TO_DIR in
  let out_dir := path_join output_dir dir_name in
  path_join out_dir (name ++ lit ".md").

(** *** The planning loops of [main]

    [exists_ p] is [p.exists()] on the disk as it is during planning (the
    loops do not write). *)

Record plan_vars := mkPlan {
  to_fetch : list str;
  state : FetchState;
  synced : Z
}.

(** [for u in state.failed_urls: if u in all_urls: to_fetch.append(u)] *)
Definition plan_retries (all_urls : list str) (st : FetchState) : list str :=
  fold_left
    (fun to_fetch u => if contains u all_urls then to_fetch ++ [u] else to_fetch)
    (dict_keys (failed_urls st)) [].

(** One iteration of [for u in all_urls: ...] *)
Definition plan_step (exists_ : str -> bool) (output_dir : str)
    (v : plan_vars) (u : str) : plan_vars :=
  if contains u (to_fetch v) then v
  else if should_skip (state v) u then v
  else
    let output_path := _url_to_output_path u output_dir in
    if exists_ output_path
    then {| to_fetch := to_fetch v;
            state := mark_completed (state v) u;
            synced := synced v + 1 |}
    else {| to_fetch := to_fetch v ++ [u];
            state := state v;
            synced := synced v |}.

Definition plan (exists_ : str -> bool) (output_dir : str)
    (all_urls : list str) (st : FetchState) : plan_vars :=
  fold_left (plan_step exists_ output_dir) all_urls
    {| to_fetch := plan_retries all_urls st; state := st; synced := 0 |}.

(** *** Persistence, the step and [main]

    What the script takes from libraries is a variable of the section:
    the JSON codec, [int] on strings, the network, BeautifulSoup. *)

Section Effects.

Variable json_dumps : pyval -> str.
Variable json_loads : str -> option pyval.
Variable int_of_str : str -> option Z.
Variable urlopen : str -> outcome str.
Variable html_to_markdown : str -> outcome str.
Variable _extract_doc_urls_from_contents : str -> outcome (list str).
Variable PROJECT_ROOT : str.

Definition BASE_URL : str := lit "https://docs.python.org/3".
Definition CONTENTS_URL : str := BASE_URL ++ lit "/contents.html".
Definition OUTPUT_DIR : str := PROJECT_ROOT.

Definition _safe_int (val : pyval) (default : Z) : outcome Z :=
  match val with
  | PNone => Return default
  | _ =>
      catch (py_int int_of_str val)
        (fun e =>
           match exn_type e with
           | TypeError => Some (Return default)
           | c => if is_ValueError c then Some (Return default) else None
           end)
  end.

Definition load_state {St : Type} (state_path : str) : M St FetchState :=
  let* e := path_exists state_path in
  if negb e then ret empty_state
  else
    try_except
      (let* text := read_text state_path in
       let* data := lift (py_json_loads json_loads text) in
       let* completed := lift (py_get data (lit "completed_urls") (PList [])) in
       let* failed := lift (py_get data (lit "failed_urls") (PDict [])) in
       let completed := match completed with PList l => l | _ => [] end in
       let failed := match failed with PDict d => d | _ => [] end in
       let* last := lift (py_get data (lit "last_url") PNone) in
       let* info := lift (py_get data (lit "error_info") PNone) in
       let* planned := lift (py_get data (lit "total_planned") PNone) in
       let* planned := lift (_safe_int planned 0) in
       ret {| completed_urls := completed; failed_urls := failed;
              last_url := last; error_info := info;
              total_planned := planned |})
      (fun e =>
         match exn_type e with
         | JSONDecodeError | TypeError => Some (ret empty_state)
         | c => if is_OSError c then Some (ret empty_state) else None
         end).

(** [dataclasses.asdict(state)] *)
Definition asdict (state : FetchState) : pyval :=
  PDict [ (lit "completed_urls", PList (completed_urls state));
          (lit "failed_urls", PDict (failed_urls state));
          (lit "last_url", last_url state);
          (lit "error_info", error_info state);
          (lit "total_planned", PInt (total_planned state)) ].

Definition save_state {St : Type} (state : FetchState) (state_path : str) : M St unit :=
  let* _ := mkdir_parent state_path in
  let data := asdict state in
  let content := json_dumps data in
  let tmp_path := tmp_of state_path in
  try_finally
    (let* _ := write_text tmp_path content in
     rename tmp_path state_path)
    (let* e := path_exists tmp_path in
     if e then unlink tmp_path true else ret tt).

Definition fetch_page (url : str) : outcome str :=
  let full_url :=
    if startswith (lit "http") url then url else BASE_URL ++ lit "/" ++ url in
  urlopen full_url.

(** The literal [*Источник: https://docs.python.org/3/] *)
Definition SOURCE_PREFIX : str :=
  [42; 1048; 1089; 1090; 1086; 1095; 1085; 1080; 1082]%N
  ++ lit ": https://docs.python.org/3/".

Definition fetch_and_save_one {St : Type} (url_path output_path : str) : M St unit :=
  let* _ := emit (EvStep url_path) in
  let* _ := mkdir_parent output_path in
  let* html := lift (fetch_page url_path) in
  let* md := lift (html_to_markdown html) in
  let source_note := SOURCE_PREFIX ++ url_path ++ lit "*" in
  let md :=
    lit "# " ++ path_stem output_path ++ nl ++ nl ++ source_note ++ nl ++ nl
    ++ lit "---" ++ nl ++ nl ++ md in
  let tmp_path := tmp_of output_path in
  try_finally
    (let* _ := write_text tmp_path md in
     rename tmp_path output_path)
    (let* e := path_exists tmp_path in
     if e then unlink tmp_path true else ret tt).

Definition state_path : str := path_join OUTPUT_DIR STATE_FILENAME.

Definition set_total_planned (st : FetchState) (n : Z) : FetchState :=
  {| completed_urls := completed_urls st; failed_urls := failed_urls st;
     last_url := last_url st; error_info := error_info st;
     total_planned := n |}.

(** Lines 340-361 of [main]: the two planning loops, the save of what was
    synchronised from the disk, [total_planned]. *)
Definition main_planning (all_urls : list str) : M FetchState (list str) :=
  let* v := (fun w =>
               (Return (plan (file_exists (files w)) OUTPUT_DIR all_urls (mem w)), w)) in
  let* _ := set_mem (state v) in
  let* _ := (if negb (synced v =? 0) then save_state (state v) state_path else ret tt) in
  let* st := get_mem in
  let* _ := set_mem (set_total_planned st (Z.of_nat (length all_urls))) in
  ret (to_fetch v).

(** [f"{type(e).__name__}: {e}"] *)
Definition err_msg_of (e : exn) : str := exn_name e ++ lit ": " ++ exn_msg e.

(** One iteration of [for i, url_path in enumerate(to_fetch, 1)]. *)
Definition main_item (url_path : str) : M FetchState unit :=
  try_except
    (let output_path := _url_to_output_path url_path OUTPUT_DIR in
     let* _ := fetch_and_save_one url_path output_path in
     let* st := get_mem in
     let* _ := set_mem (mark_completed st url_path) in
     let* st := get_mem in
     save_state st state_path)
    (fun e =>
       match exn_type e with
       | KeyboardInterrupt =>
           Some (let* st := get_mem in
                 let* _ := save_state st state_path in
                 sys_exit 130)
       | c =>
           if is_OSError c
           then Some (let err_msg := err_msg_of e in
                      let* st := get_mem in
                      let* _ := set_mem (mark_failed st url_path err_msg (exn_tb e)) in
                      let* st := get_mem in
                      save_state st state_path)
           else if is_Exception c
           then Some (let err_msg := err_msg_of e in
                      let tb := exn_tb e in
                      let* st := get_mem in
                      let* _ := set_mem (mark_failed st url_path err_msg tb) in
                      let* st := get_mem in
                      let* _ := save_state st state_path in
                      raise e)
           else None
       end).

Fixpoint main_processing (to_fetch : list str) : M FetchState unit :=
  match to_fetch with
  | [] => ret tt
  | url_path :: rest =>
      let* _ := main_item url_path in
      main_processing rest
  end.

(** Lines 321-327: the warning about the previous run evaluates
    [state.error_info.get("url")] and
    [state.error_info.get("traceback", "")[:500]]; a value that cannot be
    sliced raises (TypeError, or KeyError for a dict on recent
    interpreters: an exception that leaves [main] either way). *)
Definition report_previous_error (st : FetchState) : outcome unit :=
  if py_truthy (error_info st)
  then
    match error_info st with
    | PDict d =>
        match dict_get_default (lit "traceback") (PStr []) d with
        | PStr _ | PList _ => Return tt
        | _ => Raise (exn_of TypeError "TypeError")
        end
    | _ => Raise (exn_of AttributeError "AttributeError")
    end
  else Return tt.

(** [main], the set-up of the output directory and of the logger apart.
    The interpreter turns an exception that leaves [main] into exit status
    1 and [SystemExit code] into [code]. *)
Definition main : M FetchState unit :=
  let* _ := _cleanup_orphan_tmp_files STATE_FILENAME OUTPUT_DIR in
  let* st := load_state state_path in
  let* _ := set_mem st in
  let* _ := lift (report_previous_error st) in
  let* all_urls :=
    try_except
      (let* contents_html := lift (fetch_page CONTENTS_URL) in
       lift (_extract_doc_urls_from_contents contents_html))
      (fun e =>
         if is_OSError (exn_type e)
         then Some (let* st := get_mem in
                    let* _ := set_mem (mark_failed st (lit "contents.html")
                                         (exn_msg e) (exn_tb e)) in
                    let* st := get_mem in
                    let* _ := save_state st state_path in
                    sys_exit 1)
         else None) in
  let* to_fetch := main_planning all_urls in
  main_processing to_fetch.

Definition exit_status {A : Type} (r : outcome A) : Z :=
  match r with
  | Return _ => 0
  | Raise e => match exn_type e with
               | SystemExit code => code
               | _ => 1
               end
  end.

End Effects.

End Fetch.

(** * translate_python_docs.py *)

(** ** More of Python's strings and values *)

(** The code points on which [str.isspace] holds; [str.strip] removes
    them from both ends. *)
Definition py_isspace (c : N) : bool :=
  ((9 <=? c) && (c <=? 13) || (28 <=? c) && (c <=? 32)
   || (c =? 133) || (c =? 160) || (c =? 5760)
   || (8192 <=? c) && (c <=? 8202)
   || (c =? 8232) || (c =? 8233) || (c =? 8239) || (c =? 8287) || (c =? 12288))%N.

Fixpoint lstrip (s : str) : str :=
  match s with
  | [] => []
  | c :: s' => if py_isspace c then lstrip s' else s
  end.

Definition strip (s : str) : str := rev (lstrip (rev (lstrip s))).

(** [s.isspace()]: not empty and only white space. *)
Definition isspace (s : str) : bool :=
  match s with
  | [] => false
  | _ => forallb py_isspace s
  end.

Definition is_empty {A : Type} (l : list A) : bool :=
  match l with
  | [] => true
  | _ => false
  end.

(** The index of the first occurrence of [pat] in [s]. *)
Fixpoint find (pat s : str) : option nat :=
  match s with
  | [] => if is_empty pat then Some O else None
  | _ :: s' => if startswith pat s then Some O else option_map S (find pat s')
  end.

(** [str(n)] for a natural number. *)
Fixpoint digits_of_uint (d : Decimal.uint) : str :=
  match d with
  | Decimal.Nil => []
  | Decimal.D0 d' => 48%N :: digits_of_uint d'
  | Decimal.D1 d' => 49%N :: digits_of_uint d'
  | Decimal.D2 d' => 50%N :: digits_of_uint d'
  | Decimal.D3 d' => 51%N :: digits_of_uint d'
  | Decimal.D4 d' => 52%N :: digits_of_uint d'
  | Decimal.D5 d' => 53%N :: digits_of_uint d'
  | Decimal.D6 d' => 54%N :: digits_of_uint d'
  | Decimal.D7 d' => 55%N :: digits_of_uint d'
  | Decimal.D8 d' => 56%N :: digits_of_uint d'
  | Decimal.D9 d' => 57%N :: digits_of_uint d'
  end.

Definition str_of_nat (n : nat) : str := digits_of_uint (Nat.to_uint n).

(** Lexicographic order on lists, as Python compares strings and tuples. *)
Fixpoint lex_ltb {A : Type} (ltb : A -> A -> bool) (a b : list A) : bool :=
  match a, b with
  | [], [] => false
  | [], _ :: _ => true
  | _ :: _, [] => false
  | x :: a', y :: b' =>
      if ltb x y then true
      else if ltb y x then false
      else lex_ltb ltb a' b'
  end.

Definition str_ltb (a b : str) : bool := lex_ltb N.ltb a b.

(** [Path.__lt__]: paths compare by their components. *)
Definition path_ltb (a b : str) : bool :=
  lex_ltb str_ltb (split 47%N a) (split 47%N b).

(** A sort by insertion, with a comparison that may raise. *)
Fixpoint insert_by {A : Type} (lt : A -> A -> outcome bool) (x : A) (l : list A)
    : outcome (list A) :=
  match l with
  | [] => Return [x]
  | y :: l' =>
      match lt x y with
      | Raise e => Raise e
      | Return true => Return (x :: l)
      | Return false =>
          match insert_by lt x l' with
          | Raise e => Raise e
          | Return r => Return (y :: r)
          end
      end
  end.

Fixpoint sort_by {A : Type} (lt : A -> A -> outcome bool) (l : list A)
    : outcome (list A) :=
  match l with
  | [] => Return []
  | x :: l' =>
      match sort_by lt l' with
      | Raise e => Raise e
      | Return r => insert_by lt x r
      end
  end.

(** Numbers compare across [bool], [int] and [float]. *)
Definition as_float (v : pyval) : option pyfloat :=
  match v with
  | PBool b => Some (FFinite (if b then 1 else 0) 0)
  | PInt z => Some (FFinite z 0)
  | PFloat f => Some f
  | _ => None
  end.

Definition float_eqb (f g : pyfloat) : bool :=
  match f, g with
  | FNaN, FNaN => true     (* json has one NaN object: found by identity *)
  | FInf a, FInf b => Bool.eqb a b
  | FFinite m e, FFinite m' e' =>
      let k := Z.min e e' in m * 2 ^ (e - k) =? m' * 2 ^ (e' - k)
  | _, _ => false
  end.

Definition float_ltb (f g : pyfloat) : bool :=
  match f, g with
  | FNaN, _ | _, FNaN => false
  | FInf a, FInf b => a && negb b
  | FInf a, FFinite _ _ => a
  | FFinite _ _, FInf b => negb b
  | FFinite m e, FFinite m' e' =>
      let k := Z.min e e' in m * 2 ^ (e - k) <? m' * 2 ^ (e' - k)
  end.

(** Equality as a [set] and [in] see it. *)
Definition py_eq (a b : pyval) : bool :=
  match a, b with
  | PNone, PNone => true
  | PStr s, PStr t => str_eqb s t
  | _, _ =>
      match as_float a, as_float b with
      | Some f, Some g => float_eqb f g
      | _, _ => false
      end
  end.

Definition py_lt (a b : pyval) : outcome bool :=
  match a, b with
  | PStr s, PStr t => Return (str_ltb s t)
  | _, _ =>
      match as_float a, as_float b with
      | Some f, Some g => Return (float_ltb f g)
      | _, _ => Raise (exn_of TypeError "TypeError")
      end
  end.

(** [sorted(l)] *)
Definition py_sorted (l : list pyval) : outcome (list pyval) := sort_by py_lt l.

Definition py_hashable (v : pyval) : bool :=
  match v with
  | PList _ | PDict _ => false
  | _ => true
  end.

(** [set(l)]: the elements without repetition, TypeError on a list or a
    dict among them. *)
Fixpoint py_set_go (seen l : list pyval) : outcome (list pyval) :=
  match l with
  | [] => Return seen
  | x :: l' =>
      if py_hashable x
      then py_set_go (if existsb (py_eq x) seen then seen else seen ++ [x]) l'
      else Raise (exn_of TypeError "TypeError")
  end.

Definition py_set (l : list pyval) : outcome (list pyval) := py_set_go [] l.

(** [s.add(key)] for a string. *)
Definition set_add (key : str) (s : list pyval) : list pyval :=
  if str_in key s then s else s ++ [PStr key].

(** ** Regular expressions of the script *)

Definition FENCE : str := lit "```".

(** A text cut by [```[\s\S]*?```]: the characters outside the matches
    and the matches. *)
Inductive piece :=
| Plain (c : N)
| Block (m : str).

Fixpoint scan_fenced_go (skip : nat) (s : str) : list piece :=
  match s with
  | [] => []
  | c :: s' =>
      match skip with
      | S k => scan_fenced_go k s'
      | O =>
          if startswith FENCE s
          then match find FENCE (drop 3 s) with
               | Some k => Block (take (k + 6) s) :: scan_fenced_go (k + 5) s'
               | None => Plain c :: scan_fenced_go 0 s'
               end
          else Plain c :: scan_fenced_go 0 s'
      end
  end.

Definition scan_fenced (s : str) : list piece := scan_fenced_go 0 s.

(** The matches, in order: what [save_code] appends to [code_blocks]. *)
Fixpoint blocks_of (ps : list piece) : list str :=
  match ps with
  | [] => []
  | Plain _ :: ps' => blocks_of ps'
  | Block m :: ps' => m :: blocks_of ps'
  end.

(** [re.sub] over the pieces: [repl i m] replaces the [i]-th match. *)
Fixpoint sub_pieces (repl : nat -> str -> str) (i : nat) (ps : list piece) : str :=
  match ps with
  | [] => []
  | Plain c :: ps' => c :: sub_pieces repl i ps'
  | Block m :: ps' => repl i m ++ sub_pieces repl (S i) ps'
  end.

(** [re.sub(r"`[^`]+`", " ", s)] *)
Fixpoint sub_inline_code_go (skip : nat) (s : str) : str :=
  match s with
  | [] => []
  | c :: s' =>
      match skip with
      | S k => sub_inline_code_go k s'
      | O =>
          if (c =? 96)%N
          then match index_of 96%N s' with
               | Some (S k) => 32%N :: sub_inline_code_go (S (S k)) s'
               | _ => c :: sub_inline_code_go 0 s'
               end
          else c :: sub_inline_code_go 0 s'
      end
  end.

Definition sub_inline_code (s : str) : str := sub_inline_code_go 0 s.

Fixpoint leading_newlines (s : str) : nat :=
  match s with
  | c :: s' => if (c =? 10)%N then S (leading_newlines s') else O
  | [] => O
  end.

(** [re.split(r"(\n\n+)", s)]: the texts between runs of two or more
    newlines, and the runs. [cur] is the current text, reversed. *)
Fixpoint split_blank_lines_go (skip : nat) (cur : str) (s : str) : list str :=
  match s with
  | [] => [rev cur]
  | c :: s' =>
      match skip with
      | S k => split_blank_lines_go k cur s'
      | O =>
          let n := leading_newlines s in
          if (2 <=? n)%nat
          then rev cur :: take n s :: split_blank_lines_go (n - 1) [] s'
          else split_blank_lines_go 0 (c :: cur) s'
      end
  end.

Definition split_blank_lines (s : str) : list str := split_blank_lines_go 0 [] s.

(** [re.match(r"^\[.*\]\(http", p)]: an opening bracket, then [](http]
    further on the same line. *)
Fixpoint link_tail (s : str) : bool :=
  match s with
  | [] => false
  | c :: s' => startswith (lit "](http") s || (negb (c =? 10)%N && link_tail s')
  end.

Definition is_link (p : str) : bool :=
  match p with
  | c :: s' => (c =? 91)%N && link_tail s'
  | [] => false
  end.

Module Translate.

Definition MAX_CHUNK_LEN : nat := 4500.
Definition SLEEP_BETWEEN : Z := 500.          (* 0.5 s, in milliseconds *)
Definition STATE_FILENAME : str := lit ".translate_state.json".
Definition TRANSLATE_RETRIES : nat := 3.
Definition CYRILLIC_THRESHOLD : Q := 35 # 100.
Definition MIN_FREE_MB : Z := 100.

Definition MSG_DELETED : str :=
  [1060; 1072; 1081; 1083; 32; 1091; 1076; 1072; 1083; 1105; 1085; 58; 32]%N.
Definition MSG_NO_ACCESS : str :=
  [1053; 1077; 1090; 32; 1076; 1086; 1089; 1090; 1091; 1087; 1072; 32; 1082;
   32; 1095; 1090; 1077; 1085; 1080; 1102; 58; 32]%N.
Definition MSG_BAD_ENCODING : str :=
  [1053; 1077; 1082; 1086; 1088; 1088; 1077; 1082; 1090; 1085; 1072; 1103; 32;
   1082; 1086; 1076; 1080; 1088; 1086; 1074; 1082; 1072; 32]%N.
Definition MSG_READ_ERROR : str :=
  [1054; 1096; 1080; 1073; 1082; 1072; 32; 1095; 1090; 1077; 1085; 1080; 1103; 32]%N.
Definition MSG_WRITE_ERROR : str :=
  [1054; 1096; 1080; 1073; 1082; 1072; 32; 1079; 1072; 1087; 1080; 1089; 1080; 32]%N.
Definition MSG_TIMEOUT : str :=
  [1058; 1072; 1081; 1084; 1072; 1091; 1090; 32; 1079; 1072; 1087; 1088; 1086;
   1089; 1072; 32; 40; 54; 48; 32; 1089; 1077; 1082; 41]%N.

Section Effects.

(** From libraries: the Unicode tables behind [str.isalpha] and [\d], the
    JSON codec, the free space of the disk, whether deep_translator can
    be imported, and the translator.  [translator n text] is what the
    [n]-th call of [translator.translate], made on [text], does within
    the time limit, [Raise] of a [TimeoutError] standing for a call that
    exceeds it ([concurrent.futures.TimeoutError] is the built-in class
    from Python 3.11 on; before, the two differ in nothing but the error
    that is printed after the last attempt). *)
Variable isalpha : N -> bool.
Variable digit_value : N -> option nat.
Variable json_dumps : pyval -> str.
Variable json_loads : str -> option pyval.
Variable disk_free : outcome Z.
Variable have_translator : bool.
Variable PROJECT_ROOT : str.

Definition PYTHON_DOCS_DIR : str := PROJECT_ROOT.

Definition _check_disk_space {St : Type} : M St unit :=
  try_except
    (let* free := lift disk_free in
     (* free / (1024 * 1024) < MIN_FREE_MB *)
     if free <? MIN_FREE_MB * (1024 * 1024) then sys_exit 1 else ret tt)
    (fun e => if is_OSError (exn_type e) then Some (ret tt) else None).

(** [path.relative_to(root)]; [None] where it raises ValueError. *)
Definition relative_to (root path : str) : option str :=
  if startswith (root ++ lit "/") path then Some (drop (length root + 1) path)
  else if str_eqb path root then Some (lit ".")
  else None.

Definition _path_to_key (path : str) : str :=
  match relative_to PYTHON_DOCS_DIR path with
  | Some rel => rel
  | None => path
  end.

Definition load_state {St : Type} (state_path : str) : M St (list pyval) :=
  let* e := path_exists state_path in
  if negb e then ret []
  else
    try_except
      (let* text := read_text state_path in
       let* data := lift (py_json_loads json_loads text) in
       let completed :=
         match data with
         | PDict d => dict_get_default (lit "completed") (PList []) d
         | _ => PList []
         end in
       match completed with
       | PList l => lift (py_set l)
       | _ => ret []
       end)
      (fun e =>
         match exn_type e with
         | JSONDecodeError | TypeError => Some (ret [])
         | c => if is_OSError c then Some (ret []) else None
         end).

Definition save_state {St : Type} (completed : list pyval) (state_path : str) : M St unit :=
  let* sorted := lift (py_sorted completed) in
  let content := json_dumps (PDict [(lit "completed", PList sorted)]) in
  let tmp_path := tmp_of state_path in
  try_finally
    (let* _ := write_text tmp_path content in
     rename tmp_path state_path)
    (let* e := path_exists tmp_path in
     if e then unlink tmp_path true else ret tt).

(** ["Ѐ" <= c <= "ӿ"] *)
Definition is_cyrillic (c : N) : bool := ((1024 <=? c) && (c <=? 1279))%N.

(** The float [cyrillic / len(chars)] is given as the rational number it
    rounds: 0 and 1 are floats and rounding is monotone, so bounds between
    0 and 1 carry over. *)
Definition _cyrillic_ratio (text : str) : Q :=
  let chars := List.filter isalpha text in
  if is_empty chars then 0%Q
  else
    let cyrillic := length (List.filter is_cyrillic chars) in
    (Z.of_nat cyrillic # Pos.of_nat (length chars))%Q.

Definition _is_likely_translated (content : str) : bool :=
  let no_code := sub_pieces (fun _ _ => lit " ") 0 (scan_fenced content) in
  let no_code := sub_inline_code no_code in
  Qle_bool CYRILLIC_THRESHOLD (_cyrillic_ratio no_code).

Section WithTranslator.

Variable translator : nat -> str -> outcome pyval.

Definition sleep {St : Type} (ms : Z) : M St unit := emit (EvSleep ms).

(** [ex.submit(translator.translate, text).result(timeout=REQUEST_TIMEOUT)] *)
Definition submit_and_wait {St : Type} (text : str) : M St pyval :=
  fun w =>
    (translator (calls w) text,
     mkWorld (mem w) (files w) (trail w) (faults w) (S (calls w))
       (log w ++ [EvTranslate text])).

(** The body of [for attempt in range(TRANSLATE_RETRIES)]: [inl] is the
    value the function returns, [inr] the new [last_err]. *)
Definition attempt_once {St : Type} (text : str) (attempt : nat) : M St (str + exn) :=
  try_except
    (let* out := submit_and_wait text in
     ret (inl (match out with PStr s => s | _ => text end)))
    (fun e =>
       match exn_type e with
       | TimeoutError =>
           Some (let last_err :=
                   {| exn_type := TimeoutError; exn_name := lit "TimeoutError";
                      exn_msg := MSG_TIMEOUT; exn_tb := [] |} in
                 let* _ := (if (attempt <? TRANSLATE_RETRIES - 1)%nat
                            then sleep (SLEEP_BETWEEN * (Z.of_nat attempt + 1))
                            else ret tt) in
                 ret (inr last_err))
       | c =>
           if is_Exception c
           then Some (let last_err := e in
                      let* _ := (if (attempt <? TRANSLATE_RETRIES - 1)%nat
                                 then sleep (SLEEP_BETWEEN * (Z.of_nat attempt + 1))
                                 else ret tt) in
                      ret (inr last_err))
           else None
       end).

Fixpoint retry_loop {St : Type} (attempts : list nat) (last_err : option exn)
    (text : str) : M St str :=
  match attempts with
  | [] =>
      let* _ := emit (EvPrintError (Z.of_nat TRANSLATE_RETRIES) last_err) in
      ret text
  | attempt :: rest =>
      let* r := attempt_once text attempt in
      match r with
      | inl out => ret out
      | inr e => retry_loop rest (Some e) text
      end
  end.

Definition _translate_with_retry {St : Type} (text : str) : M St str :=
  retry_loop (seq 0 TRANSLATE_RETRIES) None text.

(** The loop of [translate_chunk] over the parts of a long text. *)
Fixpoint chunk_loop {St : Type} (parts : list str) (result : list str) (buf : str)
    : M St (list str * str) :=
  match parts with
  | [] => ret (result, buf)
  | p :: rest =>
      if (MAX_CHUNK_LEN <? length buf + length p)%nat && negb (is_empty buf)
      then
        let* t := _translate_with_retry buf in
        let* _ := sleep SLEEP_BETWEEN in
        chunk_loop rest (result ++ [t]) p
      else chunk_loop rest result (buf ++ p)
  end.

Definition translate_chunk {St : Type} (text : str) : M St str :=
  let text := strip text in
  if is_empty text || (length text <? 10)%nat then ret text
  else if (MAX_CHUNK_LEN <? length text)%nat then
    let parts := split_blank_lines text in
    let* rb := chunk_loop parts [] [] in
    let '(result, buf) := rb in
    let* result :=
      (if negb (is_empty buf)
       then
         let* t := _translate_with_retry buf in
         let* _ := sleep SLEEP_BETWEEN in
         ret (result ++ [t])
       else ret result) in
    ret (concat result)
  else _translate_with_retry text.

(** [int(re.search(r"(\d+)", p).group(1))]: the first run of digits. *)
Fixpoint digit_run (acc : nat) (s : str) : nat :=
  match s with
  | [] => acc
  | c :: s' =>
      match digit_value c with
      | Some d => digit_run (10 * acc + d) s'
      | None => acc
      end
  end.

Fixpoint first_int (s : str) : option nat :=
  match s with
  | [] => None
  | c :: s' =>
      match digit_value c with
      | Some _ => Some (digit_run 0 s)
      | None => first_int s'
      end
  end.

Definition placeholder (i : nat) : str :=
  nl ++ nl ++ lit "__CODE_BLOCK_" ++ str_of_nat i ++ lit "__" ++ nl ++ nl.

(** [for p in paragraphs: ...] of [translate_md_file]. *)
Fixpoint translate_paragraphs {St : Type} (code_blocks paragraphs : list str)
    : M St (list str) :=
  match paragraphs with
  | [] => ret []
  | p :: rest =>
      let* r :=
        (if startswith (lit "__CODE_BLOCK_") p then
           match first_int p with
           | None => raise (exn_of AttributeError "AttributeError")
           | Some idx =>
               match nth_error code_blocks idx with
               | Some b => ret b
               | None => raise (exn_of IndexError "IndexError")
               end
           end
         else if negb (is_empty (strip p)) && negb (isspace p) then
           if is_link p || startswith (lit "http") p then ret p
           else if (15 <? length (strip p))%nat then
             try_except
               (let* t := translate_chunk p in
                let* _ := sleep SLEEP_BETWEEN in
                ret t)
               (fun e => if is_Exception (exn_type e) then Some (ret p) else None)
           else ret p
         else ret p) in
      let* rs := translate_paragraphs code_blocks rest in
      ret (r :: rs)
  end.

Definition reraise {St A : Type} (c : exn_class) (name : string) (msg : str) : M St A :=
  raise {| exn_type := c; exn_name := lit name; exn_msg := msg; exn_tb := [] |}.

Definition translate_md_file {St : Type} (path : str) : M St bool :=
  let* content :=
    try_except (read_text path)
      (fun e =>
         match exn_type e with
         | FileNotFoundError =>
             Some (reraise FileNotFoundError "FileNotFoundError" (MSG_DELETED ++ path))
         | PermissionError =>
             Some (reraise PermissionError "PermissionError" (MSG_NO_ACCESS ++ path))
         | UnicodeDecodeError =>
             Some (reraise ValueError "ValueError"
                     (MSG_BAD_ENCODING ++ path ++ lit ": " ++ exn_msg e))
         | c =>
             if is_OSError c
             then Some (reraise OSError "OSError"
                          (MSG_READ_ERROR ++ path ++ lit ": " ++ exn_msg e))
             else None
         end) in
  if is_empty (strip content) then ret true
  else if _is_likely_translated content then ret true
  else
    let pieces := scan_fenced content in
    let code_blocks := blocks_of pieces in
    let temp := sub_pieces (fun i _ => placeholder i) 0 pieces in
    let paragraphs := split_blank_lines temp in
    let* result := translate_paragraphs code_blocks paragraphs in
    let content := concat result in
    let tmp_path := tmp_of path in
    let* _ :=
      try_finally
        (try_except
           (let* _ := write_text tmp_path content in
            rename tmp_path path)
           (fun e =>
              if is_OSError (exn_type e)
              then Some (let* ex := path_exists tmp_path in
                         let* _ :=
                           (if ex
                            then try_except (unlink tmp_path false)
                                   (fun e' => if is_OSError (exn_type e')
                                              then Some (ret tt) else None)
                            else ret tt) in
                         reraise OSError "OSError"
                           (MSG_WRITE_ERROR ++ path ++ lit ": " ++ exn_msg e))
              else None))
        (let* ex := path_exists tmp_path in
         if ex then unlink tmp_path true else ret tt) in
    ret true.

Definition state_path : str := PYTHON_DOCS_DIR ++ lit "/" ++ STATE_FILENAME.

Definition save_state_or_print (completed : list pyval) : M (list pyval) unit :=
  try_except (save_state completed state_path)
    (fun e => if is_OSError (exn_type e) then Some (ret tt) else None).

(** One iteration of [for i, path in enumerate(to_translate, 1)]. *)
Definition main_item (path : str) : M (list pyval) unit :=
  try_except
    (let* _ := translate_md_file path in
     let* completed := get_mem in
     let* _ := set_mem (set_add (_path_to_key path) completed) in
     let* completed := get_mem in
     save_state_or_print completed)
    (fun e =>
       match exn_type e with
       | KeyboardInterrupt =>
           Some (let* completed := get_mem in
                 let* _ := save_state_or_print completed in
                 sys_exit 130)
       | c =>
           if is_OSError c || is_ValueError c then Some (ret tt)
           else if is_Exception c then Some (ret tt)
           else None
       end).

Fixpoint main_processing (to_translate : list str) : M (list pyval) unit :=
  match to_translate with
  | [] => ret tt
  | path :: rest =>
      let* _ := main_item path in
      main_processing rest
  end.

(** [sorted(PYTHON_DOCS_DIR.rglob("*.md"))] *)
Fixpoint insert_path (p : str) (l : list str) : list str :=
  match l with
  | [] => [p]
  | q :: l' => if path_ltb p q then p :: l else q :: insert_path p l'
  end.

Definition rglob_md_sorted (fs : gmap str file) (root : str) : list str :=
  fold_right insert_path []
    (List.filter
       (fun p => startswith (root ++ lit "/") p && endswith (lit ".md") (path_name p))
       (List.map fst (map_to_list fs))).

Definition main : M (list pyval) unit :=
  let* _ := _check_disk_space in
  let* _ := _cleanup_orphan_tmp_files STATE_FILENAME PYTHON_DOCS_DIR in
  let* completed := load_state state_path in
  let* _ := set_mem completed in
  let* _ := (if have_translator then ret tt else sys_exit 1) in
  let* md_files := (fun w => (Return (rglob_md_sorted (files w) PYTHON_DOCS_DIR), w)) in
  let md_files :=
    List.filter (fun f => negb (str_eqb (path_name f) (lit "README.md"))) md_files in
  let* completed := get_mem in
  let to_translate :=
    List.filter (fun f => negb (str_in (_path_to_key f) completed)) md_files in
  main_processing to_translate.

End WithTranslator.

End Effects.

End Translate.

(** * fetch_python_docs.py: the links of the table of contents *)

(** [pat in s] for strings. *)
Definition substr (pat s : str) : bool :=
  match find pat s with
  | Some _ => true
  | None => false
  end.

(** [s.lstrip("/")] *)
Fixpoint lstrip_slash (s : str) : str :=
  match s with
  | [] => []
  | c :: s' => if (c =? 47)%N then lstrip_slash s' else s
  end.

Definition SECTION_PREFIXES : list str :=
  [ lit "tutorial"; lit "library"; lit "reference"; lit "whatsnew"; lit "using";
    lit "howto"; lit "installing"; lit "distributing"; lit "extending";
    lit "faq"; lit "c-api"; lit "license"; lit "copyright" ].

(** [a["href"].split("#")[0].strip()] *)
Definition clean_href (raw : str) : str :=
  strip (match split 35%N raw with
         | before :: _ => before
         | [] => []
         end).

(** The body of [for a in soup.find_all("a", href=True)] in
    [_extract_doc_urls_from_contents]: the key added to [urls] for the
    attribute [raw], [None] where the loop goes on without adding one. *)
Definition href_key (base_url raw : str) : option str :=
  let prefix := base_url ++ lit "/" in
  let href := clean_href raw in
  if negb (endswith (lit ".html") href) || substr (lit "genindex") href
     || substr (lit "py-modindex") href
  then None
  else if startswith prefix href
  then Some (lstrip_slash (drop (length prefix) href))
  else if startswith (lit "/3/") href
  then Some (lstrip_slash (drop 3 href))
  else if existsb (N.eqb 47%N) href
          || existsb (fun p => startswith p href) SECTION_PREFIXES
  then Some href
  else if endswith (lit ".html") href
  then Some href
  else None.

(** [urls.add(path)] over the links, in the order of first occurrence. *)
Fixpoint collect_keys (base_url : str) (urls : list str) (hrefs : list str)
    : list str :=
  match hrefs with
  | [] => urls
  | raw :: rest =>
      match href_key base_url raw with
      | Some path =>
          collect_keys base_url
            (if contains path urls then urls else urls ++ [path]) rest
      | None => collect_keys base_url urls rest
      end
  end.

(** [sorted(urls)] for strings. *)
Fixpoint insert_str (x : str) (l : list str) : list str :=
  match l with
  | [] => [x]
  | y :: l' => if str_ltb x y then x :: l else y :: insert_str x l'
  end.

Definition sorted_strs (l : list str) : list str := fold_right insert_str [] l.

(** [_extract_doc_urls_from_contents], from the [href] attributes of the
    links that [soup.find_all("a", href=True)] finds. *)
Definition extract_doc_urls (base_url : str) (hrefs : list str) : list str :=
  sorted_strs (collect_keys base_url [] hrefs).

(** No string of the list is followed by a smaller one. *)
Fixpoint ascending (l : list str) : bool :=
  match l with
  | [] => true
  | a :: t =>
      match t with
      | [] => true
      | b :: _ => negb (str_ltb b a) && ascending t
      end
  end.

(** * The specification, in the terms of the embedding *)

(** ** State model *)

Inductive mark_call :=
| MarkCompleted (item : str)
| MarkFailed (item error tb : str).

Definition apply_call (st : Fetch.FetchState) (c : mark_call) : Fetch.FetchState :=
  match c with
  | MarkCompleted u => Fetch.mark_completed st u
  | MarkFailed u e tb => Fetch.mark_failed st u e tb
  end.

Definition run_calls (st : Fetch.FetchState) (cs : list mark_call) : Fetch.FetchState :=
  fold_left apply_call cs st.

(** The key is in the completed list and in the failed map. *)
Definition in_both (st : Fetch.FetchState) (u : str) : bool :=
  str_in u (Fetch.completed_urls st) && dict_has u (Fetch.failed_urls st).

(** No [mark_failed] of the sequence is for a key that is completed when
    the call is made. *)
Fixpoint fails_only_uncompleted (st : Fetch.FetchState) (cs : list mark_call) : bool :=
  match cs with
  | [] => true
  | c :: cs' =>
      match c with
      | MarkFailed u _ _ => negb (str_in u (Fetch.completed_urls st))
      | MarkCompleted _ => true
      end
      && fails_only_uncompleted (apply_call st c) cs'
  end.

(** ** Planner *)

(** A universe key that is no retry candidate, is not completed and has
    no artifact on the disk. *)
Definition is_pending (exists_ : str -> bool) (output_dir : str)
    (st : Fetch.FetchState) (retries : list str) (u : str) : bool :=
  negb (contains u retries)
  && negb (Fetch.should_skip st u)
  && negb (exists_ (Fetch._url_to_output_path u output_dir)).

(** A universe key that is no retry candidate and is not completed, but
    has its artifact on the disk. *)
Definition is_synced (exists_ : str -> bool) (output_dir : str)
    (st : Fetch.FetchState) (retries : list str) (u : str) : bool :=
  negb (contains u retries)
  && negb (Fetch.should_skip st u)
  && exists_ (Fetch._url_to_output_path u output_dir).

(** The retry candidates as the code lists them: the keys of the failed
    map, in the order of the map. *)
Definition retries_in_map_order (all_urls : list str) (st : Fetch.FetchState) : list str :=
  List.filter (fun u => contains u all_urls) (dict_keys (Fetch.failed_urls st)).

(** The retry candidates as the specification words them: the universe
    keys that the failed map holds, in the order of the universe. *)
Definition retries_in_universe_order (all_urls : list str) (st : Fetch.FetchState)
    : list str :=
  List.filter (fun u => dict_has u (Fetch.failed_urls st)) all_urls.

(** The work list of the specification. *)
Definition spec_work_list (exists_ : str -> bool) (output_dir : str)
    (all_urls : list str) (st : Fetch.FetchState) : list str :=
  let retries := retries_in_universe_order all_urls st in
  retries ++ List.filter (is_pending exists_ output_dir st retries) all_urls.

Definition state_with (completed : list pyval) (failed : dict pyval) : Fetch.FetchState :=
  {| Fetch.completed_urls := completed; Fetch.failed_urls := failed;
     Fetch.last_url := PNone; Fetch.error_info := PNone;
     Fetch.total_planned := 0 |}.

(** ** Atomic writes *)

(** The block shared by [save_state] and [fetch_and_save_one]: write the
    temporary sibling, rename it over the destination, remove what is left
    of it in any case. *)
Definition write_block {St : Type} (path content : str) : M St unit :=
  try_finally
    (let* _ := write_text (tmp_of path) content in
     rename (tmp_of path) path)
    (let* e := path_exists (tmp_of path) in
     if e then unlink (tmp_of path) true else ret tt).

Definition is_fail (f : fault) : bool :=
  match f with
  | NoFault => false
  | Fail _ _ => true
  end.

(** At most one call fails. *)
Definition single_failure (fs : list fault) : Prop :=
  (length (List.filter is_fail fs) <= 1)%nat.

(** What the specification asks of a write of [path] by [m], the text
    meant for [path] being any [c] with [intended w c] in the world [w]
    where [m] starts:
    - every state the disk goes through has at [path] what it had before
      or the whole of the text meant for it;
    - when [m] raises, [path] has what it had before;
    - when [m] raises and at most one call fails, the temporary sibling is
      gone, or nothing was written at all. *)
Definition atomic_write_safe {St A : Type} (m : M St A) (path : str)
    (intended : world St -> str -> Prop) : Prop :=
  forall w r w',
    m w = (r, w') ->
    (exists new,
        trail w' = trail w ++ new
        /\ Forall (fun fs => fs !! path = files w !! path
                             \/ exists c, intended w c /\ fs !! path = Some (Text c))
             new)
    /\ (forall e, r = Raise e -> files w' !! path = files w !! path)
    /\ (forall e, r = Raise e -> single_failure (faults w) ->
        files w' !! tmp_of path = None \/ files w' = files w).


(** The text [fetch_and_save_one] writes for the Markdown [md]. *)
Definition page_text (url_path output_path md : str) : str :=
  lit "# " ++ path_stem output_path ++ nl ++ nl
  ++ (Fetch.SOURCE_PREFIX ++ url_path ++ lit "*") ++ nl ++ nl
  ++ lit "---" ++ nl ++ nl ++ md.




(** A computation that leaves the script's object, the log and the count
    of translator calls alone. *)
Definition steady {St A : Type} (m : M St A) : Prop :=
  forall w r w1,
    m w = (r, w1) -> mem w1 = mem w /\ log w1 = log w /\ calls w1 = calls w.

(** ** Retries *)

(** What [_translate_with_retry] keeps as [last_err] for an exception of
    an attempt. *)
Definition kept_error (e : exn) : exn :=
  match exn_type e with
  | TimeoutError =>
      {| exn_type := TimeoutError; exn_name := lit "TimeoutError";
         exn_msg := Translate.MSG_TIMEOUT; exn_tb := [] |}
  | _ => e
  end.

(** What one failed attempt adds to the log. *)
Definition attempt_log (text : str) (attempt : nat) : list event :=
  EvTranslate text
  :: (if (attempt <? Translate.TRANSLATE_RETRIES - 1)%nat
      then [EvSleep (Translate.SLEEP_BETWEEN * (Z.of_nat attempt + 1))]
      else []).

(** Between [w] and [w'] the translator was given only texts that
    satisfy [P]. *)
Definition only_submits {St : Type} (P : str -> Prop) (w w' : world St) : Prop :=
  exists new,
    log w' = log w ++ new /\ forall t, In (EvTranslate t) new -> P t.

(** A text that fits a request, or is one of the given parts. *)
Definition fits_or_part (parts : list str) (t : str) : Prop :=
  (length t <= Translate.MAX_CHUNK_LEN)%nat \/ In t parts.

(** ** Tables for examples *)

(** [str.isalpha] on the ASCII letters and the Russian alphabet. *)
Definition sample_isalpha (c : N) : bool :=
  ((65 <=? c) && (c <=? 90) || (97 <=? c) && (c <=? 122)
   || (1040 <=? c) && (c <=? 1103) || (c =? 1025) || (c =? 1105))%N.

(** The value of an ASCII digit. *)
Definition sample_digit_value (c : N) : option nat :=
  if ((48 <=? c) && (c <=? 57))%N then Some (N.to_nat (c - 48)) else None.

(** A writer and a reader of JSON for the examples: compact output, strings
    with the escapes of the quote and the backslash, integers, no floats (a
    float is written as [null]). *)
Fixpoint sample_quote_body (s : str) : str :=
  match s with
  | [] => [34%N]
  | c :: s' =>
      if ((c =? 34) || (c =? 92))%N then 92%N :: c :: sample_quote_body s'
      else c :: sample_quote_body s'
  end.

Definition sample_quote (s : str) : str := 34%N :: sample_quote_body s.

Definition str_of_Z (z : Z) : str :=
  match z with
  | Z0 => lit "0"
  | Zpos p => digits_of_uint (Pos.to_uint p)
  | Zneg p => 45%N :: digits_of_uint (Pos.to_uint p)
  end.

Fixpoint sample_json_dumps (v : pyval) : str :=
  match v with
  | PNone => lit "null"
  | PBool true => lit "true"
  | PBool false => lit "false"
  | PInt z => str_of_Z z
  | PFloat _ => lit "null"
  | PStr s => sample_quote s
  | PList l => lit "[" ++ join (lit ", ") (List.map sample_json_dumps l) ++ lit "]"
  | PDict d =>
      lit "{"
      ++ join (lit ", ")
           (List.map (fun kv => sample_quote (fst kv) ++ lit ": "
                                ++ sample_json_dumps (snd kv)) d)
      ++ lit "}"
  end.

Fixpoint skip_ws (s : str) : str :=
  match s with
  | c :: s' => if ((c =? 32) || (c =? 10) || (c =? 13) || (c =? 9))%N then skip_ws s' else s
  | [] => []
  end.

Fixpoint read_string (acc s : str) : option (str * str) :=
  match s with
  | [] => None
  | c :: s' =>
      if (c =? 34)%N then Some (rev acc, s')
      else if (c =? 92)%N then
        match s' with
        | d :: s'' => if ((d =? 34) || (d =? 92))%N then read_string (d :: acc) s'' else None
        | [] => None
        end
      else read_string (c :: acc) s'
  end.

Fixpoint read_digits (acc : Z) (s : str) : Z * str :=
  match s with
  | c :: s' =>
      match sample_digit_value c with
      | Some d => read_digits (10 * acc + Z.of_nat d) s'
      | None => (acc, s)
      end
  | [] => (acc, s)
  end.

Fixpoint read_value (fuel : nat) (s : str) : option (pyval * str) :=
  match fuel with
  | O => None
  | S fuel' =>
      match skip_ws s with
      | 110%N :: 117%N :: 108%N :: 108%N :: rest => Some (PNone, rest)
      | 116%N :: 114%N :: 117%N :: 101%N :: rest => Some (PBool true, rest)
      | 102%N :: 97%N :: 108%N :: 115%N :: 101%N :: rest => Some (PBool false, rest)
      | 34%N :: rest =>
          match read_string [] rest with
          | Some (x, rest') => Some (PStr x, rest')
          | None => None
          end
      | 91%N :: rest =>
          match skip_ws rest with
          | 93%N :: rest' => Some (PList [], rest')
          | _ =>
              match read_items fuel' rest with
              | Some (l, rest') => Some (PList l, rest')
              | None => None
              end
          end
      | 123%N :: rest =>
          match skip_ws rest with
          | 125%N :: rest' => Some (PDict [], rest')
          | _ =>
              match read_members fuel' rest with
              | Some (d, rest') => Some (PDict d, rest')
              | None => None
              end
          end
      | 45%N :: c :: rest =>
          match sample_digit_value c with
          | Some _ => let '(z, rest') := read_digits 0 (c :: rest) in Some (PInt (- z), rest')
          | None => None
          end
      | c :: rest =>
          match sample_digit_value c with
          | Some _ => let '(z, rest') := read_digits 0 (c :: rest) in Some (PInt z, rest')
          | None => None
          end
      | [] => None
      end
  end
with read_items (fuel : nat) (s : str) : option (list pyval * str) :=
  match fuel with
  | O => None
  | S fuel' =>
      match read_value fuel' s with
      | Some (v, rest) =>
          match skip_ws rest with
          | 44%N :: rest' =>
              match read_items fuel' rest' with
              | Some (l, rest'') => Some (v :: l, rest'')
              | None => None
              end
          | 93%N :: rest' => Some ([v], rest')
          | _ => None
          end
      | None => None
      end
  end
with read_members (fuel : nat) (s : str) : option (list (str * pyval) * str) :=
  match fuel with
  | O => None
  | S fuel' =>
      match skip_ws s with
      | 34%N :: rest =>
          match read_string [] rest with
          | Some (k, rest1) =>
              match skip_ws rest1 with
              | 58%N :: rest2 =>
                  match read_value fuel' rest2 with
                  | Some (v, rest3) =>
                      match skip_ws rest3 with
                      | 44%N :: rest4 =>
                          match read_members fuel' rest4 with
                          | Some (d, rest5) => Some ((k, v) :: d, rest5)
                          | None => None
                          end
                      | 125%N :: rest4 => Some ([(k, v)], rest4)
                      | _ => None
                      end
                  | None => None
                  end
              | _ => None
              end
          | None => None
          end
      | _ => None
      end
  end.

Definition sample_json_loads (s : str) : option pyval :=
  match read_value (S (length s)) s with
  | Some (v, rest) => match skip_ws rest with [] => Some v | _ => None end
  | None => None
  end.

(** ** Worlds for examples *)

Definition sample_state_path : str := lit "/docs/.fetch_state.json".



(** The world after [write_block path content] when nothing fails. *)
Definition after_write {St : Type} (w : world St) (path content : str) : world St :=
  let written := <[tmp_of path := Text content]> (files w) in
  let renamed := <[path := Text content]> (delete (tmp_of path) written) in
  mkWorld (mem w) renamed (trail w ++ [written; renamed]) [] (calls w) (log w).

Definition sample_state : Fetch.FetchState :=
  {| Fetch.completed_urls := [PStr (lit "a.html"); PStr (lit "b.html")];
     Fetch.failed_urls := [(lit "c.html", PStr (lit "URLError: down"))];
     Fetch.last_url := PStr (lit "b.html");
     Fetch.error_info :=
       PDict [ (lit "url", PStr (lit "c.html"));
               (lit "error", PStr (lit "URLError: down"));
               (lit "traceback", PStr (lit "Traceback (most recent call last)")) ];
     Fetch.total_planned := 3 |}.

(** An empty disk on which nothing fails. *)
Definition world_empty {St : Type} (s : St) : world St := mkWorld s ∅ [] [] 0 [].

(** The disk of the sync example: the page of [library/b.html] is there,
    the state knows [a.html] only. *)
Definition world_sync : world Fetch.FetchState :=
  mkWorld (state_with [PStr (lit "a.html")] [])
    (<[lit "/docs/02_LIBRARY/b.md" := Text (lit "# b")]> ∅) [] [] 0 [].



(** A tree with one page to translate and translators that never
    succeed: one whose requests fail, one with a programming error. *)
Definition sample_doc : str := lit "This text is long enough to translate.".

Definition world_one_doc : world (list pyval) :=
  mkWorld [] (<[lit "/docs/doc.md" := Text sample_doc]> ∅) [] [] 0 [].

Definition request_error : exn :=
  {| exn_type := OtherException; exn_name := lit "RequestError";
     exn_msg := lit "Request exception can happen due to an api connection error";
     exn_tb := [] |}.

Definition value_error : exn :=
  {| exn_type := ValueError; exn_name := lit "ValueError";
     exn_msg := lit "invalid literal for int() with base 10"; exn_tb := [] |}.

Definition translator_down (n : nat) (text : str) : outcome pyval :=
  Raise request_error.

Definition translator_broken (n : nat) (text : str) : outcome pyval :=
  Raise value_error.

Definition run_translate_main (translator : nat -> str -> outcome pyval)
    : outcome unit * world (list pyval) :=
  Translate.main sample_isalpha sample_digit_value sample_json_dumps
    sample_json_loads (Return (10 ^ 12)) true (lit "/docs") translator
    world_one_doc.

(** A fetch whose conversion step has a programming error. *)
Definition import_error : exn :=
  {| exn_type := OtherException; exn_name := lit "ImportError";
     exn_msg := lit "pip install beautifulsoup4";
     exn_tb := lit "Traceback (most recent call last)" |}.

Definition sample_urlopen (url : str) : outcome str := Return (lit "<html></html>").

Definition broken_html_to_markdown (html : str) : outcome str := Raise import_error.

(** A network that is down, a download interrupted from the keyboard,
    and a conversion that keeps the text as it is. *)
Definition url_error : exn :=
  {| exn_type := OSError; exn_name := lit "URLError";
     exn_msg := lit "<urlopen error timed out>"; exn_tb := [] |}.

Definition urlopen_down (url : str) : outcome str := Raise url_error.



Definition plain_html_to_markdown (html : str) : outcome str := Return html.

(** A translator that gives every text back as it is. *)
Definition echo_translator (n : nat) (text : str) : outcome pyval :=
  Return (PStr text).

(** A tree whose one page is blank. *)
Definition world_blank_doc : world (list pyval) :=
  mkWorld [] (<[lit "/docs/blank.md" := Text nl]> ∅) [] [] 0 [].

(** A tree after a crash: a page, the temporary file of another page and
    the temporary file of the state. *)
Definition world_after_crash : world unit :=
  mkWorld tt
    (<[lit "/docs/02_LIBRARY/os.md" := Text (lit "# os")]>
       (<[lit "/docs/02_LIBRARY/re.md.tmp" := Text (lit "# r")]>
          (<[lit "/docs/.fetch_state.json.tmp" := Text (lit "{")]> ∅)))
    [] [] 0 [].


(** ** What [load_state] makes of a JSON document *)

Definition fetch_state_of_json (d : dict pyval) (planned : Z) : Fetch.FetchState :=
  {| Fetch.completed_urls :=
       match dict_get_default (lit "completed_urls") (PList []) d with
       | PList l => l
       | _ => []
       end;
     Fetch.failed_urls :=
       match dict_get_default (lit "failed_urls") (PDict []) d with
       | PDict f => f
       | _ => []
       end;
     Fetch.last_url := dict_get_default (lit "last_url") PNone d;
     Fetch.error_info := dict_get_default (lit "error_info") PNone d;
     Fetch.total_planned := planned |}.

Definition is_infinite (v : pyval) : bool :=
  match v with
  | PFloat (FInf _) => true
  | _ => false
  end.

Definition translate_completed_of_json (v : pyval) : list pyval :=
  match v with
  | PDict d =>
      match dict_get_default (lit "completed") (PList []) d with
      | PList l =>
          match py_set l with
          | Return s => s
          | Raise _ => []
          end
      | _ => []
      end
  | _ => []
  end.

(** The document [save_state] of the translation script writes for a
    completed set. *)
Definition translate_state_doc (completed : list pyval) : pyval :=
  PDict [(lit "completed",
          PList match py_sorted completed with
                | Return sorted => sorted
                | Raise _ => []
                end)].

(** * Properties *)

(** ** Strings and dictionaries *)

Lemma str_eqb_true (a b : str) : str_eqb a b = true <-> a = b.
Proof. unfold str_eqb. apply bool_decide_eq_true. Qed.

Lemma str_eqb_false (a b : str) : str_eqb a b = false <-> a <> b.
Proof. unfold str_eqb. apply bool_decide_eq_false. Qed.

Lemma str_eqb_refl (a : str) : str_eqb a a = true.
Proof. now apply str_eqb_true. Qed.

Lemma str_eqb_sym (a b : str) : str_eqb a b = str_eqb b a.
Proof.
  destruct (str_eqb b a) eqn:E.
  - apply str_eqb_true in E. subst. apply str_eqb_refl.
  - apply str_eqb_false in E. apply str_eqb_false. congruence.
Qed.

Lemma contains_In (u : str) (l : list str) : contains u l = true <-> In u l.
Proof.
  unfold contains. rewrite existsb_exists. split.
  - intros [x [Hx E]]. apply str_eqb_true in E. now subst.
  - intros H. exists u. split; [assumption | apply str_eqb_refl].
Qed.

Lemma contains_not_In (u : str) (l : list str) : contains u l = false <-> ~ In u l.
Proof.
  rewrite <- contains_In. destruct (contains u l); split; congruence.
Qed.

Lemma contains_app (u : str) (l l' : list str) :
  contains u (l ++ l') = contains u l || contains u l'.
Proof. unfold contains. apply existsb_app. Qed.

Lemma str_in_app (u : str) (l l' : list pyval) :
  str_in u (l ++ l') = str_in u l || str_in u l'.
Proof. unfold str_in. apply existsb_app. Qed.

Lemma str_in_single (u v : str) : str_in u [PStr v] = str_eqb u v.
Proof. unfold str_in. simpl. apply orb_false_r. Qed.

Lemma dict_has_cons {V : Type} (k k' : str) (v : V) (d : dict V) :
  dict_has k ((k', v) :: d) = str_eqb k k' || dict_has k d.
Proof. reflexivity. Qed.

Lemma dict_has_set {V : Type} (k k' : str) (v : V) (d : dict V) :
  dict_has k (dict_set k' v d) = str_eqb k k' || dict_has k d.
Proof.
  induction d as [| [k0 v0] d IH]; simpl.
  - reflexivity.
  - destruct (str_eqb k' k0) eqn:E.
    + apply str_eqb_true in E. subst k0.
      rewrite !dict_has_cons. now destruct (str_eqb k k').
    + rewrite !dict_has_cons, IH.
      destruct (str_eqb k k0), (str_eqb k k'); reflexivity.
Qed.

Lemma dict_has_del {V : Type} (k k' : str) (d : dict V) :
  dict_has k (dict_del k' d) = negb (str_eqb k k') && dict_has k d.
Proof.
  induction d as [| [k0 v0] d IH]; simpl.
  - now rewrite andb_false_r.
  - destruct (str_eqb k' k0) eqn:E; simpl.
    + apply str_eqb_true in E. subst k0.
      rewrite IH, dict_has_cons. now destruct (str_eqb k k').
    + rewrite !dict_has_cons, IH.
      destruct (str_eqb k k0) eqn:E0; simpl; [| reflexivity].
      apply str_eqb_true in E0. subst k0.
      rewrite str_eqb_sym, E. reflexivity.
Qed.

Lemma fold_left_append_if {A : Type} (p : A -> bool) (l acc : list A) :
  fold_left (fun acc u => if p u then acc ++ [u] else acc) l acc
  = acc ++ List.filter p l.
Proof.
  revert acc. induction l as [| x l IH]; intros acc; simpl.
  - now rewrite app_nil_r.
  - rewrite IH. destruct (p x); [| reflexivity].
    now rewrite <- app_assoc.
Qed.

(** ** C1: completed and failed *)

Lemma mark_completed_not_failed (st : Fetch.FetchState) (u : str) :
  dict_has u (Fetch.failed_urls (Fetch.mark_completed st u)) = false.
Proof.
  simpl. destruct (dict_has u (Fetch.failed_urls st)) eqn:E.
  - rewrite dict_has_del, str_eqb_refl. reflexivity.
  - exact E.
Qed.

Lemma mark_completed_in_both (st : Fetch.FetchState) (u k : str) :
  in_both st k = false -> in_both (Fetch.mark_completed st u) k = false.
Proof.
  unfold in_both. simpl. intros H.
  assert (Hf : dict_has k
                 (if dict_has u (Fetch.failed_urls st)
                  then dict_del u (Fetch.failed_urls st)
                  else Fetch.failed_urls st)
               = negb (str_eqb k u) && dict_has k (Fetch.failed_urls st)).
  { destruct (dict_has u (Fetch.failed_urls st)) eqn:E.
    - apply dict_has_del.
    - destruct (str_eqb k u) eqn:Ek; simpl; [| reflexivity].
      apply str_eqb_true in Ek. now subst. }
  rewrite Hf. clear Hf.
  destruct (str_eqb k u) eqn:Ek; simpl.
  - apply andb_false_r.
  - destruct (str_in u (Fetch.completed_urls st)); simpl.
    + exact H.
    + rewrite str_in_app, str_in_single, Ek, orb_false_r. exact H.
Qed.

Lemma mark_failed_in_both (st : Fetch.FetchState) (u e tb k : str) :
  str_in u (Fetch.completed_urls st) = false ->
  in_both st k = false -> in_both (Fetch.mark_failed st u e tb) k = false.
Proof.
  unfold in_both. simpl. intros Hu H. rewrite dict_has_set.
  destruct (str_eqb k u) eqn:Ek; simpl.
  - apply str_eqb_true in Ek. subst k. now rewrite Hu.
  - exact H.
Qed.

Lemma run_calls_apart (cs : list mark_call) :
  forall st,
    (forall k, in_both st k = false) ->
    fails_only_uncompleted st cs = true ->
    forall k, in_both (run_calls st cs) k = false.
Proof.
  induction cs as [| c cs IH]; intros st Hst Hg k; simpl in *.
  - apply Hst.
  - apply andb_true_iff in Hg. destruct Hg as [Hc Hg].
    apply IH; [| exact Hg].
    intros k'. destruct c as [u | u e tb]; simpl.
    + apply mark_completed_in_both, Hst.
    + apply mark_failed_in_both; [| apply Hst].
      now apply negb_true_iff in Hc.
Qed.

(** C1, as the code has it: [mark_completed] takes the key out of the
    failed map, [mark_failed] leaves the completed list as it is, and from
    the empty state no key is in both as long as no [mark_failed] is made
    for a key that is completed at that moment. *)
Theorem C1_completed_and_failed_apart :
  (forall st u, dict_has u (Fetch.failed_urls (Fetch.mark_completed st u)) = false)
  /\ (forall st u e tb,
        Fetch.completed_urls (Fetch.mark_failed st u e tb) = Fetch.completed_urls st)
  /\ (forall cs,
        fails_only_uncompleted Fetch.empty_state cs = true ->
        forall k, in_both (run_calls Fetch.empty_state cs) k = false).
Proof.
  split; [| split].
  - apply mark_completed_not_failed.
  - reflexivity.
  - intros cs Hg. apply run_calls_apart; [| exact Hg].
    intros k. reflexivity.
Qed.

Lemma C1_witness :
  fails_only_uncompleted Fetch.empty_state
    [MarkFailed (lit "a.html") (lit "URLError: down") [];
     MarkCompleted (lit "a.html");
     MarkFailed (lit "b.html") (lit "URLError: down") []] = true
  /\ in_both
       (run_calls Fetch.empty_state
          [MarkFailed (lit "a.html") (lit "URLError: down") [];
           MarkCompleted (lit "a.html");
           MarkFailed (lit "b.html") (lit "URLError: down") []])
       (lit "a.html") = false.
Proof.
  split.
  - vm_compute. reflexivity.
  - apply (proj2 (proj2 C1_completed_and_failed_apart)). vm_compute. reflexivity.
Defined.

(** C1 as stated fails: [mark_failed] on a completed key leaves the key in
    both. *)
Lemma C1_counterexample :
  in_both
    (run_calls Fetch.empty_state
       [MarkCompleted (lit "a.html"); MarkFailed (lit "a.html") (lit "OSError: disk") []])
    (lit "a.html") = true.
Proof. vm_compute. reflexivity. Qed.

(** ** C7: the order of the work list *)

Lemma plan_retries_filter (all_urls : list str) (st : Fetch.FetchState) :
  Fetch.plan_retries all_urls st = retries_in_map_order all_urls st.
Proof.
  unfold Fetch.plan_retries, retries_in_map_order.
  now rewrite fold_left_append_if.
Qed.

Lemma should_skip_mark_other (st : Fetch.FetchState) (u k : str) :
  k <> u ->
  Fetch.should_skip (Fetch.mark_completed st u) k = Fetch.should_skip st k.
Proof.
  intros Hne. unfold Fetch.should_skip. simpl.
  destruct (str_in u (Fetch.completed_urls st)); simpl; [reflexivity |].
  rewrite str_in_app, str_in_single.
  apply str_eqb_false in Hne. now rewrite Hne, orb_false_r.
Qed.

Section PlanLoop.

Variable exists_ : str -> bool.
Variable output_dir : str.
Variable st : Fetch.FetchState.
Variable retries : list str.

Let pending := is_pending exists_ output_dir st retries.

Lemma plan_loop (rest : list str) :
  forall (seen : list str) (v : Fetch.plan_vars),
    List.NoDup (seen ++ rest) ->
    Fetch.to_fetch v = retries ++ List.filter pending seen ->
    (forall k, In k rest ->
       Fetch.should_skip (Fetch.state v) k = Fetch.should_skip st k) ->
    Fetch.to_fetch (fold_left (Fetch.plan_step exists_ output_dir) rest v)
    = retries ++ List.filter pending (seen ++ rest).
Proof.
  induction rest as [| u rest IH]; intros seen v Hnd Hv Hskip; simpl.
  - now rewrite app_nil_r.
  - assert (Hu : ~ In u seen /\ ~ In u rest).
    { apply NoDup_remove_2 in Hnd. rewrite in_app_iff in Hnd. tauto. }
    destruct Hu as [Hseen Hrest].
    assert (Hin : contains u (Fetch.to_fetch v) = contains u retries).
    { rewrite Hv, contains_app.
      assert (Hf : contains u (List.filter pending seen) = false).
      { apply contains_not_In. intros Hc. apply List.filter_In in Hc. tauto. }
      now rewrite Hf, orb_false_r. }
    assert (Hnd' : List.NoDup ((seen ++ [u]) ++ rest)).
    { now rewrite <- app_assoc. }
    replace (seen ++ u :: rest) with ((seen ++ [u]) ++ rest)
      by now rewrite <- app_assoc.
    unfold Fetch.plan_step at 2. rewrite Hin.
    rewrite (Hskip u (or_introl eq_refl)).
    assert (Hpend : pending u
                    = negb (contains u retries)
                      && negb (Fetch.should_skip st u)
                      && negb (exists_ (Fetch._url_to_output_path u output_dir)))
      by reflexivity.
    destruct (contains u retries) eqn:E1.
    { apply IH; [exact Hnd' | | intros k Hk; apply Hskip; now right].
      rewrite List.filter_app. simpl. rewrite Hpend. simpl.
      now rewrite app_nil_r. }
    destruct (Fetch.should_skip st u) eqn:E2.
    { apply IH; [exact Hnd' | | intros k Hk; apply Hskip; now right].
      rewrite List.filter_app. simpl. rewrite Hpend. simpl.
      now rewrite app_nil_r. }
    destruct (exists_ (Fetch._url_to_output_path u output_dir)) eqn:E3.
    { apply IH; [exact Hnd' | |].
      - simpl. rewrite List.filter_app. simpl. rewrite Hpend. simpl.
        now rewrite app_nil_r.
      - intros k Hk. simpl. rewrite should_skip_mark_other.
        + apply Hskip. now right.
        + intros ->. contradiction. }
    apply IH; [exact Hnd' | | intros k Hk; apply Hskip; now right].
    simpl. rewrite List.filter_app. simpl. rewrite Hpend. simpl.
    rewrite Hv. now rewrite <- app_assoc.
Qed.

End PlanLoop.

(** C7, as the code has it: for a universe without repetition, the work
    list is the retry candidates in the order of the failed map, then the
    pending keys in the order of the universe. *)
Theorem C7_work_list_order (exists_ : str -> bool) (output_dir : str)
    (all_urls : list str) (st : Fetch.FetchState) :
  List.NoDup all_urls ->
  Fetch.to_fetch (Fetch.plan exists_ output_dir all_urls st)
  = retries_in_map_order all_urls st
    ++ List.filter
         (is_pending exists_ output_dir st (retries_in_map_order all_urls st))
         all_urls.
Proof.
  intros Hnd. unfold Fetch.plan.
  apply (plan_loop exists_ output_dir st (retries_in_map_order all_urls st)
           all_urls []); simpl.
  - exact Hnd.
  - now rewrite plan_retries_filter, app_nil_r.
  - reflexivity.
Qed.

Lemma C7_witness :
  List.NoDup [lit "a.html"; lit "b.html"; lit "c.html"]
  /\ Fetch.to_fetch
       (Fetch.plan (fun _ => false) (lit "/docs")
          [lit "a.html"; lit "b.html"; lit "c.html"]
          (state_with [PStr (lit "a.html")]
             [(lit "c.html", PStr (lit "URLError: down"))]))
     = [lit "c.html"; lit "b.html"].
Proof.
  assert (Hnd : List.NoDup [lit "a.html"; lit "b.html"; lit "c.html"]).
  { repeat (apply List.NoDup_cons; [vm_compute; intuition discriminate |]).
    apply List.NoDup_nil. }
  split; [exact Hnd |].
  rewrite (C7_work_list_order _ _ _ _ Hnd). vm_compute. reflexivity.
Defined.

(** C7 as stated fails: the retry candidates come out in the order of the
    failed map, which need not be the order of the universe. *)
Lemma C7_counterexample :
  Fetch.to_fetch
    (Fetch.plan (fun _ => false) (lit "/docs") [lit "a.html"; lit "b.html"]
       (state_with []
          [(lit "b.html", PStr (lit "URLError: down"));
           (lit "a.html", PStr (lit "URLError: down"))]))
  = [lit "b.html"; lit "a.html"]
  /\ spec_work_list (fun _ => false) (lit "/docs") [lit "a.html"; lit "b.html"]
       (state_with []
          [(lit "b.html", PStr (lit "URLError: down"));
           (lit "a.html", PStr (lit "URLError: down"))])
     = [lit "a.html"; lit "b.html"]
  /\ Fetch.to_fetch
       (Fetch.plan (fun _ => false) (lit "/docs") [lit "a.html"; lit "b.html"]
          (state_with []
             [(lit "b.html", PStr (lit "URLError: down"));
              (lit "a.html", PStr (lit "URLError: down"))]))
     <> spec_work_list (fun _ => false) (lit "/docs") [lit "a.html"; lit "b.html"]
          (state_with []
             [(lit "b.html", PStr (lit "URLError: down"));
              (lit "a.html", PStr (lit "URLError: down"))]).
Proof.
  split; [| split]; try (vm_compute; reflexivity).
  vm_compute. intros H. discriminate H.
Qed.

(** ** The cases of one planning step *)

Lemma plan_step_completed (exists_ : str -> bool) (output_dir : str)
    (v : Fetch.plan_vars) (u : str) :
  contains u (Fetch.to_fetch v) = false ->
  Fetch.should_skip (Fetch.state v) u = true ->
  Fetch.plan_step exists_ output_dir v u = v.
Proof. intros H1 H2. unfold Fetch.plan_step. now rewrite H1, H2. Qed.

Lemma plan_step_synced (exists_ : str -> bool) (output_dir : str)
    (v : Fetch.plan_vars) (u : str) :
  contains u (Fetch.to_fetch v) = false ->
  Fetch.should_skip (Fetch.state v) u = false ->
  exists_ (Fetch._url_to_output_path u output_dir) = true ->
  Fetch.plan_step exists_ output_dir v u
  = {| Fetch.to_fetch := Fetch.to_fetch v;
       Fetch.state := Fetch.mark_completed (Fetch.state v) u;
       Fetch.synced := Fetch.synced v + 1 |}.
Proof. intros H1 H2 H3. unfold Fetch.plan_step. now rewrite H1, H2, H3. Qed.

Lemma plan_step_pending (exists_ : str -> bool) (output_dir : str)
    (v : Fetch.plan_vars) (u : str) :
  contains u (Fetch.to_fetch v) = false ->
  Fetch.should_skip (Fetch.state v) u = false ->
  exists_ (Fetch._url_to_output_path u output_dir) = false ->
  Fetch.plan_step exists_ output_dir v u
  = {| Fetch.to_fetch := Fetch.to_fetch v ++ [u];
       Fetch.state := Fetch.state v;
       Fetch.synced := Fetch.synced v |}.
Proof. intros H1 H2 H3. unfold Fetch.plan_step. now rewrite H1, H2, H3. Qed.

(** ** C9: two keys, one artifact *)

(** C9: [library/a_b.html] and [library/a/b.html] are different keys with
    the same output path, and one artifact at that path makes the planner
    take both for completed. *)
Theorem C9_output_path_collision :
  lit "library/a_b.html" <> lit "library/a/b.html"
  /\ (forall output_dir,
        Fetch._url_to_output_path (lit "library/a_b.html") output_dir
        = Fetch._url_to_output_path (lit "library/a/b.html") output_dir)
  /\ (forall exists_ output_dir,
        exists_ (Fetch._url_to_output_path (lit "library/a_b.html") output_dir) = true ->
        let v := Fetch.plan exists_ output_dir
                   [lit "library/a/b.html"; lit "library/a_b.html"]
                   Fetch.empty_state in
        Fetch.to_fetch v = []
        /\ Fetch.completed_urls (Fetch.state v)
           = [PStr (lit "library/a/b.html"); PStr (lit "library/a_b.html")]).
Proof.
  assert (Hpath : forall output_dir,
             Fetch._url_to_output_path (lit "library/a_b.html") output_dir
             = Fetch._url_to_output_path (lit "library/a/b.html") output_dir).
  { intros output_dir. reflexivity. }
  split; [| split].
  - intros H. discriminate H.
  - exact Hpath.
  - intros exists_ output_dir He.
    assert (He' : exists_ (Fetch._url_to_output_path (lit "library/a/b.html")
                             output_dir) = true)
      by (rewrite <- Hpath; exact He).
    cbv zeta. unfold Fetch.plan, Fetch.plan_retries. cbn [fold_left].
    rewrite (plan_step_synced _ _ _ (lit "library/a/b.html"));
      [| reflexivity | reflexivity | exact He'].
    rewrite (plan_step_synced _ _ _ (lit "library/a_b.html"));
      [| reflexivity | reflexivity | exact He].
    split; reflexivity.
Qed.

Lemma C9_witness :
  Fetch.to_fetch
    (Fetch.plan
       (fun p => str_eqb p (lit "/docs/02_LIBRARY/a_b.md")) (lit "/docs")
       [lit "library/a/b.html"; lit "library/a_b.html"] Fetch.empty_state)
  = [].
Proof.
  apply (proj2 (proj2 C9_output_path_collision)
           (fun p => str_eqb p (lit "/docs/02_LIBRARY/a_b.md")) (lit "/docs")).
  vm_compute. reflexivity.
Defined.

(** ** C10: the share of Cyrillic letters *)

Lemma filter_length_le {A : Type} (p : A -> bool) (l : list A) :
  (length (List.filter p l) <= length l)%nat.
Proof.
  induction l as [| x l IH]; simpl; [lia |].
  destruct (p x); simpl; lia.
Qed.

Lemma filter_none {A : Type} (p : A -> bool) (l : list A) :
  (forall x, In x l -> p x = false) -> List.filter p l = [].
Proof.
  induction l as [| x l IH]; intros H; simpl; [reflexivity |].
  rewrite (H x (or_introl eq_refl)). apply IH.
  intros y Hy. apply H. now right.
Qed.

(** C10: [_cyrillic_ratio] is total, its value lies between 0 and 1, and it
    is 0 for a text without alphabetic characters (the division is not
    reached). *)
Theorem C10_cyrillic_ratio_bounds (isalpha : N -> bool) (text : str) :
  (0 <= Translate._cyrillic_ratio isalpha text)%Q
  /\ (Translate._cyrillic_ratio isalpha text <= 1)%Q
  /\ ((forall c, In c text -> isalpha c = false) ->
      Translate._cyrillic_ratio isalpha text = 0%Q).
Proof.
  unfold Translate._cyrillic_ratio.
  split; [| split].
  - destruct (List.filter isalpha text) as [| c chars]; simpl is_empty; cbv iota.
    + apply Qle_refl.
    + unfold Qle. simpl Qnum. simpl Qden. lia.
  - destruct (List.filter isalpha text) as [| c chars] eqn:E; simpl is_empty; cbv iota.
    + unfold Qle. simpl. lia.
    + unfold Qle. simpl Qnum. simpl Qden.
      pose proof (filter_length_le Translate.is_cyrillic (c :: chars)) as Hle.
      simpl in Hle.
      rewrite <- Pos.of_nat_succ, Zpos_P_of_succ_nat. lia.
  - intros H. now rewrite (filter_none _ _ H).
Qed.

Lemma C10_witness :
  (forall c, In c (lit "2024: 3 + 4 = 7") -> sample_isalpha c = false)
  /\ Translate._cyrillic_ratio sample_isalpha (lit "2024: 3 + 4 = 7") = 0%Q.
Proof.
  assert (H : forall c, In c (lit "2024: 3 + 4 = 7") -> sample_isalpha c = false).
  { intros c Hc. vm_compute in Hc.
    repeat (destruct Hc as [<- | Hc]; [reflexivity |]). contradiction. }
  split; [exact H |].
  exact (proj2 (proj2 (C10_cyrillic_ratio_bounds sample_isalpha _)) H).
Defined.

(** ** Atomic writes *)

Lemma tmp_of_neq (p : str) : tmp_of p <> p.
Proof.
  unfold tmp_of. intros H. apply (f_equal (@length N)) in H.
  rewrite length_app in H.
  change (length (lit ".tmp")) with 4%nat in H.
  lia.
Qed.




Ltac disk_goal :=
  cbn;
  repeat (first
    [ rewrite lookup_insert_eq
    | rewrite lookup_delete_eq
    | rewrite lookup_insert_ne by (auto using tmp_of_neq)
    | rewrite lookup_delete_ne by (auto using tmp_of_neq) ]; cbn).






(** ** Computations that leave the disk alone *)














(** ** Writes behind other calls *)




Lemma safe_weaken {St A : Type} (m : M St A) (path : str)
    (intended intended' : world St -> str -> Prop) :
  (forall w c, intended w c -> intended' w c) ->
  atomic_write_safe m path intended -> atomic_write_safe m path intended'.
Proof.
  intros Hi Hm w r w' H. destruct (Hm _ _ _ H) as (Htrail & Hraise & Htmp).
  split; [| split; assumption].
  destruct Htrail as (new & Hnew & Hall). exists new. split; [exact Hnew |].
  eapply List.Forall_impl; [| exact Hall].
  intros fs [Hold | (c & Hc & Hfs)]; [now left | right; eauto].
Qed.



Section TranslateQuiet.

Variable digit_value : N -> option nat.
Variable translator : nat -> str -> outcome pyval.








End TranslateQuiet.

(** ** C6: the writes through a temporary file *)








(** ** Saving and loading the snapshot *)

Lemma write_block_ok {St : Type} (path content : str) (w : world St) :
  faults w = [] ->
  write_block path content w = (Return tt, after_write w path content).
Proof.
  intros Hf. destruct w as [m fs tr fl ca lg]. cbn in Hf. subst fl.
  unfold write_block, try_finally, bind, write_text, rename, unlink, path_exists,
    next_fault, set_files, raise, ret, file_exists, after_write.
  disk_goal. now rewrite <- app_assoc.
Qed.

Lemma mkdir_parent_ok {St : Type} (p : str) (w : world St) :
  faults w = [] -> mkdir_parent p w = (Return tt, w).
Proof.
  intros Hf. unfold mkdir_parent, bind, next_fault. now rewrite Hf.
Qed.

Section FetchPersistence.

Variable json_dumps : pyval -> str.
Variable json_loads : str -> option pyval.
Variable int_of_str : str -> option Z.

Lemma fetch_save_state_ok {St : Type} (st : Fetch.FetchState) (path : str)
    (w : world St) :
  faults w = [] ->
  Fetch.save_state json_dumps st path w
  = (Return tt, after_write w path (json_dumps (Fetch.asdict st))).
Proof.
  intros Hf.
  change (Fetch.save_state json_dumps st path)
    with (bind (@mkdir_parent St path)
            (fun _ => write_block path (json_dumps (Fetch.asdict st)))).
  unfold bind. rewrite (mkdir_parent_ok _ _ Hf).
  now apply write_block_ok.
Qed.

Lemma after_write_lookup {St : Type} (w : world St) (path content : str) :
  files (after_write w path content) !! path = Some (Text content).
Proof. unfold after_write. cbn. apply lookup_insert_eq. Qed.

(** [load_state] on a file that holds a JSON object. *)
Lemma fetch_load_state_object {St : Type} (path text : str) (d : dict pyval)
    (planned : Z) (w : world St) :
  files w !! path = Some (Text text) ->
  json_loads text = Some (PDict d) ->
  Fetch._safe_int int_of_str (dict_get_default (lit "total_planned") PNone d) 0
  = Return planned ->
  Fetch.load_state json_loads int_of_str path w
  = (Return (fetch_state_of_json d planned), w).
Proof.
  intros Hfile Hjson Hint.
  unfold Fetch.load_state, bind, path_exists, file_exists, try_except, read_text,
    lift, ret, py_json_loads.
  cbn. repeat (first [rewrite Hfile | rewrite Hjson | rewrite Hint]; cbn).
  reflexivity.
Qed.

Lemma asdict_read_back (st : Fetch.FetchState) :
  fetch_state_of_json
    [ (lit "completed_urls", PList (Fetch.completed_urls st));
      (lit "failed_urls", PDict (Fetch.failed_urls st));
      (lit "last_url", Fetch.last_url st);
      (lit "error_info", Fetch.error_info st);
      (lit "total_planned", PInt (Fetch.total_planned st)) ]
    (Fetch.total_planned st)
  = st.
Proof. destruct st. reflexivity. Qed.

(** C8: when the JSON library reads back what it wrote for the snapshot
    and no call fails, [load_state] after [save_state] returns the state
    that was saved: the same failed map, keys and messages, and the same
    completed list. *)
Theorem C8_save_load_round_trip {St : Type} (st : Fetch.FetchState) (path : str)
    (w : world St) :
  json_loads (json_dumps (Fetch.asdict st)) = Some (Fetch.asdict st) ->
  faults w = [] ->
  exists w1 st',
    Fetch.save_state json_dumps st path w = (Return tt, w1)
    /\ Fetch.load_state json_loads int_of_str path w1 = (Return st', w1)
    /\ Fetch.failed_urls st' = Fetch.failed_urls st
    /\ Fetch.completed_urls st' = Fetch.completed_urls st
    /\ st' = st.
Proof.
  intros Hjson Hf.
  exists (after_write w path (json_dumps (Fetch.asdict st))), st.
  split; [now apply fetch_save_state_ok |].
  split; [| auto].
  pose proof (fetch_load_state_object path (json_dumps (Fetch.asdict st)) _
                (Fetch.total_planned st)
                (after_write w path (json_dumps (Fetch.asdict st)))
                (after_write_lookup _ _ _) Hjson eq_refl) as Hload.
  rewrite Hload. now rewrite asdict_read_back.
Qed.

End FetchPersistence.

Lemma C8_witness :
  sample_json_loads (sample_json_dumps (Fetch.asdict sample_state))
  = Some (Fetch.asdict sample_state)
  /\ exists w1 st',
      Fetch.save_state sample_json_dumps sample_state sample_state_path
        (world_empty tt) = (Return tt, w1)
      /\ Fetch.load_state sample_json_loads (fun _ => None) sample_state_path w1
         = (Return st', w1)
      /\ Fetch.failed_urls st' = Fetch.failed_urls sample_state
      /\ Fetch.completed_urls st' = Fetch.completed_urls sample_state
      /\ st' = sample_state.
Proof.
  assert (H : sample_json_loads (sample_json_dumps (Fetch.asdict sample_state))
              = Some (Fetch.asdict sample_state))
    by (vm_compute; reflexivity).
  split; [exact H |].
  exact (C8_save_load_round_trip sample_json_dumps sample_json_loads
           (fun _ => None) sample_state sample_state_path (world_empty tt)
           H eq_refl).
Defined.

(** ** C2: synchronising with the disk *)

Lemma plan_sync_from_disk (exists_ : str -> bool) (output_dir p1 p2 p3 : str)
    (st : Fetch.FetchState) :
  p1 <> p2 -> p1 <> p3 ->
  Fetch.completed_urls st = [PStr p1] ->
  Fetch.failed_urls st = [] ->
  exists_ (Fetch._url_to_output_path p2 output_dir) = true ->
  exists_ (Fetch._url_to_output_path p3 output_dir) = false ->
  Fetch.plan exists_ output_dir [p1; p2; p3] st
  = {| Fetch.to_fetch := [p3];
       Fetch.state := Fetch.mark_completed st p2;
       Fetch.synced := 1 |}.
Proof.
  intros H12 H13 Hc Hf He2 He3.
  assert (H23 : p2 <> p3) by (intros ->; congruence).
  unfold Fetch.plan, Fetch.plan_retries. rewrite Hf. cbn [dict_keys List.map fold_left].
  rewrite (plan_step_completed _ _ _ p1);
    cbn [Fetch.to_fetch Fetch.state Fetch.synced].
  2: reflexivity.
  2: { unfold Fetch.should_skip. rewrite Hc, str_in_single. apply str_eqb_refl. }
  rewrite (plan_step_synced _ _ _ p2);
    cbn [Fetch.to_fetch Fetch.state Fetch.synced].
  2: reflexivity.
  2: { unfold Fetch.should_skip. rewrite Hc, str_in_single.
       apply str_eqb_false. congruence. }
  2: exact He2.
  rewrite (plan_step_pending _ _ _ p3);
    cbn [Fetch.to_fetch Fetch.state Fetch.synced].
  - reflexivity.
  - reflexivity.
  - rewrite should_skip_mark_other by congruence.
    unfold Fetch.should_skip. rewrite Hc, str_in_single.
    apply str_eqb_false. congruence.
  - exact He3.
Qed.

Section FetchPlanning.

Variable json_dumps : pyval -> str.
Variable PROJECT_ROOT : str.

(** C2: with the universe [p1; p2; p3], [completed = [p1]], nothing
    failed, an artifact for [p2] and none for [p3], the planning phase
    returns the work list [[p3]], runs no step, leaves [p1; p2] completed
    and, before it returns, has written the snapshot of that state. *)
Theorem C2_sync_from_disk (p1 p2 p3 : str) (w : world Fetch.FetchState) :
  p1 <> p2 -> p1 <> p3 ->
  Fetch.completed_urls (mem w) = [PStr p1] ->
  Fetch.failed_urls (mem w) = [] ->
  faults w = [] ->
  file_exists (files w) (Fetch._url_to_output_path p2 (Fetch.OUTPUT_DIR PROJECT_ROOT))
  = true ->
  file_exists (files w) (Fetch._url_to_output_path p3 (Fetch.OUTPUT_DIR PROJECT_ROOT))
  = false ->
  exists w',
    Fetch.main_planning json_dumps PROJECT_ROOT [p1; p2; p3] w = (Return [p3], w')
    /\ Fetch.completed_urls (mem w') = [PStr p1; PStr p2]
    /\ Fetch.failed_urls (mem w') = []
    /\ log w' = log w
    /\ exists saved,
        files w' !! Fetch.state_path PROJECT_ROOT
        = Some (Text (json_dumps (Fetch.asdict saved)))
        /\ Fetch.completed_urls saved = [PStr p1; PStr p2]
        /\ Fetch.failed_urls saved = [].
Proof.
  intros H12 H13 Hc Hf Hfl He2 He3.
  assert (Hdone : Fetch.completed_urls (Fetch.mark_completed (mem w) p2)
                  = [PStr p1; PStr p2]).
  { simpl. rewrite Hc, str_in_single.
    assert (E : str_eqb p2 p1 = false) by (apply str_eqb_false; congruence).
    now rewrite E. }
  assert (Hnone : Fetch.failed_urls (Fetch.mark_completed (mem w) p2) = []).
  { simpl. now rewrite Hf. }
  unfold Fetch.main_planning, bind.
  rewrite (plan_sync_from_disk _ _ p1 p2 p3 (mem w) H12 H13 Hc Hf He2 He3).
  cbn [Fetch.to_fetch Fetch.state Fetch.synced set_mem].
  change (negb (1 =? 0)) with true. cbv iota.
  rewrite fetch_save_state_ok by exact Hfl.
  eexists. split; [reflexivity |].
  cbn [mem log after_write set_mem get_mem Fetch.set_total_planned
         Fetch.completed_urls Fetch.failed_urls].
  repeat split; try assumption.
  exists (Fetch.mark_completed (mem w) p2).
  split; [| split; assumption].
  cbn [files]. apply lookup_insert_eq.
Qed.

End FetchPlanning.

Lemma C2_witness :
  exists w',
    Fetch.main_planning sample_json_dumps (lit "/docs")
      [lit "a.html"; lit "library/b.html"; lit "library/c.html"] world_sync
    = (Return [lit "library/c.html"], w')
    /\ Fetch.completed_urls (mem w')
       = [PStr (lit "a.html"); PStr (lit "library/b.html")].
Proof.
  destruct (C2_sync_from_disk sample_json_dumps (lit "/docs")
              (lit "a.html") (lit "library/b.html") (lit "library/c.html")
              world_sync)
    as (w' & Hrun & Hdone & _);
    try (vm_compute; reflexivity);
    try (vm_compute; discriminate).
  exists w'. split; assumption.
Defined.

(** ** C5: loading a missing or damaged snapshot *)

Section LoadState.

Variable json_loads : str -> option pyval.
Variable int_of_str : str -> option Z.

Lemma safe_int_total (v : pyval) (default : Z) :
  is_infinite v = false ->
  exists n, Fetch._safe_int int_of_str v default = Return n.
Proof.
  intros Hv. destruct v as [| b | z | [| neg | m e] | s | l | d];
    cbn in *; try discriminate; eauto.
  destruct (int_of_str s); cbn; eauto.
Qed.

Lemma fetch_load_state_absent {St : Type} (path : str) (w : world St) :
  files w !! path = None ->
  Fetch.load_state json_loads int_of_str path w = (Return Fetch.empty_state, w).
Proof.
  intros H. unfold Fetch.load_state, bind, path_exists, file_exists.
  now rewrite H.
Qed.






Lemma py_set_go_raises (l seen : list pyval) (e : exn) :
  py_set_go seen l = Raise e -> exn_type e = TypeError.
Proof.
  revert seen. induction l as [| x l IH]; intros seen H; simpl in H.
  - discriminate.
  - destruct (py_hashable x); [eapply IH, H |].
    inversion H. reflexivity.
Qed.

Lemma translate_load_state_json {St : Type} (path text : str) (v : pyval)
    (w : world St) :
  files w !! path = Some (Text text) ->
  json_loads text = Some v ->
  Translate.load_state json_loads path w
  = (Return (translate_completed_of_json v), w).
Proof.
  intros H Hj.
  unfold Translate.load_state, bind, path_exists, file_exists, try_except,
    read_text, lift, py_json_loads, translate_completed_of_json.
  cbn. repeat (first [rewrite H | rewrite Hj]; cbn).
  destruct v as [| b | z | f | s | l | d]; cbn; try reflexivity.
  destruct (dict_get_default (lit "completed") (PList []) d)
    as [| b | z | f | s | l | d']; cbn; try reflexivity.
  unfold py_set. destruct (py_set_go [] l) as [s | e] eqn:E; cbn; [reflexivity |].
  apply py_set_go_raises in E. now rewrite E.
Qed.


End LoadState.



(** ** Computations that leave the object and the log alone *)

Lemma steady_ret {St A : Type} (a : A) : steady (@ret St A a).
Proof. intros w r w1 H. inversion H; subst. auto. Qed.

Lemma steady_raise {St A : Type} (e : exn) : steady (@raise St A e).
Proof. intros w r w1 H. inversion H; subst. auto. Qed.

Lemma steady_lift {St A : Type} (r0 : outcome A) : steady (@lift St A r0).
Proof. intros w r w1 H. inversion H; subst. auto. Qed.

Lemma steady_path_exists {St : Type} (p : str) : steady (@path_exists St p).
Proof. intros w r w1 H. inversion H; subst. auto. Qed.

Lemma steady_next_fault {St : Type} : steady (@next_fault St).
Proof.
  intros w r w1 H. unfold next_fault in H.
  destruct (faults w); inversion H; subst; cbn; auto.
Qed.

Lemma steady_set_files {St : Type} (f : gmap str file) : steady (@set_files St f).
Proof. intros w r w1 H. inversion H; subst. cbn. auto. Qed.

Lemma steady_bind {St A B : Type} (m : M St A) (k : A -> M St B) :
  steady m -> (forall a, steady (k a)) -> steady (bind m k).
Proof.
  intros Hm Hk w r w2 H. unfold bind in H.
  destruct (m w) as [[a | e] w1] eqn:E.
  - destruct (Hm _ _ _ E) as (H1 & H2 & H3).
    destruct (Hk a _ _ _ H) as (H1' & H2' & H3').
    repeat split; congruence.
  - inversion H; subst. exact (Hm _ _ _ E).
Qed.

Lemma steady_try_except {St A : Type} (m : M St A) (h : exn -> option (M St A)) :
  steady m -> (forall e k, h e = Some k -> steady k) -> steady (try_except m h).
Proof.
  intros Hm Hh w r w2 H. unfold try_except in H.
  destruct (m w) as [[a | e] w1] eqn:E.
  - inversion H; subst. exact (Hm _ _ _ E).
  - destruct (h e) as [k |] eqn:Ek.
    + destruct (Hm _ _ _ E) as (H1 & H2 & H3).
      destruct (Hh _ _ Ek _ _ _ H) as (H1' & H2' & H3').
      repeat split; congruence.
    + inversion H; subst. exact (Hm _ _ _ E).
Qed.

Lemma steady_try_finally {St A : Type} (m : M St A) (c : M St unit) :
  steady m -> steady c -> steady (try_finally m c).
Proof.
  intros Hm Hc w r w2 H. unfold try_finally in H.
  destruct (m w) as [r1 w1] eqn:E.
  destruct (c w1) as [[[] | e] w1'] eqn:Ec; inversion H; subst;
    destruct (Hm _ _ _ E) as (H1 & H2 & H3);
    destruct (Hc _ _ _ Ec) as (H1' & H2' & H3');
    repeat split; congruence.
Qed.

Lemma steady_read_text {St : Type} (p : str) : steady (@read_text St p).
Proof.
  intros w r w1 H. unfold read_text in H.
  destruct (files w !! p) as [[s | |] |]; inversion H; subst; auto.
Qed.

Lemma steady_fun {St A : Type} (m : world St -> M St A) :
  (forall w0, steady (m w0)) -> steady (fun w => m w w).
Proof. intros Hm w r w1 H. exact (Hm w _ _ _ H). Qed.

Lemma steady_write_text {St : Type} (p content : str) :
  steady (@write_text St p content).
Proof.
  unfold write_text. apply steady_bind; [apply steady_next_fault |].
  intros [| e [n |]].
  - apply (steady_fun (fun w => set_files _)). intros. apply steady_set_files.
  - apply steady_bind; [| intros; apply steady_raise].
    apply (steady_fun (fun w => set_files _)). intros. apply steady_set_files.
  - apply steady_raise.
Qed.

Lemma steady_rename {St : Type} (src dst : str) : steady (@rename St src dst).
Proof.
  unfold rename. apply steady_bind; [apply steady_next_fault |].
  intros [| e o]; [| apply steady_raise].
  intros w r w1 H. destruct (files w !! src); inversion H; subst; cbn; auto.
Qed.

Lemma steady_unlink {St : Type} (p : str) (missing_ok : bool) :
  steady (@unlink St p missing_ok).
Proof.
  unfold unlink. apply steady_bind; [apply steady_next_fault |].
  intros [| e o]; [| apply steady_raise].
  intros w r w1 H.
  destruct (files w !! p); [| destruct missing_ok];
    inversion H; subst; cbn; auto.
Qed.

Lemma steady_mkdir_parent {St : Type} (p : str) : steady (@mkdir_parent St p).
Proof.
  unfold mkdir_parent. apply steady_bind; [apply steady_next_fault |].
  intros [| e o]; [apply steady_ret | apply steady_raise].
Qed.

Lemma steady_cleanup {St : Type} (p : str) :
  steady (bind (@path_exists St p)
            (fun e => if e then unlink p true else ret tt)).
Proof.
  apply steady_bind; [apply steady_path_exists |].
  intros [|]; [apply steady_unlink | apply steady_ret].
Qed.

Lemma steady_write_block {St : Type} (path content : str) :
  steady (@write_block St path content).
Proof.
  unfold write_block. apply steady_try_finally; [| apply steady_cleanup].
  apply steady_bind; [apply steady_write_text | intros; apply steady_rename].
Qed.

Lemma steady_fetch_save_state (json_dumps : pyval -> str) {St : Type}
    (st : Fetch.FetchState) (path : str) :
  steady (@Fetch.save_state json_dumps St st path).
Proof.
  unfold Fetch.save_state.
  apply steady_bind; [apply steady_mkdir_parent | intros].
  apply steady_write_block.
Qed.

Lemma steady_translate_save_state (json_dumps : pyval -> str) {St : Type}
    (completed : list pyval) (path : str) :
  steady (@Translate.save_state json_dumps St completed path).
Proof.
  unfold Translate.save_state.
  apply steady_bind; [apply steady_lift | intros].
  apply steady_write_block.
Qed.

(** ** C3: a translation that fails on every attempt *)

Section Retry.

Variable translator : nat -> str -> outcome pyval.

Lemma attempt_once_raises {St : Type} (text : str) (attempt : nat) (e : exn)
    (w : world St) :
  translator (calls w) text = Raise e ->
  is_Exception (exn_type e) = true ->
  Translate.attempt_once translator text attempt w
  = (Return (inr (kept_error e)),
     mkWorld (mem w) (files w) (trail w) (faults w) (S (calls w))
       (log w ++ attempt_log text attempt)).
Proof.
  intros Ht He. destruct w as [m fs tr fl ca lg]. cbn in Ht.
  unfold Translate.attempt_once, try_except, bind, Translate.submit_and_wait,
    Translate.sleep, emit, ret, attempt_log, kept_error.
  destruct (attempt <? Translate.TRANSLATE_RETRIES - 1)%nat;
    cbn; rewrite Ht;
    destruct (exn_type e) eqn:Et; cbn in He; try discriminate He; cbn;
    rewrite <- ?app_assoc, ?app_nil_r; reflexivity.
Qed.

Lemma translate_with_retry_exhausted {St : Type} (text : str) (e1 e2 e3 : exn)
    (w : world St) :
  translator (calls w) text = Raise e1 ->
  translator (S (calls w)) text = Raise e2 ->
  translator (S (S (calls w))) text = Raise e3 ->
  is_Exception (exn_type e1) = true ->
  is_Exception (exn_type e2) = true ->
  is_Exception (exn_type e3) = true ->
  Translate._translate_with_retry translator text w
  = (Return text,
     mkWorld (mem w) (files w) (trail w) (faults w) (3 + calls w)
       (log w
        ++ [EvTranslate text; EvSleep 500; EvTranslate text; EvSleep 1000;
            EvTranslate text; EvPrintError 3 (Some (kept_error e3))])).
Proof.
  intros H1 H2 H3 E1 E2 E3.
  unfold Translate._translate_with_retry. simpl seq.
  cbn [Translate.retry_loop]. unfold bind at 1.
  rewrite (attempt_once_raises text 0 e1 w H1 E1).
  set (w1 := mkWorld (mem w) (files w) (trail w) (faults w) (S (calls w))
               (log w ++ attempt_log text 0)).
  unfold bind at 1.
  rewrite (attempt_once_raises text 1 e2 w1 H2 E2).
  set (w2 := mkWorld (mem w1) (files w1) (trail w1) (faults w1) (S (calls w1))
               (log w1 ++ attempt_log text 1)).
  unfold bind at 1.
  rewrite (attempt_once_raises text 2 e3 w2 H3 E3).
  unfold bind, emit, ret. cbn. rewrite <- !app_assoc. reflexivity.
Qed.

End Retry.

Lemma str_in_set_add (key : str) (s : list pyval) : str_in key (set_add key s) = true.
Proof.
  unfold set_add. destruct (str_in key s) eqn:E; [exact E |].
  rewrite str_in_app, str_in_single, str_eqb_refl. apply orb_true_r.
Qed.

Section TranslateMain.

Variable isalpha : N -> bool.
Variable digit_value : N -> option nat.
Variable json_dumps : pyval -> str.
Variable PROJECT_ROOT : str.
Variable translator : nat -> str -> outcome pyval.

Lemma steady_save_state_or_print (completed : list pyval) :
  steady (Translate.save_state_or_print json_dumps PROJECT_ROOT completed).
Proof.
  unfold Translate.save_state_or_print.
  apply steady_try_except; [apply steady_translate_save_state |].
  intros e k Hk. destruct (is_OSError (exn_type e)); [| discriminate].
  inversion Hk. apply steady_ret.
Qed.

Lemma main_item_after_translate (path : str) (b : bool)
    (w w1 : world (list pyval)) :
  Translate.translate_md_file isalpha digit_value translator path w
  = (Return b, w1) ->
  exists r w',
    Translate.main_item isalpha digit_value json_dumps PROJECT_ROOT translator
      path w = (r, w')
    /\ mem w' = set_add (Translate._path_to_key PROJECT_ROOT path) (mem w1).
Proof.
  intros H.
  unfold Translate.main_item, try_except, bind. rewrite H.
  unfold get_mem, set_mem. cbn [mem files trail faults calls log].
  match goal with
  | |- context [Translate.save_state_or_print ?d ?r ?c ?w0] =>
      destruct (Translate.save_state_or_print d r c w0) as [[[] | e] w2] eqn:E;
      pose proof (steady_save_state_or_print _ _ _ _ E) as (Hm & _ & _);
      cbn [mem] in Hm
  end.
  - eexists _, _. split; [reflexivity | exact Hm].
  - destruct (exn_type e) eqn:Et; cbn;
      try (eexists _, _; split; [reflexivity | exact Hm]).
    rewrite Hm.
    match goal with
    | |- context [Translate.save_state_or_print ?d ?r ?c ?w0] =>
        destruct (Translate.save_state_or_print d r c w0) as [[[] | e'] w3] eqn:E';
        pose proof (steady_save_state_or_print _ _ _ _ E') as (Hm' & _ & _)
    end.
    + eexists _, _. split; [reflexivity | congruence].
    + eexists _, _. split; [reflexivity | congruence].
Qed.

End TranslateMain.

(** ** C4: an unexpected error *)

Lemma fetch_and_save_one_log (urlopen html_to_markdown : str -> outcome str)
    {St : Type} (url_path output_path : str) (w w1 : world St) (r : outcome unit) :
  Fetch.fetch_and_save_one urlopen html_to_markdown url_path output_path w
  = (r, w1) ->
  mem w1 = mem w /\ log w1 = log w ++ [EvStep url_path].
Proof.
  unfold Fetch.fetch_and_save_one. unfold bind at 1. unfold emit at 1.
  intros H.
  match type of H with
  | ?m ?w0 = _ =>
      assert (Hs : steady m);
      [| destruct (Hs _ _ _ H) as (Hm & Hl & _); cbn in Hm, Hl; auto]
  end.
  apply (steady_bind (mkdir_parent output_path)); [apply steady_mkdir_parent |].
  intros _. apply steady_bind; [apply steady_lift | intros html].
  apply steady_bind; [apply steady_lift | intros md].
  apply steady_write_block.
Qed.

Section FetchLoop.

Variable json_dumps : pyval -> str.
Variable urlopen : str -> outcome str.
Variable html_to_markdown : str -> outcome str.
Variable PROJECT_ROOT : str.

(** C4, as the code has it, for the fetch script: a step that raises an
    unexpected exception (an Exception that is no OSError) is entered
    once; [main] records the key with the message in the failed map and in
    [error_info], writes the snapshot and lets the exception through, which
    ends the run with exit status 1 before any other item is taken up. *)
Theorem C4_unexpected_error_stops_fetch (url_path : str) (rest : list str)
    (e : exn) (w w1 : world Fetch.FetchState) :
  Fetch.fetch_and_save_one urlopen html_to_markdown url_path
    (Fetch._url_to_output_path url_path (Fetch.OUTPUT_DIR PROJECT_ROOT)) w
  = (Raise e, w1) ->
  is_Exception (exn_type e) = true ->
  is_OSError (exn_type e) = false ->
  faults w1 = [] ->
  exists w',
    Fetch.main_processing json_dumps urlopen html_to_markdown PROJECT_ROOT
      (url_path :: rest) w = (Raise e, w')
    /\ Fetch.exit_status (@Raise unit e) = 1
    /\ log w' = log w ++ [EvStep url_path]
    /\ mem w' = Fetch.mark_failed (mem w) url_path (Fetch.err_msg_of e) (exn_tb e)
    /\ Fetch.error_info (mem w')
       = PDict [ (lit "url", PStr url_path);
                 (lit "error", PStr (Fetch.err_msg_of e));
                 (lit "traceback", PStr (exn_tb e)) ]
    /\ files w' !! Fetch.state_path PROJECT_ROOT
       = Some (Text (json_dumps (Fetch.asdict (mem w')))).
Proof.
  intros Hstep Hexc Hos Hfl.
  destruct (fetch_and_save_one_log _ _ _ _ _ _ _ Hstep) as [Hmem Hlog].
  set (failed := Fetch.mark_failed (mem w) url_path (Fetch.err_msg_of e) (exn_tb e)).
  set (w2 := mkWorld failed (files w1) (trail w1) (faults w1) (calls w1) (log w1)).
  assert (Hitem :
            Fetch.main_item json_dumps urlopen html_to_markdown PROJECT_ROOT
              url_path w
            = (Raise e,
               after_write w2 (Fetch.state_path PROJECT_ROOT)
                 (json_dumps (Fetch.asdict failed)))).
  { unfold Fetch.main_item, try_except. unfold bind at 1. rewrite Hstep.
    assert (Hsave : Fetch.save_state json_dumps failed
                      (Fetch.state_path PROJECT_ROOT) w2
                    = (Return tt,
                       after_write w2 (Fetch.state_path PROJECT_ROOT)
                         (json_dumps (Fetch.asdict failed))))
      by (apply fetch_save_state_ok; exact Hfl).
    subst w2 failed.
    destruct (exn_type e) eqn:Et; cbn in Hexc, Hos; try discriminate;
      unfold bind, get_mem, set_mem, raise;
      cbn [is_OSError is_Exception]; cbv beta iota;
      cbn [mem files trail faults calls log];
      rewrite Hmem, Hsave; reflexivity. }
  exists (after_write w2 (Fetch.state_path PROJECT_ROOT)
            (json_dumps (Fetch.asdict failed))).
  split; [| split; [| split; [| split; [| split]]]].
  - cbn [Fetch.main_processing]. unfold bind. now rewrite Hitem.
  - unfold Fetch.exit_status.
    destruct (exn_type e); cbn in Hexc; try discriminate; reflexivity.
  - cbn. exact Hlog.
  - reflexivity.
  - reflexivity.
  - apply after_write_lookup.
Qed.

End FetchLoop.

Lemma C4_witness :
  exists w',
    Fetch.main_processing sample_json_dumps sample_urlopen broken_html_to_markdown
      (lit "/docs") [lit "library/a.html"; lit "library/b.html"]
      (world_empty Fetch.empty_state)
    = (Raise import_error, w')
    /\ log w' = [EvStep (lit "library/a.html")]
    /\ Fetch.failed_urls (mem w')
       = [(lit "library/a.html", PStr (lit "ImportError: pip install beautifulsoup4"))].
Proof.
  destruct (C4_unexpected_error_stops_fetch sample_json_dumps sample_urlopen
              broken_html_to_markdown (lit "/docs") (lit "library/a.html")
              [lit "library/b.html"] import_error (world_empty Fetch.empty_state)
              (snd (Fetch.fetch_and_save_one sample_urlopen broken_html_to_markdown
                      (lit "library/a.html")
                      (Fetch._url_to_output_path (lit "library/a.html")
                         (Fetch.OUTPUT_DIR (lit "/docs")))
                      (world_empty Fetch.empty_state))))
    as (w' & Hrun & _ & Hlog & Hmem & _);
    try (vm_compute; reflexivity).
  exists w'. split; [exact Hrun | split; [exact Hlog |]].
  rewrite Hmem. vm_compute. reflexivity.
Defined.

(** C4 as stated fails on the translate script: an exception that has
    nothing to do with the network is retried like any other; the
    translator is called three times and [main] ends normally, with exit
    status 0. *)
Lemma C4_counterexample :
  calls (snd (Translate._translate_with_retry translator_broken sample_doc
                (world_empty tt))) = 3%nat
  /\ fst (Translate._translate_with_retry translator_broken sample_doc
            (world_empty tt)) = Return sample_doc
  /\ calls (snd (run_translate_main translator_broken)) = 3%nat
  /\ Fetch.exit_status (fst (run_translate_main translator_broken)) = 0.
Proof. repeat split; vm_compute; reflexivity. Qed.

(** * Further properties of the two scripts *)

(** ** The marks of the state *)

Lemma dict_get_set_eq {V : Type} (k : str) (v : V) (d : dict V) :
  dict_get k (dict_set k v d) = Some v.
Proof.
  induction d as [| [k0 v0] d IH]; simpl.
  - now rewrite str_eqb_refl.
  - destruct (str_eqb k k0) eqn:E; simpl; rewrite E; [reflexivity | exact IH].
Qed.

Lemma dict_get_set_ne {V : Type} (k k' : str) (v : V) (d : dict V) :
  k <> k' -> dict_get k (dict_set k' v d) = dict_get k d.
Proof.
  intros Hne. apply str_eqb_false in Hne.
  induction d as [| [k0 v0] d IH]; simpl.
  - now rewrite Hne.
  - destruct (str_eqb k' k0) eqn:E; simpl.
    + apply str_eqb_true in E. subst k0. now rewrite Hne.
    + now rewrite IH.
Qed.

Lemma dict_get_del_ne {V : Type} (k k' : str) (d : dict V) :
  k <> k' -> dict_get k (dict_del k' d) = dict_get k d.
Proof.
  intros Hne. apply str_eqb_false in Hne.
  induction d as [| [k0 v0] d IH]; simpl; [reflexivity |].
  destruct (str_eqb k' k0) eqn:E; simpl.
  - apply str_eqb_true in E. subst k0. now rewrite Hne.
  - now rewrite IH.
Qed.

Lemma dict_keys_set {V : Type} (k : str) (v : V) (d : dict V) :
  dict_keys (dict_set k v d)
  = if dict_has k d then dict_keys d else dict_keys d ++ [k].
Proof.
  induction d as [| [k0 v0] d IH]; [reflexivity |].
  cbn [dict_set]. rewrite dict_has_cons.
  destruct (str_eqb k k0) eqn:E; [reflexivity |].
  cbn [orb]. change (dict_keys ((k0, v0) :: dict_set k v d))
    with (k0 :: dict_keys (dict_set k v d)).
  rewrite IH. now destruct (dict_has k d).
Qed.

(** X1: marking the same key completed twice is the same as marking it
    once, and a key marked completed is skipped from then on. *)
Theorem X1_mark_completed_idempotent (st : Fetch.FetchState) (u : str) :
  Fetch.mark_completed (Fetch.mark_completed st u) u = Fetch.mark_completed st u
  /\ Fetch.should_skip (Fetch.mark_completed st u) u = true.
Proof.
  assert (Hin : str_in u (Fetch.completed_urls (Fetch.mark_completed st u)) = true).
  { simpl. destruct (str_in u (Fetch.completed_urls st)) eqn:E; simpl.
    - exact E.
    - rewrite str_in_app, str_in_single, str_eqb_refl. apply orb_true_r. }
  split; [| exact Hin].
  pose proof (mark_completed_not_failed st u) as Hout.
  unfold Fetch.mark_completed at 1.
  rewrite Hin, Hout. reflexivity.
Qed.

(** X2: [mark_failed] stores the message under the key, replacing an
    earlier one in place and putting a new key last; neither mark changes
    the message kept for another key. *)
Theorem X2_mark_failed_records_message (st : Fetch.FetchState) (u error tb : str) :
  dict_get u (Fetch.failed_urls (Fetch.mark_failed st u error tb))
  = Some (PStr error)
  /\ dict_keys (Fetch.failed_urls (Fetch.mark_failed st u error tb))
     = (if dict_has u (Fetch.failed_urls st)
        then dict_keys (Fetch.failed_urls st)
        else dict_keys (Fetch.failed_urls st) ++ [u])
  /\ (forall k, k <> u ->
        dict_get k (Fetch.failed_urls (Fetch.mark_failed st u error tb))
        = dict_get k (Fetch.failed_urls st))
  /\ (forall k, k <> u ->
        dict_get k (Fetch.failed_urls (Fetch.mark_completed st u))
        = dict_get k (Fetch.failed_urls st)).
Proof.
  simpl. split; [| split; [| split]].
  - apply dict_get_set_eq.
  - apply dict_keys_set.
  - intros k Hk. now apply dict_get_set_ne.
  - intros k Hk. destruct (dict_has u (Fetch.failed_urls st)); [| reflexivity].
    now apply dict_get_del_ne.
Qed.

Lemma X2_witness :
  dict_get (lit "a.html")
    (Fetch.failed_urls
       (Fetch.mark_failed sample_state (lit "b.html") (lit "HTTPError: 404") []))
  = None.
Proof.
  rewrite (proj1 (proj2 (proj2 (X2_mark_failed_records_message sample_state
                                  (lit "b.html") (lit "HTTPError: 404") [])))).
  - vm_compute. reflexivity.
  - vm_compute. intros H. discriminate H.
Defined.

(** ** [_safe_int] *)

(** X3: [_safe_int] gives back an integer as it is and the default for
    [None], a list, a dict, a NaN or a string that is no number; the one
    value on which it raises is an infinite float (OverflowError is not
    among the exceptions it catches). *)
Theorem X3_safe_int_total_but_infinity (int_of_str : str -> option Z)
    (val : pyval) (default : Z) :
  (is_infinite val = false ->
   exists n, Fetch._safe_int int_of_str val default = Return n)
  /\ (is_infinite val = true ->
      Fetch._safe_int int_of_str val default
      = Raise (exn_of OverflowError "OverflowError"))
  /\ (forall z, val = PInt z ->
      Fetch._safe_int int_of_str val default = Return z)
  /\ (val = PNone \/ val = PFloat FNaN \/ (exists l, val = PList l)
      \/ (exists d, val = PDict d)
      \/ (exists s, val = PStr s /\ int_of_str s = None) ->
      Fetch._safe_int int_of_str val default = Return default).
Proof.
  split; [| split; [| split]].
  - apply safe_int_total.
  - destruct val as [| b | z | [| neg | m e] | s | l | d]; cbn;
      intros H; try discriminate H; reflexivity.
  - intros z ->. reflexivity.
  - intros [-> | [-> | [[l ->] | [[d ->] | [s [-> Hs]]]]]]; cbn;
      try reflexivity.
    now rewrite Hs.
Qed.

Lemma X3_witness :
  Fetch._safe_int (fun _ => None) (PStr (lit "many")) 0 = Return 0.
Proof.
  apply (proj2 (proj2 (proj2 (X3_safe_int_total_but_infinity (fun _ => None)
                                (PStr (lit "many")) 0)))).
  right. right. right. right. exists (lit "many"). split; reflexivity.
Defined.

(** ** What planning keeps *)

Lemma nodup_snoc {A : Type} (l : list A) (x : A) :
  List.NoDup l -> ~ In x l -> List.NoDup (l ++ [x]).
Proof.
  induction l as [| y l IH]; intros Hnd Hx; simpl.
  - constructor; [intros [] | constructor].
  - inversion Hnd as [| ? ? Hy Hl]; subst. constructor.
    + rewrite in_app_iff. simpl. intros [H | [H | []]]; [contradiction |].
      subst. apply Hx. now left.
    + apply IH; [exact Hl |]. intros H. apply Hx. now right.
Qed.

Lemma nodup_filter {A : Type} (p : A -> bool) (l : list A) :
  List.NoDup l -> List.NoDup (List.filter p l).
Proof.
  induction l as [| x l IH]; intros Hnd; simpl; [constructor |].
  inversion Hnd as [| ? ? Hx Hl]; subst.
  destruct (p x); [| now apply IH].
  constructor; [| now apply IH].
  intros H. apply List.filter_In in H. tauto.
Qed.

Lemma plan_step_planned (exists_ : str -> bool) (output_dir : str)
    (v : Fetch.plan_vars) (u : str) :
  contains u (Fetch.to_fetch v) = true ->
  Fetch.plan_step exists_ output_dir v u = v.
Proof. intros H. unfold Fetch.plan_step. now rewrite H. Qed.

Lemma dict_has_In {V : Type} (k : str) (d : dict V) :
  dict_has k d = true <-> In k (dict_keys d).
Proof. apply contains_In. Qed.

Section PlanKeeps.

Variable exists_ : str -> bool.
Variable output_dir : str.
Variable all_urls : list str.
Variable st : Fetch.FetchState.

Lemma plan_fold_keeps (rest : list str) :
  forall v : Fetch.plan_vars,
    (forall u, In u rest -> In u all_urls) ->
    (forall u, In u (Fetch.to_fetch v) -> In u all_urls) ->
    (forall u, In u (retries_in_map_order all_urls st) -> In u (Fetch.to_fetch v)) ->
    Fetch.failed_urls (Fetch.state v) = Fetch.failed_urls st ->
    (exists added,
        Fetch.completed_urls (Fetch.state v) = Fetch.completed_urls st ++ added
        /\ Z.of_nat (length added) = Fetch.synced v) ->
    (List.NoDup (Fetch.to_fetch v) ->
     List.NoDup
       (Fetch.to_fetch (fold_left (Fetch.plan_step exists_ output_dir) rest v)))
    /\ (forall u,
           In u (Fetch.to_fetch
                   (fold_left (Fetch.plan_step exists_ output_dir) rest v)) ->
           In u all_urls)
    /\ Fetch.failed_urls
         (Fetch.state (fold_left (Fetch.plan_step exists_ output_dir) rest v))
       = Fetch.failed_urls st
    /\ (exists added,
           Fetch.completed_urls
             (Fetch.state (fold_left (Fetch.plan_step exists_ output_dir) rest v))
           = Fetch.completed_urls st ++ added
           /\ Z.of_nat (length added)
              = Fetch.synced
                  (fold_left (Fetch.plan_step exists_ output_dir) rest v)).
Proof.
  induction rest as [| u rest IH]; intros v Hrest Hsub Hretry Hfailed Hdone.
  - simpl. auto.
  - simpl.
    assert (Hu : In u all_urls) by (apply Hrest; now left).
    assert (Hrest' : forall k, In k rest -> In k all_urls)
      by (intros k Hk; apply Hrest; now right).
    destruct (contains u (Fetch.to_fetch v)) eqn:E1;
      [rewrite plan_step_planned by exact E1; now apply IH |].
    destruct (Fetch.should_skip (Fetch.state v) u) eqn:E2;
      [rewrite plan_step_completed by assumption; now apply IH |].
    destruct (exists_ (Fetch._url_to_output_path u output_dir)) eqn:E3;
      [rewrite plan_step_synced by assumption
      | rewrite plan_step_pending by assumption];
      apply contains_not_In in E1.
    + assert (Hnot : dict_has u (Fetch.failed_urls (Fetch.state v)) = false).
      { rewrite Hfailed. destruct (dict_has u (Fetch.failed_urls st)) eqn:Eh;
          [| reflexivity].
        exfalso. apply E1, Hretry. unfold retries_in_map_order.
        apply List.filter_In. split.
        - now apply dict_has_In.
        - now apply contains_In. }
      destruct (IH {| Fetch.to_fetch := Fetch.to_fetch v;
                      Fetch.state := Fetch.mark_completed (Fetch.state v) u;
                      Fetch.synced := Fetch.synced v + 1 |})
        as (H1 & H2 & H3 & H4); auto.
      * simpl. now rewrite Hnot.
      * destruct Hdone as (added & Hadded & Hlen).
        exists (added ++ [PStr u]). simpl.
        unfold Fetch.should_skip in E2. rewrite E2. simpl.
        rewrite Hadded, <- app_assoc. split; [reflexivity |].
        rewrite length_app. simpl. lia.
    + destruct (IH {| Fetch.to_fetch := Fetch.to_fetch v ++ [u];
                      Fetch.state := Fetch.state v;
                      Fetch.synced := Fetch.synced v |})
        as (H1 & H2 & H3 & H4); auto.
      * simpl. intros k Hk. apply in_app_iff in Hk.
        destruct Hk as [Hk | [<- | []]]; auto.
      * simpl. intros k Hk. apply in_app_iff. left. now apply Hretry.
      * split; [| auto]. intros Hnd. apply H1. simpl.
        now apply nodup_snoc.
Qed.

Lemma plan_failed_unchanged :
  Fetch.failed_urls (Fetch.state (Fetch.plan exists_ output_dir all_urls st))
  = Fetch.failed_urls st.
Proof.
  unfold Fetch.plan.
  destruct (plan_fold_keeps all_urls
              {| Fetch.to_fetch := Fetch.plan_retries all_urls st;
                 Fetch.state := st; Fetch.synced := 0 |})
    as (_ & _ & H3 & _); simpl; auto.
  - rewrite plan_retries_filter. unfold retries_in_map_order.
    intros u Hu. apply List.filter_In in Hu. now apply contains_In.
  - now rewrite plan_retries_filter.
  - exists []. now rewrite app_nil_r.
Qed.

(** X4: whatever the universe and the state, planning leaves the failed
    map as it is and only appends to the completed list, by as many keys
    as it counts as synchronised; and every key it plans is a key of the
    universe, so that a failure kept for a page that has left the universe
    is not retried. *)
Theorem X4_plan_keeps_records :
  Fetch.failed_urls (Fetch.state (Fetch.plan exists_ output_dir all_urls st))
  = Fetch.failed_urls st
  /\ (exists added,
         Fetch.completed_urls
           (Fetch.state (Fetch.plan exists_ output_dir all_urls st))
         = Fetch.completed_urls st ++ added
         /\ Z.of_nat (length added)
            = Fetch.synced (Fetch.plan exists_ output_dir all_urls st))
  /\ (forall u,
         In u (Fetch.to_fetch (Fetch.plan exists_ output_dir all_urls st)) ->
         In u all_urls).
Proof.
  unfold Fetch.plan.
  destruct (plan_fold_keeps all_urls
              {| Fetch.to_fetch := Fetch.plan_retries all_urls st;
                 Fetch.state := st; Fetch.synced := 0 |})
    as (_ & H2 & H3 & H4); simpl; auto.
  - rewrite plan_retries_filter. unfold retries_in_map_order.
    intros u Hu. apply List.filter_In in Hu. now apply contains_In.
  - now rewrite plan_retries_filter.
  - exists []. now rewrite app_nil_r.
Qed.

(** X5: when the keys of the failed map are distinct (as the keys of a
    dict are), no key is planned twice, even for a universe that repeats
    keys. *)
Theorem X5_plan_without_repetition :
  List.NoDup (dict_keys (Fetch.failed_urls st)) ->
  List.NoDup (Fetch.to_fetch (Fetch.plan exists_ output_dir all_urls st)).
Proof.
  intros Hnd. unfold Fetch.plan.
  destruct (plan_fold_keeps all_urls
              {| Fetch.to_fetch := Fetch.plan_retries all_urls st;
                 Fetch.state := st; Fetch.synced := 0 |})
    as (H1 & _); simpl; auto.
  - rewrite plan_retries_filter. unfold retries_in_map_order.
    intros u Hu. apply List.filter_In in Hu. now apply contains_In.
  - now rewrite plan_retries_filter.
  - exists []. now rewrite app_nil_r.
  - apply H1. rewrite plan_retries_filter. now apply nodup_filter.
Qed.

End PlanKeeps.

Lemma X4_witness :
  In (lit "b.html")
    (Fetch.to_fetch
       (Fetch.plan (fun _ => false) (lit "/docs") [lit "a.html"; lit "b.html"]
          (state_with [] [(lit "gone.html", PStr (lit "HTTPError: 404"))])))
  /\ ~ In (lit "gone.html")
       (Fetch.to_fetch
          (Fetch.plan (fun _ => false) (lit "/docs") [lit "a.html"; lit "b.html"]
             (state_with [] [(lit "gone.html", PStr (lit "HTTPError: 404"))]))).
Proof.
  split.
  - vm_compute. auto.
  - intros H.
    apply (proj2 (proj2 (X4_plan_keeps_records (fun _ => false) (lit "/docs")
                           [lit "a.html"; lit "b.html"]
                           (state_with []
                              [(lit "gone.html", PStr (lit "HTTPError: 404"))]))))
      in H.
    vm_compute in H. intuition discriminate.
Defined.

Lemma X5_witness :
  List.NoDup
    (Fetch.to_fetch
       (Fetch.plan (fun _ => false) (lit "/docs")
          [lit "a.html"; lit "b.html"; lit "a.html"]
          (state_with [] [(lit "b.html", PStr (lit "URLError: down"))]))).
Proof.
  apply X5_plan_without_repetition.
  vm_compute. constructor; [intros [] | constructor].
Defined.

(** ** Planning twice *)

Lemma str_in_map_PStr (u : str) (l : list str) :
  str_in u (List.map PStr l) = contains u l.
Proof.
  unfold str_in, contains. induction l as [| x l IH]; simpl; [reflexivity |].
  now rewrite IH.
Qed.

Section PlanTwice.

Variable exists_ : str -> bool.
Variable output_dir : str.
Variable st : Fetch.FetchState.
Variable retries : list str.

Lemma plan_loop_state (rest : list str) :
  forall (seen : list str) (v : Fetch.plan_vars),
    List.NoDup (seen ++ rest) ->
    (forall k, In k rest -> contains k (Fetch.to_fetch v) = contains k retries) ->
    Fetch.completed_urls (Fetch.state v)
    = Fetch.completed_urls st
      ++ List.map PStr (List.filter (is_synced exists_ output_dir st retries) seen) ->
    Fetch.completed_urls
      (Fetch.state (fold_left (Fetch.plan_step exists_ output_dir) rest v))
    = Fetch.completed_urls st
      ++ List.map PStr
           (List.filter (is_synced exists_ output_dir st retries) (seen ++ rest)).
Proof.
  induction rest as [| u rest IH]; intros seen v Hnd Hin Hdone; simpl.
  - now rewrite app_nil_r.
  - assert (Hu : ~ In u seen /\ ~ In u rest).
    { apply NoDup_remove_2 in Hnd. rewrite in_app_iff in Hnd. tauto. }
    destruct Hu as [Hseen Hrest].
    assert (Hnd' : List.NoDup ((seen ++ [u]) ++ rest))
      by now rewrite <- app_assoc.
    replace (seen ++ u :: rest) with ((seen ++ [u]) ++ rest)
      by now rewrite <- app_assoc.
    assert (Hskip : Fetch.should_skip (Fetch.state v) u = Fetch.should_skip st u).
    { unfold Fetch.should_skip. rewrite Hdone, str_in_app, str_in_map_PStr.
      assert (E : contains u (List.filter (is_synced exists_ output_dir st retries)
                                seen) = false).
      { apply contains_not_In. intros H. apply List.filter_In in H. tauto. }
      now rewrite E, orb_false_r. }
    assert (Hsync : is_synced exists_ output_dir st retries u
                    = negb (contains u retries)
                      && negb (Fetch.should_skip st u)
                      && exists_ (Fetch._url_to_output_path u output_dir))
      by reflexivity.
    pose proof (Hin u (or_introl eq_refl)) as Hcu.
    destruct (contains u retries) eqn:E1.
    { rewrite plan_step_planned by exact Hcu.
      apply IH; [exact Hnd' | intros k Hk; apply Hin; now right |].
      rewrite List.filter_app. simpl. rewrite Hsync. simpl.
      now rewrite app_nil_r. }
    destruct (Fetch.should_skip st u) eqn:E2.
    { rewrite plan_step_completed by congruence.
      apply IH; [exact Hnd' | intros k Hk; apply Hin; now right |].
      rewrite List.filter_app. simpl. rewrite Hsync. simpl.
      now rewrite app_nil_r. }
    destruct (exists_ (Fetch._url_to_output_path u output_dir)) eqn:E3.
    { rewrite plan_step_synced by congruence.
      apply IH; [exact Hnd' | intros k Hk; simpl; apply Hin; now right |].
      simpl. unfold Fetch.should_skip in Hskip. rewrite Hskip. simpl.
      rewrite List.filter_app. simpl. rewrite Hsync. simpl.
      rewrite map_app, Hdone, <- app_assoc. reflexivity. }
    rewrite plan_step_pending by congruence.
    apply IH; [exact Hnd' | |].
    + intros k Hk. simpl. rewrite contains_app. simpl.
      rewrite (Hin k (or_intror Hk)).
      assert (E : str_eqb k u = false)
        by (apply str_eqb_false; intros ->; contradiction).
      now rewrite E, !orb_false_r.
    + simpl. rewrite List.filter_app. simpl. rewrite Hsync. simpl.
      now rewrite app_nil_r.
Qed.

Lemma plan_fold_nothing_to_sync (rest : list str) :
  forall v : Fetch.plan_vars,
    (forall u, In u rest ->
       contains u (Fetch.to_fetch v) = true
       \/ Fetch.should_skip (Fetch.state v) u = true
       \/ exists_ (Fetch._url_to_output_path u output_dir) = false) ->
    Fetch.state (fold_left (Fetch.plan_step exists_ output_dir) rest v)
    = Fetch.state v
    /\ Fetch.synced (fold_left (Fetch.plan_step exists_ output_dir) rest v)
       = Fetch.synced v.
Proof.
  induction rest as [| u rest IH]; intros v H; simpl; [auto |].
  assert (Hrest : forall k, In k rest ->
            contains k (Fetch.to_fetch v) = true
            \/ Fetch.should_skip (Fetch.state v) k = true
            \/ exists_ (Fetch._url_to_output_path k output_dir) = false)
    by (intros k Hk; apply H; now right).
  destruct (contains u (Fetch.to_fetch v)) eqn:E1;
    [rewrite plan_step_planned by exact E1; now apply IH |].
  destruct (Fetch.should_skip (Fetch.state v) u) eqn:E2;
    [rewrite plan_step_completed by assumption; now apply IH |].
  destruct (H u (or_introl eq_refl)) as [H1 | [H2 | H3]]; try congruence.
  rewrite plan_step_pending by assumption.
  destruct (IH {| Fetch.to_fetch := Fetch.to_fetch v ++ [u];
                  Fetch.state := Fetch.state v;
                  Fetch.synced := Fetch.synced v |}) as [Hs Hn]; [| auto].
  intros k Hk. simpl. rewrite contains_app.
  destruct (Hrest k Hk) as [-> | [-> | ->]]; auto.
Qed.

End PlanTwice.

(** X6: planning is idempotent.  For a universe without repetition,
    planning again from the state the planner left, on the same disk,
    gives the same work list, changes nothing in the state and
    synchronises nothing. *)
Theorem X6_plan_twice (exists_ : str -> bool) (output_dir : str)
    (all_urls : list str) (st : Fetch.FetchState) :
  List.NoDup all_urls ->
  Fetch.plan exists_ output_dir all_urls
    (Fetch.state (Fetch.plan exists_ output_dir all_urls st))
  = {| Fetch.to_fetch := Fetch.to_fetch (Fetch.plan exists_ output_dir all_urls st);
       Fetch.state := Fetch.state (Fetch.plan exists_ output_dir all_urls st);
       Fetch.synced := 0 |}.
Proof.
  intros Hnd.
  set (v := Fetch.plan exists_ output_dir all_urls st).
  set (retries := retries_in_map_order all_urls st).
  assert (Hfailed : Fetch.failed_urls (Fetch.state v) = Fetch.failed_urls st)
    by apply plan_failed_unchanged.
  assert (Hretries : retries_in_map_order all_urls (Fetch.state v) = retries)
    by (unfold retries_in_map_order, retries; now rewrite Hfailed).
  assert (Hdone : Fetch.completed_urls (Fetch.state v)
                  = Fetch.completed_urls st
                    ++ List.map PStr
                         (List.filter (is_synced exists_ output_dir st retries)
                            all_urls)).
  { unfold v, Fetch.plan.
    apply (plan_loop_state exists_ output_dir st retries all_urls []); simpl.
    - exact Hnd.
    - intros k _. now rewrite plan_retries_filter.
    - now rewrite app_nil_r. }
  assert (Hskip : forall u, In u all_urls ->
            Fetch.should_skip (Fetch.state v) u
            = Fetch.should_skip st u
              || is_synced exists_ output_dir st retries u).
  { intros u Hu. unfold Fetch.should_skip.
    rewrite Hdone, str_in_app, str_in_map_PStr. f_equal.
    destruct (is_synced exists_ output_dir st retries u) eqn:E.
    - apply contains_In, List.filter_In. auto.
    - apply contains_not_In. intros H. apply List.filter_In in H.
      destruct H. congruence. }
  assert (Hlist : Fetch.to_fetch
                    (Fetch.plan exists_ output_dir all_urls (Fetch.state v))
                  = Fetch.to_fetch v).
  { unfold v at 2. unfold Fetch.plan.
    rewrite (plan_loop exists_ output_dir (Fetch.state v) retries all_urls []
               {| Fetch.to_fetch := Fetch.plan_retries all_urls (Fetch.state v);
                  Fetch.state := Fetch.state v; Fetch.synced := 0 |});
      simpl; [| exact Hnd | now rewrite plan_retries_filter, Hretries, app_nil_r
              | reflexivity].
    rewrite (plan_loop exists_ output_dir st retries all_urls []
               {| Fetch.to_fetch := Fetch.plan_retries all_urls st;
                  Fetch.state := st; Fetch.synced := 0 |});
      simpl; [| exact Hnd | now rewrite plan_retries_filter, app_nil_r
              | reflexivity].
    f_equal. apply List.filter_ext_in. intros u Hu.
    unfold is_pending. rewrite (Hskip u Hu). unfold is_synced.
    destruct (contains u retries), (Fetch.should_skip st u),
      (exists_ (Fetch._url_to_output_path u output_dir)); reflexivity. }
  destruct (plan_fold_nothing_to_sync exists_ output_dir all_urls
              {| Fetch.to_fetch := Fetch.plan_retries all_urls (Fetch.state v);
                 Fetch.state := Fetch.state v; Fetch.synced := 0 |})
    as [Hstate Hsynced].
  { intros u Hu. simpl. rewrite plan_retries_filter, Hretries, (Hskip u Hu).
    unfold is_synced.
    destruct (contains u retries), (Fetch.should_skip st u),
      (exists_ (Fetch._url_to_output_path u output_dir)); simpl; auto. }
  simpl in Hstate, Hsynced.
  destruct (Fetch.plan exists_ output_dir all_urls (Fetch.state v))
    as [tf s n] eqn:E.
  unfold Fetch.plan in E. rewrite E in Hstate, Hsynced.
  simpl in *. congruence.
Qed.

Lemma X6_witness :
  Fetch.plan (file_exists (files world_sync)) (lit "/docs")
    [lit "a.html"; lit "library/b.html"; lit "library/c.html"]
    (Fetch.state
       (Fetch.plan (file_exists (files world_sync)) (lit "/docs")
          [lit "a.html"; lit "library/b.html"; lit "library/c.html"]
          (mem world_sync)))
  = {| Fetch.to_fetch := [lit "library/c.html"];
       Fetch.state :=
         Fetch.mark_completed (mem world_sync) (lit "library/b.html");
       Fetch.synced := 0 |}.
Proof.
  rewrite X6_plan_twice.
  - vm_compute. reflexivity.
  - repeat (apply List.NoDup_cons; [vm_compute; intuition discriminate |]).
    apply List.NoDup_nil.
Defined.

(** ** Where a page goes *)

Lemma split_not_nil (sep : N) (s : str) : split sep s <> [].
Proof.
  destruct s as [| c s]; simpl; [discriminate |].
  destruct (N.eqb c sep); [discriminate |].
  destruct (split sep s); discriminate.
Qed.

Lemma split_no_sep (sep : N) (s : str) :
  forall p, In p (split sep s) -> ~ In sep p.
Proof.
  induction s as [| c s IH]; simpl; intros p Hp.
  - destruct Hp as [<- | []]. intros [].
  - destruct (N.eqb c sep) eqn:E.
    + destruct Hp as [<- | Hp]; [intros [] | now apply IH].
    + apply N.eqb_neq in E.
      destruct (split sep s) as [| h t] eqn:Es.
      * destruct Hp as [<- | []]. intros [H | []]. congruence.
      * destruct Hp as [<- | Hp].
        -- intros [H | H]; [congruence |]. now apply (IH h); [left |].
        -- apply IH. now right.
Qed.

Lemma join_without (c : N) (sep : str) (l : list str) :
  ~ In c sep -> (forall p, In p l -> ~ In c p) -> ~ In c (join sep l).
Proof.
  intros Hsep. induction l as [| x l IH]; intros Hl; [intros [] |].
  cbn [join]. destruct l as [| y l].
  - apply Hl. now left.
  - rewrite !in_app_iff. intros [H | [H | H]].
    + now apply (Hl x); [left |].
    + contradiction.
    + apply IH; [| exact H]. intros p Hp. apply Hl. now right.
Qed.

Lemma dict_get_default_In {V : Type} (k : str) (default : V) (d : dict V) :
  In (dict_get_default k default d) (default :: List.map snd d).
Proof.
  unfold dict_get_default.
  induction d as [| [k0 v0] d IH]; simpl; [now left |].
  destruct (str_eqb k k0); [right; now left |].
  destruct IH as [H | H]; [now left | right; now right].
Qed.

Lemma startswith_app (p s : str) : startswith p (p ++ s) = true.
Proof.
  induction p as [| c p IH]; simpl; [reflexivity |].
  now rewrite N.eqb_refl.
Qed.

Lemma output_path_parts (url_path output_dir : str) :
  exists dir name,
    Fetch._url_to_output_path url_path output_dir
    = Fetch.path_join (Fetch.path_join output_dir dir) (name ++ lit ".md")
    /\ In dir (lit "99_OTHER" :: List.map snd Fetch.SECTION_TO_DIR)
    /\ ~ In 47%N name
    /\ startswith (output_dir ++ lit "/")
         (Fetch._url_to_output_path url_path output_dir) = true.
Proof.
  unfold Fetch._url_to_output_path.
  set (parts := split 47%N (replace (lit ".html") [] url_path)).
  assert (Hparts : forall p, In p parts -> ~ In 47%N p) by apply split_no_sep.
  assert (Hne : parts <> []) by apply split_not_nil.
  destruct parts as [| p0 rest]; [contradiction |].
  assert (Hunder : forall dir name,
            startswith (output_dir ++ lit "/")
              (Fetch.path_join (Fetch.path_join output_dir dir) name) = true).
  { intros dir name. unfold Fetch.path_join.
    rewrite <- !app_assoc, (app_assoc output_dir). apply startswith_app. }
  destruct rest as [| p1 rest].
  - exists (dict_get_default p0 (lit "99_OTHER") Fetch.SECTION_TO_DIR), p0.
    cbn [length Nat.ltb Nat.leb]. repeat split.
    + apply dict_get_default_In.
    + apply Hparts. now left.
    + apply Hunder.
  - exists (dict_get_default p0 (lit "99_OTHER") Fetch.SECTION_TO_DIR),
      (join (lit "_") (p1 :: rest)).
    cbn [length Nat.ltb Nat.leb tl]. repeat split.
    + apply dict_get_default_In.
    + apply join_without.
      * vm_compute. intuition discriminate.
      * intros p Hp. apply Hparts. now right.
    + apply Hunder.
Qed.

(** X7: whatever the key, the page goes two levels under the output
    directory: into one of the directories of [SECTION_TO_DIR] or into
    [99_OTHER], under a file name that ends in [.md] and holds no [/]. *)
Theorem X7_output_path_shape (url_path output_dir : str) :
  exists dir name,
    Fetch._url_to_output_path url_path output_dir
    = Fetch.path_join (Fetch.path_join output_dir dir) (name ++ lit ".md")
    /\ In dir (lit "99_OTHER" :: List.map snd Fetch.SECTION_TO_DIR)
    /\ ~ In 47%N name
    /\ startswith (output_dir ++ lit "/")
         (Fetch._url_to_output_path url_path output_dir) = true.
Proof. apply output_path_parts. Qed.

(** ** The key of a file in the translation state *)

Lemma startswith_drop (p s : str) :
  startswith p s = true -> p ++ drop (length p) s = s.
Proof.
  revert s. induction p as [| c p IH]; intros s H; [reflexivity |].
  destruct s as [| d s]; [discriminate |].
  simpl in H. destruct (N.eqb c d) eqn:E; [| discriminate].
  apply N.eqb_eq in E. subst d. simpl. now rewrite IH.
Qed.

Lemma insert_path_In (p q : str) (l : list str) :
  In p (Translate.insert_path q l) -> p = q \/ In p l.
Proof.
  induction l as [| x l IH]; simpl.
  - intros [<- | []]. now left.
  - destruct (path_ltb q x); simpl.
    + intros [<- | H]; [now left | now right].
    + intros [<- | H]; [right; now left |].
      destruct (IH H) as [-> | H']; [now left | right; now right].
Qed.

Lemma rglob_md_sorted_under (fs : gmap str file) (root p : str) :
  In p (Translate.rglob_md_sorted fs root) ->
  startswith (root ++ lit "/") p = true.
Proof.
  unfold Translate.rglob_md_sorted.
  set (l := List.filter _ _).
  assert (Hl : forall x, In x l -> startswith (root ++ lit "/") x = true).
  { intros x Hx. apply List.filter_In in Hx. destruct Hx as [_ Hx].
    now apply andb_true_iff in Hx. }
  clearbody l. induction l as [| x l IH]; simpl; [intros [] |].
  intros H. apply insert_path_In in H. destruct H as [-> | H].
  - apply Hl. now left.
  - apply IH; [| exact H]. intros y Hy. apply Hl. now right.
Qed.

(** X8: the key of a file under the documentation directory is its path
    from there, so the directory joined with the key gives the file back;
    the files [main] lists get keys that differ when the files do; a path
    outside the directory is its own key. *)
Theorem X8_path_to_key_under_root (root : str) :
  (forall p, startswith (root ++ lit "/") p = true ->
     root ++ lit "/" ++ Translate._path_to_key root p = p)
  /\ (forall fs p q,
        In p (Translate.rglob_md_sorted fs root) ->
        In q (Translate.rglob_md_sorted fs root) ->
        Translate._path_to_key root p = Translate._path_to_key root q ->
        p = q)
  /\ (forall p, startswith (root ++ lit "/") p = false -> p <> root ->
        Translate._path_to_key root p = p).
Proof.
  assert (Hkey : forall p, startswith (root ++ lit "/") p = true ->
            root ++ lit "/" ++ Translate._path_to_key root p = p).
  { intros p Hp.
    unfold Translate._path_to_key, Translate.relative_to,
      Translate.PYTHON_DOCS_DIR.
    rewrite Hp, app_assoc.
    replace (length root + 1)%nat with (length (root ++ lit "/"))
      by (rewrite length_app; reflexivity).
    now apply startswith_drop. }
  split; [exact Hkey | split].
  - intros fs p q Hp Hq Heq.
    apply rglob_md_sorted_under in Hp, Hq.
    rewrite <- (Hkey p Hp), <- (Hkey q Hq). now rewrite Heq.
  - intros p Hp Hne.
    unfold Translate._path_to_key, Translate.relative_to,
      Translate.PYTHON_DOCS_DIR.
    rewrite Hp. apply str_eqb_false in Hne. now rewrite Hne.
Qed.

Lemma X8_witness :
  lit "/docs" ++ lit "/"
  ++ Translate._path_to_key (lit "/docs") (lit "/docs/02_LIBRARY/os.md")
  = lit "/docs/02_LIBRARY/os.md".
Proof.
  apply (proj1 (X8_path_to_key_under_root (lit "/docs"))).
  vm_compute. reflexivity.
Defined.

(** ** Which files count as translated *)

Lemma sub_blank_chars (s : str) :
  forall (k i : nat) (c : N),
    In c (sub_pieces (fun _ _ => lit " ") i (scan_fenced_go k s)) ->
    In c s \/ c = 32%N.
Proof.
  induction s as [| c0 s IH]; intros k i c H; [destruct H |].
  destruct k as [| k].
  - cbn [scan_fenced_go] in H.
    destruct (startswith FENCE (c0 :: s));
      [destruct (find FENCE (drop 3 (c0 :: s))) |];
      cbn [sub_pieces] in H.
    + apply in_app_iff in H. destruct H as [H | H].
      * right. change (lit " ") with [32%N] in H.
        destruct H as [<- | []]. reflexivity.
      * destruct (IH _ _ _ H) as [H' | H']; [left; now right | now right].
    + destruct H as [<- | H]; [left; now left |].
      destruct (IH _ _ _ H) as [H' | H']; [left; now right | now right].
    + destruct H as [<- | H]; [left; now left |].
      destruct (IH _ _ _ H) as [H' | H']; [left; now right | now right].
  - cbn [scan_fenced_go] in H.
    destruct (IH _ _ _ H) as [H' | H']; [left; now right | now right].
Qed.

Lemma sub_inline_code_chars (s : str) :
  forall (k : nat) (c : N),
    In c (sub_inline_code_go k s) -> In c s \/ c = 32%N.
Proof.
  induction s as [| c0 s IH]; intros k c H; [destruct H |].
  destruct k as [| k]; cbn [sub_inline_code_go] in H.
  - destruct (c0 =? 96)%N; [destruct (index_of 96%N s) as [[| j] |] |];
      (destruct H as [<- | H];
       [first [left; now left | now right]
       | destruct (IH _ _ H) as [H' | H']; [left; now right | now right]]).
  - destruct (IH _ _ H) as [H' | H']; [left; now right | now right].
Qed.

(** X9: a file is taken for translated only if it holds a Cyrillic
    letter: a text none of whose alphabetic characters is Cyrillic (an
    empty one, or one in English) is never skipped as translated. *)
Theorem X9_untranslated_not_skipped (isalpha : N -> bool) (content : str) :
  (forall c, In c content -> isalpha c = true ->
             Translate.is_cyrillic c = false) ->
  Translate._is_likely_translated isalpha content = false.
Proof.
  intros H. unfold Translate._is_likely_translated, Translate._cyrillic_ratio.
  set (no_code := sub_inline_code _).
  assert (Hnone : List.filter Translate.is_cyrillic (List.filter isalpha no_code)
                  = []).
  { apply filter_none. intros c Hc. apply List.filter_In in Hc.
    destruct Hc as [Hc Halpha].
    apply sub_inline_code_chars in Hc. destruct Hc as [Hc | ->]; [| reflexivity].
    apply sub_blank_chars in Hc. destruct Hc as [Hc | ->]; [| reflexivity].
    now apply H. }
  rewrite Hnone.
  destruct (List.filter isalpha no_code); reflexivity.
Qed.

Lemma X9_witness :
  Translate._is_likely_translated sample_isalpha (lit "import os") = false.
Proof.
  apply X9_untranslated_not_skipped.
  intros c Hc _. vm_compute in Hc.
  repeat (destruct Hc as [<- | Hc]; [reflexivity |]). contradiction.
Defined.

(** ** The attempts of a translation *)

Section RetryCases.

Variable translator : nat -> str -> outcome pyval.

Lemma attempt_once_returns {St : Type} (text : str) (attempt : nat) (v : pyval)
    (w : world St) :
  translator (calls w) text = Return v ->
  Translate.attempt_once translator text attempt w
  = (Return (inl (match v with PStr s => s | _ => text end)),
     mkWorld (mem w) (files w) (trail w) (faults w) (S (calls w))
       (log w ++ [EvTranslate text])).
Proof.
  intros Ht.
  unfold Translate.attempt_once, try_except, bind, Translate.submit_and_wait, ret.
  rewrite Ht. reflexivity.
Qed.

Lemma attempt_once_interrupted {St : Type} (text : str) (attempt : nat) (e : exn)
    (w : world St) :
  translator (calls w) text = Raise e ->
  is_Exception (exn_type e) = false ->
  Translate.attempt_once translator text attempt w
  = (Raise e,
     mkWorld (mem w) (files w) (trail w) (faults w) (S (calls w))
       (log w ++ [EvTranslate text])).
Proof.
  intros Ht He.
  unfold Translate.attempt_once, try_except, bind, Translate.submit_and_wait, ret.
  rewrite Ht.
  destruct (exn_type e) eqn:Et; cbn in He; try discriminate He; reflexivity.
Qed.

Lemma retry_loop_cases {St : Type} (text : str) (attempts : list nat) :
  forall (last_err : option exn) (w : world St),
    exists r w',
      Translate.retry_loop translator attempts last_err text w = (r, w')
      /\ mem w' = mem w /\ files w' = files w
      /\ (calls w <= calls w' <= calls w + length attempts)%nat
      /\ (attempts <> [] -> (calls w < calls w')%nat)
      /\ (forall n, (calls w <= n)%nat -> (S n < calls w')%nat ->
            exists e, translator n text = Raise e
                      /\ is_Exception (exn_type e) = true)
      /\ match r with
         | Return s =>
             (s = text
              \/ ((calls w < calls w')%nat
                  /\ translator (calls w' - 1) text = Return (PStr s)))
             /\ (calls w' = (calls w + length attempts)%nat
                 \/ exists v, translator (calls w' - 1) text = Return v)
         | Raise e =>
             (calls w < calls w')%nat
             /\ is_Exception (exn_type e) = false
             /\ translator (calls w' - 1) text = Raise e
         end.
Proof.
  induction attempts as [| attempt rest IH]; intros last_err w.
  - eexists _, _. split; [reflexivity |]. cbn [mem files calls length].
    repeat split; try lia; auto; try (intros n H1 H2; lia).
    intros H. contradiction.
  - cbn [Translate.retry_loop]. unfold bind at 1.
    destruct (translator (calls w) text) as [v | e] eqn:Ht.
    + rewrite (attempt_once_returns text attempt v w Ht).
      eexists _, _. split; [reflexivity |]. cbn [mem files calls length].
      replace (S (calls w) - 1)%nat with (calls w) by lia.
      repeat split; try lia; try (intros n H1 H2; lia).
      * destruct v; try (now left). right. split; [lia | exact Ht].
      * right. now exists v.
    + destruct (is_Exception (exn_type e)) eqn:He.
      * rewrite (attempt_once_raises translator text attempt e w Ht He).
        set (w1 := mkWorld (mem w) (files w) (trail w) (faults w) (S (calls w))
                     (log w ++ attempt_log text attempt)).
        destruct (IH (Some (kept_error e)) w1)
          as (r & w' & Hrun & Hmem & Hfiles & Hcalls & _ & Hearlier & Hres).
        exists r, w'. split; [exact Hrun |].
        subst w1. cbn [mem files calls] in *. cbn [length].
        split; [exact Hmem | split; [exact Hfiles | split; [lia | split; [lia |
          split]]]].
        -- intros n H1 H2.
           destruct (Nat.eq_dec n (calls w)) as [-> | Hn];
             [now exists e | apply Hearlier; lia].
        -- destruct r as [s | e'].
           ++ destruct Hres as [Hs Hlast]. split.
              ** destruct Hs as [Hs | [Hlt Hs]]; [now left |].
                 right. split; [lia | exact Hs].
              ** destruct Hlast as [Hlast | Hlast]; [left; lia | now right].
           ++ destruct Hres as (Hlt & Hres). split; [lia | exact Hres].
      * rewrite (attempt_once_interrupted text attempt e w Ht He).
        eexists _, _. split; [reflexivity |]. cbn [mem files calls length].
        replace (S (calls w) - 1)%nat with (calls w) by lia.
        repeat split; try lia; auto; try (intros n H1 H2; lia).
Qed.

End RetryCases.

(** X10: [_translate_with_retry] calls the translator at least once and
    at most three times, a further call only after an earlier one raised an
    exception of class [Exception]; it leaves the disk and the completed
    set alone.  When it returns, the value is the text it was given or the
    string the last call returned; it raises only what the last call
    raised, and only outside [Exception] (Ctrl+C), without another
    attempt. *)
Theorem X10_translate_with_retry_cases
    (translator : nat -> str -> outcome pyval) {St : Type} (text : str)
    (w : world St) :
  exists r w',
    Translate._translate_with_retry translator text w = (r, w')
    /\ mem w' = mem w /\ files w' = files w
    /\ (calls w < calls w' <= calls w + 3)%nat
    /\ (forall n, (calls w <= n)%nat -> (S n < calls w')%nat ->
          exists e, translator n text = Raise e
                    /\ is_Exception (exn_type e) = true)
    /\ match r with
       | Return s =>
           (s = text \/ translator (calls w' - 1)%nat text = Return (PStr s))
           /\ (calls w' = (calls w + 3)%nat
               \/ exists v, translator (calls w' - 1)%nat text = Return v)
       | Raise e =>
           is_Exception (exn_type e) = false
           /\ translator (calls w' - 1)%nat text = Raise e
       end.
Proof.
  unfold Translate._translate_with_retry.
  destruct (retry_loop_cases translator text
              (seq 0 Translate.TRANSLATE_RETRIES) None w)
    as (r & w' & Hrun & Hmem & Hfiles & Hcalls & Hlt & Hearlier & Hres).
  exists r, w'. split; [exact Hrun |].
  change (length (seq 0 Translate.TRANSLATE_RETRIES)) with 3%nat in *.
  split; [exact Hmem | split; [exact Hfiles |]].
  assert (Hlt' : (calls w < calls w')%nat) by (apply Hlt; discriminate).
  split; [lia | split; [exact Hearlier |]].
  destruct r as [s | e].
  - destruct Hres as [Hs Hlast]. split; [| exact Hlast].
    destruct Hs as [Hs | [_ Hs]]; [now left | now right].
  - tauto.
Qed.

(** ** One item of the fetch loop *)

Lemma output_path_not_state (url_path root tail1 tail2 : str) :
  Fetch._url_to_output_path url_path root ++ tail1
  <> Fetch.path_join root Fetch.STATE_FILENAME ++ tail2.
Proof.
  destruct (output_path_parts url_path root) as (dir & name & -> & Hdir & _).
  unfold Fetch.path_join. rewrite <- !app_assoc.
  intros H. apply app_inv_head in H.
  change (lit "/") with [47%N] in H. cbn [app] in H. injection H as H.
  cbn [Fetch.SECTION_TO_DIR List.map snd] in Hdir.
  repeat (destruct Hdir as [<- | Hdir]; [vm_compute in H; discriminate H |]).
  contradiction.
Qed.

Section FetchItem.

Variable json_dumps : pyval -> str.
Variable urlopen : str -> outcome str.
Variable html_to_markdown : str -> outcome str.
Variable PROJECT_ROOT : str.

Lemma fetch_and_save_one_down {St : Type} (url_path output_path : str) (e : exn)
    (w : world St) :
  Fetch.fetch_page urlopen url_path = Raise e ->
  faults w = [] ->
  Fetch.fetch_and_save_one urlopen html_to_markdown url_path output_path w
  = (Raise e,
     mkWorld (mem w) (files w) (trail w) [] (calls w)
       (log w ++ [EvStep url_path])).
Proof.
  intros Hfetch Hf. destruct w as [m fs tr fl ca lg]. cbn in Hf. subst fl.
  unfold Fetch.fetch_and_save_one, bind, emit, mkdir_parent, next_fault, lift, ret.
  cbn. now rewrite Hfetch.
Qed.

Lemma fetch_and_save_one_ok {St : Type} (url_path output_path html md : str)
    (w : world St) :
  Fetch.fetch_page urlopen url_path = Return html ->
  html_to_markdown html = Return md ->
  faults w = [] ->
  Fetch.fetch_and_save_one urlopen html_to_markdown url_path output_path w
  = (Return tt,
     after_write
       (mkWorld (mem w) (files w) (trail w) [] (calls w)
          (log w ++ [EvStep url_path]))
       output_path (page_text url_path output_path md)).
Proof.
  intros Hfetch Hmd Hf. destruct w as [m fs tr fl ca lg]. cbn in Hf. subst fl.
  unfold Fetch.fetch_and_save_one. unfold bind at 1, emit at 1.
  unfold bind at 1, mkdir_parent, bind at 1, next_fault. cbn [faults].
  cbv beta iota. unfold ret at 1. unfold bind at 1, lift at 1.
  rewrite Hfetch. unfold bind at 1, lift at 1. rewrite Hmd.
  apply (write_block_ok output_path (page_text url_path output_path md)).
  reflexivity.
Qed.

Lemma main_item_failed (url_path : str) (e : exn) (w w1 : world Fetch.FetchState) :
  Fetch.fetch_and_save_one urlopen html_to_markdown url_path 
    (Fetch._url_to_output_path url_path (Fetch.OUTPUT_DIR PROJECT_ROOT)) w
  = (Raise e, w1) ->
  is_OSError (exn_type e) = true ->
  faults w1 = [] ->
  Fetch.main_item json_dumps urlopen html_to_markdown PROJECT_ROOT url_path w
  = (Return tt,
     after_write
       (mkWorld (Fetch.mark_failed (mem w) url_path (Fetch.err_msg_of e) (exn_tb e))
          (files w1) (trail w1) (faults w1) (calls w1) (log w1))
       (Fetch.state_path PROJECT_ROOT)
       (json_dumps
          (Fetch.asdict
             (Fetch.mark_failed (mem w) url_path (Fetch.err_msg_of e) (exn_tb e))))).
Proof.
  intros Hstep Hos Hfl.
  destruct (fetch_and_save_one_log _ _ _ _ _ _ _ Hstep) as [Hmem Hlog].
  set (failed := Fetch.mark_failed (mem w) url_path (Fetch.err_msg_of e) (exn_tb e)).
  set (w2 := mkWorld failed (files w1) (trail w1) (faults w1) (calls w1) (log w1)).
  unfold Fetch.main_item, try_except. unfold bind at 1.
  rewrite Hstep.
  assert (Hsave : Fetch.save_state json_dumps failed (Fetch.state_path PROJECT_ROOT) w2
                  = (Return tt,
                     after_write w2 (Fetch.state_path PROJECT_ROOT) (json_dumps (Fetch.asdict failed))))
    by (apply fetch_save_state_ok; exact Hfl).
  subst w2 failed.
  destruct (exn_type e) eqn:Et; cbn in Hos; try discriminate;
    unfold bind, get_mem, set_mem;
    cbn [is_OSError is_Exception]; cbv beta iota;
    cbn [mem files trail faults calls log];
    rewrite Hmem, Hsave; reflexivity.
Qed.


Lemma main_item_saved (url_path : str) (w w1 : world Fetch.FetchState) :
  Fetch.fetch_and_save_one urlopen html_to_markdown url_path 
    (Fetch._url_to_output_path url_path (Fetch.OUTPUT_DIR PROJECT_ROOT)) w
  = (Return tt, w1) ->
  faults w1 = [] ->
  Fetch.main_item json_dumps urlopen html_to_markdown PROJECT_ROOT url_path w
  = (Return tt,
     after_write
       (mkWorld (Fetch.mark_completed (mem w) url_path)
          (files w1) (trail w1) (faults w1) (calls w1) (log w1))
       (Fetch.state_path PROJECT_ROOT)
       (json_dumps (Fetch.asdict (Fetch.mark_completed (mem w) url_path)))).
Proof.
  intros Hstep Hfl.
  destruct (fetch_and_save_one_log _ _ _ _ _ _ _ Hstep) as [Hmem Hlog].
  unfold Fetch.main_item, try_except. unfold bind at 1.
  rewrite Hstep.
  unfold bind, get_mem, set_mem. cbn [mem files trail faults calls log].
  rewrite Hmem.
  rewrite (fetch_save_state_ok json_dumps
             (Fetch.mark_completed (mem w) url_path) (Fetch.state_path PROJECT_ROOT)
             (mkWorld (Fetch.mark_completed (mem w) url_path)
                (files w1) (trail w1) (faults w1) (calls w1) (log w1)) Hfl).
  reflexivity.
Qed.

End FetchItem.

Section FetchItems.

Variable json_dumps : pyval -> str.
Variable urlopen : str -> outcome str.
Variable html_to_markdown : str -> outcome str.
Variable PROJECT_ROOT : str.

(** X11: while the network is down the loop goes on.  When the download
    of every page of the work list fails with an OSError (HTTPError,
    URLError, a timeout) and the disk works, [main] takes up every item,
    in order, records each in the failed map, completes none, keeps the
    snapshot on the disk equal to the state in memory and ends
    normally. *)
Theorem X11_network_down_loop_goes_on (to_fetch : list str) :
  forall w : world Fetch.FetchState,
    (forall u, In u to_fetch ->
       exists e, Fetch.fetch_page urlopen u = Raise e
                 /\ is_OSError (exn_type e) = true) ->
    faults w = [] ->
    exists w',
      Fetch.main_processing json_dumps urlopen html_to_markdown PROJECT_ROOT
        to_fetch w = (Return tt, w')
      /\ log w' = log w ++ List.map EvStep to_fetch
      /\ Fetch.completed_urls (mem w') = Fetch.completed_urls (mem w)
      /\ (forall u, dict_has u (Fetch.failed_urls (mem w'))
                    = contains u to_fetch
                      || dict_has u (Fetch.failed_urls (mem w)))
      /\ faults w' = []
      /\ (to_fetch <> [] ->
          files w' !! Fetch.state_path PROJECT_ROOT
          = Some (Text (json_dumps (Fetch.asdict (mem w'))))).
Proof.
  induction to_fetch as [| url_path rest IH]; intros w Hdown Hfl.
  - exists w. cbn. rewrite app_nil_r. repeat split; auto. congruence.
  - destruct (Hdown url_path (or_introl eq_refl)) as (e & Hfetch & Hos).
    pose proof (fetch_and_save_one_down urlopen html_to_markdown url_path
                  (Fetch._url_to_output_path url_path
                     (Fetch.OUTPUT_DIR PROJECT_ROOT)) e w Hfetch Hfl) as Hstep.
    pose proof (main_item_failed json_dumps urlopen html_to_markdown
                  PROJECT_ROOT url_path e w _ Hstep Hos eq_refl) as Hitem.
    cbn [mem files trail faults calls log] in Hitem.
    match type of Hitem with
    | _ = (_, ?w0) => set (w1 := w0) in *
    end.
    destruct (IH w1) as (w' & Hrun & Hlog & Hdone & Hfailed & Hfl' & Hfile).
    { intros u Hu. apply Hdown. now right. }
    { reflexivity. }
    exists w'. cbn [Fetch.main_processing]. unfold bind at 1. rewrite Hitem.
    split; [exact Hrun |].
    split; [rewrite Hlog; subst w1; cbn; now rewrite <- app_assoc |].
    split; [rewrite Hdone; reflexivity |].
    split; [| split; [exact Hfl' |]].
    + intros u. rewrite Hfailed. subst w1. cbn [mem after_write].
      cbn [Fetch.mark_failed Fetch.failed_urls].
      rewrite dict_has_set. cbn [contains existsb].
      fold (contains u rest).
      destruct (str_eqb u url_path), (contains u rest),
        (dict_has u (Fetch.failed_urls (mem w))); reflexivity.
    + intros _. destruct rest as [| u rest'].
      * cbn in Hrun. inversion Hrun. subst w'. apply after_write_lookup.
      * apply Hfile. discriminate.
Qed.


(** X13: an item that succeeds.  When the page downloads and converts
    and the disk works, the page is on the disk under its header, the key
    is completed, the snapshot on the disk is the state in memory, and no
    temporary file is left. *)
Theorem X13_item_saved (url_path html md : str) (w : world Fetch.FetchState) :
  Fetch.fetch_page urlopen url_path = Return html ->
  html_to_markdown html = Return md ->
  faults w = [] ->
  let output_path :=
    Fetch._url_to_output_path url_path (Fetch.OUTPUT_DIR PROJECT_ROOT) in
  exists w',
    Fetch.main_item json_dumps urlopen html_to_markdown PROJECT_ROOT url_path w
    = (Return tt, w')
    /\ mem w' = Fetch.mark_completed (mem w) url_path
    /\ files w' !! output_path
       = Some (Text (page_text url_path output_path md))
    /\ files w' !! Fetch.state_path PROJECT_ROOT
       = Some (Text (json_dumps (Fetch.asdict (mem w'))))
    /\ files w' !! tmp_of output_path = None
    /\ files w' !! tmp_of (Fetch.state_path PROJECT_ROOT) = None.
Proof.
  intros Hfetch Hmd Hfl output_path.
  pose proof (fetch_and_save_one_ok urlopen html_to_markdown url_path
                output_path html md w Hfetch Hmd Hfl) as Hstep.
  pose proof (main_item_saved json_dumps urlopen html_to_markdown
                PROJECT_ROOT url_path w _ Hstep eq_refl) as Hitem.
  eexists. split; [exact Hitem |].
  assert (H1 : output_path <> Fetch.state_path PROJECT_ROOT).
  { intros H. apply (output_path_not_state url_path PROJECT_ROOT [] []).
    rewrite !app_nil_r. exact H. }
  assert (H2 : output_path <> tmp_of (Fetch.state_path PROJECT_ROOT)).
  { intros H. apply (output_path_not_state url_path PROJECT_ROOT [] (lit ".tmp")).
    rewrite app_nil_r. exact H. }
  assert (H3 : tmp_of output_path <> Fetch.state_path PROJECT_ROOT).
  { intros H. apply (output_path_not_state url_path PROJECT_ROOT (lit ".tmp") []).
    rewrite app_nil_r. exact H. }
  assert (H4 : tmp_of output_path <> tmp_of (Fetch.state_path PROJECT_ROOT)).
  { intros H.
    exact (output_path_not_state url_path PROJECT_ROOT (lit ".tmp") (lit ".tmp") H). }
  pose proof (tmp_of_neq output_path) as H5.
  pose proof (tmp_of_neq (Fetch.state_path PROJECT_ROOT)) as H6.
  unfold after_write. cbn [mem files].
  split; [reflexivity |].
  split; [| split; [| split]].
  - rewrite lookup_insert_ne, lookup_delete_ne, lookup_insert_ne by auto.
    apply lookup_insert_eq.
  - apply lookup_insert_eq.
  - rewrite lookup_insert_ne, lookup_delete_ne, lookup_insert_ne by auto.
    rewrite lookup_insert_ne by auto. apply lookup_delete_eq.
  - rewrite lookup_insert_ne by auto. apply lookup_delete_eq.
Qed.

End FetchItems.

Lemma X11_witness :
  exists w',
    Fetch.main_processing sample_json_dumps urlopen_down plain_html_to_markdown
      (lit "/docs") [lit "library/a.html"; lit "library/b.html"]
      (world_empty Fetch.empty_state)
    = (Return tt, w')
    /\ log w' = [EvStep (lit "library/a.html"); EvStep (lit "library/b.html")]
    /\ Fetch.completed_urls (mem w') = [].
Proof.
  destruct (X11_network_down_loop_goes_on sample_json_dumps urlopen_down
              plain_html_to_markdown (lit "/docs")
              [lit "library/a.html"; lit "library/b.html"]
              (world_empty Fetch.empty_state))
    as (w' & Hrun & Hlog & Hdone & _).
  - intros u _. exists url_error. split; reflexivity.
  - reflexivity.
  - exists w'. split; [exact Hrun | split; [exact Hlog | exact Hdone]].
Defined.


Lemma X13_witness :
  exists w',
    Fetch.main_item sample_json_dumps sample_urlopen plain_html_to_markdown
      (lit "/docs") (lit "library/a.html") (world_empty Fetch.empty_state)
    = (Return tt, w')
    /\ files w' !! lit "/docs/02_LIBRARY/a.md.tmp" = None.
Proof.
  destruct (X13_item_saved sample_json_dumps sample_urlopen plain_html_to_markdown
              (lit "/docs") (lit "library/a.html") (lit "<html></html>")
              (lit "<html></html>") (world_empty Fetch.empty_state))
    as (w' & Hrun & _ & _ & _ & Htmp & _); try reflexivity.
  exists w'. split; [exact Hrun | exact Htmp].
Defined.

(** ** Long texts are translated in parts *)

Lemma split_blank_lines_go_concat (s : str) :
  forall (k : nat) (cur : str),
    concat (split_blank_lines_go k cur s) = rev cur ++ drop k s.
Proof.
  induction s as [| c s IH]; intros k cur.
  - cbn. now rewrite drop_nil, !app_nil_r.
  - destruct k as [| k]; [| cbn [split_blank_lines_go]; now rewrite IH].
    cbn [split_blank_lines_go].
    remember (leading_newlines (c :: s)) as n eqn:En.
    destruct (2 <=? n)%nat eqn:E.
    + apply Nat.leb_le in E. destruct n as [| m]; [lia |].
      cbn [concat]. rewrite IH.
      replace (S m - 1)%nat with m by lia.
      cbn [rev app]. change (drop m s) with (drop (S m) (c :: s)).
      now rewrite take_drop.
    + rewrite IH. cbn [rev drop]. now rewrite <- app_assoc.
Qed.

Lemma split_blank_lines_concat (s : str) : concat (split_blank_lines s) = s.
Proof. unfold split_blank_lines. now rewrite split_blank_lines_go_concat. Qed.

Section Echo.

(** A translator that gives every text back as it is. *)
Variable translator : nat -> str -> outcome pyval.
Hypothesis echo : forall n t, translator n t = Return (PStr t).

Lemma translate_with_retry_echo {St : Type} (text : str) (w : world St) :
  Translate._translate_with_retry translator text w
  = (Return text,
     mkWorld (mem w) (files w) (trail w) (faults w) (S (calls w))
       (log w ++ [EvTranslate text])).
Proof.
  unfold Translate._translate_with_retry, Translate.TRANSLATE_RETRIES.
  cbn [seq Translate.retry_loop]. unfold bind.
  now rewrite (attempt_once_returns translator text 0 (PStr text) w (echo _ _)).
Qed.

Lemma chunk_loop_echo {St : Type} (parts : list str) :
  forall (result : list str) (buf : str) (w : world St),
    exists result' buf' w',
      Translate.chunk_loop translator parts result buf w
      = (Return (result', buf'), w')
      /\ concat result' ++ buf' = concat result ++ buf ++ concat parts
      /\ mem w' = mem w /\ files w' = files w.
Proof.
  induction parts as [| p rest IH]; intros result buf w.
  - eexists _, _, _. split; [reflexivity |]. cbn. now rewrite app_nil_r.
  - cbn [Translate.chunk_loop].
    destruct ((Translate.MAX_CHUNK_LEN <? length buf + length p)%nat
              && negb (is_empty buf)).
    + unfold bind at 1. rewrite translate_with_retry_echo.
      unfold bind at 1, Translate.sleep, emit.
      match goal with
      | |- context [Translate.chunk_loop _ _ ?r ?b ?w0] =>
          destruct (IH r b w0) as (result' & buf' & w' & Hrun & Hcat & Hmem & Hfiles)
      end.
      exists result', buf', w'. split; [exact Hrun |].
      cbn [mem files] in Hmem, Hfiles.
      split; [| split; [exact Hmem | exact Hfiles]].
      rewrite Hcat, concat_app. cbn [concat].
      now rewrite app_nil_r, <- !app_assoc.
    + destruct (IH result (buf ++ p) w)
        as (result' & buf' & w' & Hrun & Hcat & Hmem & Hfiles).
      exists result', buf', w'. split; [exact Hrun |].
      split; [| split; [exact Hmem | exact Hfiles]].
      rewrite Hcat. cbn [concat]. now rewrite <- !app_assoc.
Qed.

(** X14: cutting a long text into parts loses nothing and keeps the
    order.  With a translator that gives every text back as it is,
    [translate_chunk] returns the text it was given, stripped, however long
    it is; the disk and the completed set are left alone. *)
Theorem X14_chunks_lose_nothing {St : Type} (text : str) (w : world St) :
  exists w',
    Translate.translate_chunk translator text w = (Return (strip text), w')
    /\ mem w' = mem w /\ files w' = files w.
Proof.
  unfold Translate.translate_chunk.
  destruct (is_empty (strip text) || (length (strip text) <? 10)%nat);
    [now exists w |].
  destruct (Translate.MAX_CHUNK_LEN <? length (strip text))%nat.
  - unfold bind at 1.
    destruct (chunk_loop_echo (split_blank_lines (strip text)) [] [] w)
      as (result' & buf' & w' & Hrun & Hcat & Hmem & Hfiles).
    rewrite Hrun. cbn [concat app] in Hcat.
    rewrite split_blank_lines_concat in Hcat.
    destruct buf' as [| c buf'].
    + cbn [is_empty negb]. unfold bind, ret.
      exists w'. rewrite app_nil_r in Hcat. now rewrite Hcat.
    + cbn [is_empty negb]. unfold bind at 1. unfold bind at 1.
      rewrite translate_with_retry_echo.
      unfold bind, Translate.sleep, emit, ret.
      eexists. rewrite concat_app. cbn [concat]. rewrite app_nil_r, Hcat.
      split; [reflexivity |]. cbn [mem files]. now split.
  - rewrite translate_with_retry_echo. eexists. split; [reflexivity |].
    cbn [mem files]. now split.
Qed.

End Echo.

Lemma X14_witness :
  exists w',
    Translate.translate_chunk echo_translator
      (lit "  A paragraph to translate.  ") (world_empty tt)
    = (Return (lit "A paragraph to translate."), w').
Proof.
  destruct (X14_chunks_lose_nothing echo_translator (fun _ _ => eq_refl)
              (lit "  A paragraph to translate.  ") (world_empty tt))
    as (w' & Hrun & _).
  exists w'. exact Hrun.
Defined.

(** ** The length of a request *)

Lemma only_submits_refl {St : Type} (P : str -> Prop) (w : world St) :
  only_submits P w w.
Proof. exists []. split; [now rewrite app_nil_r | intros t []]. Qed.

Lemma only_submits_trans {St : Type} (P : str -> Prop) (w1 w2 w3 : world St) :
  only_submits P w1 w2 -> only_submits P w2 w3 -> only_submits P w1 w3.
Proof.
  intros (n1 & H1 & P1) (n2 & H2 & P2). exists (n1 ++ n2). split.
  - now rewrite H2, H1, app_assoc.
  - intros t Ht. apply in_app_iff in Ht. destruct Ht; auto.
Qed.

Lemma only_submits_weaken {St : Type} (P Q : str -> Prop) (w w' : world St) :
  (forall t, P t -> Q t) -> only_submits P w w' -> only_submits Q w w'.
Proof. intros HPQ (n & H & HP). exists n. split; auto. Qed.

Lemma only_submits_step {St : Type} (P : str -> Prop) (w : world St)
    (new : list event) (c : nat) :
  (forall t, In (EvTranslate t) new -> P t) ->
  only_submits P w
    (mkWorld (mem w) (files w) (trail w) (faults w) c (log w ++ new)).
Proof. intros H. exists new. split; [reflexivity | exact H]. Qed.

Section Requests.

Variable translator : nat -> str -> outcome pyval.

Lemma retry_loop_submits {St : Type} (text : str) (attempts : list nat) :
  forall (last_err : option exn) (w w' : world St) (r : outcome str),
    Translate.retry_loop translator attempts last_err text w = (r, w') ->
    only_submits (fun t => t = text) w w'.
Proof.
  induction attempts as [| attempt rest IH]; intros last_err w w' r Hrun.
  - cbn in Hrun. inversion Hrun. subst.
    apply only_submits_step. intros t [H | []]. discriminate H.
  - cbn [Translate.retry_loop] in Hrun. unfold bind at 1 in Hrun.
    destruct (translator (calls w) text) as [v | e] eqn:Ht.
    + rewrite (attempt_once_returns translator text attempt v w Ht) in Hrun.
      inversion Hrun. subst.
      apply only_submits_step. intros t [H | []]. now inversion H.
    + destruct (is_Exception (exn_type e)) eqn:He.
      * rewrite (attempt_once_raises translator text attempt e w Ht He) in Hrun.
        eapply only_submits_trans; [| exact (IH _ _ _ _ Hrun)].
        apply only_submits_step. unfold attempt_log.
        intros t [H | H]; [now inversion H |].
        destruct (attempt <? Translate.TRANSLATE_RETRIES - 1)%nat;
          [destruct H as [H | []]; discriminate H | destruct H].
      * rewrite (attempt_once_interrupted translator text attempt e w Ht He) in Hrun.
        inversion Hrun. subst.
        apply only_submits_step. intros t [H | []]. now inversion H.
Qed.

Lemma sleep_submits {St : Type} (P : str -> Prop) (ms : Z) (w : world St) :
  only_submits P w (snd (Translate.sleep ms w)).
Proof.
  unfold Translate.sleep, emit. cbn.
  apply only_submits_step. intros t [H | []]. discriminate H.
Qed.

Lemma chunk_loop_submits {St : Type} (all : list str) (parts : list str) :
  forall (result : list str) (buf : str) (w w' : world St)
         (r : outcome (list str * str)),
    fits_or_part all buf ->
    (forall p, In p parts -> In p all) ->
    Translate.chunk_loop translator parts result buf w = (r, w') ->
    only_submits (fits_or_part all) w w'
    /\ (forall res b, r = Return (res, b) -> fits_or_part all b).
Proof.
  induction parts as [| p rest IH]; intros result buf w w' r Hbuf Hparts Hrun.
  - cbn in Hrun. inversion Hrun. subst. split; [apply only_submits_refl |].
    intros res b H. inversion H. now subst.
  - cbn [Translate.chunk_loop] in Hrun.
    assert (Hrest : forall q, In q rest -> In q all)
      by (intros q Hq; apply Hparts; now right).
    destruct ((Translate.MAX_CHUNK_LEN <? length buf + length p)%nat
              && negb (is_empty buf)) eqn:E.
    + unfold bind at 1 in Hrun.
      destruct (Translate._translate_with_retry translator buf w)
        as [[t | e] w1] eqn:E1;
        pose proof (retry_loop_submits buf _ _ _ _ _ E1) as H1;
        apply (only_submits_weaken _ (fits_or_part all)) in H1;
        try (intros t0 ->; exact Hbuf).
      * unfold bind at 1 in Hrun.
        pose proof (sleep_submits (fits_or_part all) Translate.SLEEP_BETWEEN w1)
          as H2.
        unfold Translate.sleep, emit in Hrun, H2. cbn [snd] in H2.
        destruct (IH _ _ _ _ _ (or_intror (Hparts p (or_introl eq_refl)))
                    Hrest Hrun) as [H3 Hb].
        split; [| exact Hb].
        exact (only_submits_trans _ _ _ _ H1 (only_submits_trans _ _ _ _ H2 H3)).
      * inversion Hrun. subst. split; [exact H1 |]. intros res b H. discriminate H.
    + apply (IH result (buf ++ p) w w' r); [| exact Hrest | exact Hrun].
      apply andb_false_iff in E. destruct E as [E | E].
      * apply Nat.ltb_ge in E. left. rewrite length_app. exact E.
      * destruct buf; [| discriminate E]. right. apply Hparts. now left.
Qed.

(** X15: the length of a request.  Whatever the translator does,
    [translate_chunk] submits only texts of at most [MAX_CHUNK_LEN]
    characters, apart from a single part of the text (a paragraph between
    blank lines, or a run of blank lines) that is longer than that by
    itself. *)
Theorem X15_requests_fit {St : Type} (text : str) (w w' : world St)
    (r : outcome str) :
  Translate.translate_chunk translator text w = (r, w') ->
  only_submits (fits_or_part (split_blank_lines (strip text))) w w'.
Proof.
  unfold Translate.translate_chunk. intros Hrun.
  destruct (is_empty (strip text) || (length (strip text) <? 10)%nat).
  { inversion Hrun. apply only_submits_refl. }
  destruct (Translate.MAX_CHUNK_LEN <? length (strip text))%nat eqn:Elen.
  - unfold bind at 1 in Hrun.
    assert (H0 : fits_or_part (split_blank_lines (strip text)) [])
      by (left; apply Nat.le_0_l).
    destruct (Translate.chunk_loop translator (split_blank_lines (strip text))
                [] [] w) as [[[result buf] | e] w1] eqn:E1;
      destruct (chunk_loop_submits (split_blank_lines (strip text)) _ _ _ _ _ _
                  H0 (fun p H => H) E1) as [H1 Hb];
      [| inversion Hrun; now subst].
    specialize (Hb _ _ eq_refl).
    destruct buf as [| c buf]; cbn [is_empty negb] in Hrun.
    + unfold bind, ret in Hrun. inversion Hrun. now subst.
    + unfold bind at 1 in Hrun. unfold bind at 1 in Hrun.
      destruct (Translate._translate_with_retry translator (c :: buf) w1)
        as [[t | e] w2] eqn:E2;
        pose proof (retry_loop_submits (c :: buf) _ _ _ _ _ E2) as H2;
        apply (only_submits_weaken _
                 (fits_or_part (split_blank_lines (strip text)))) in H2;
        try (intros t0 ->; exact Hb).
      * unfold bind, Translate.sleep, emit, ret in Hrun. inversion Hrun. subst.
        eapply only_submits_trans; [exact H1 |].
        eapply only_submits_trans; [exact H2 |].
        apply only_submits_step. intros t0 [H | []]. discriminate H.
      * inversion Hrun. subst.
        exact (only_submits_trans _ _ _ _ H1 H2).
  - pose proof (retry_loop_submits (strip text) _ _ _ _ _ Hrun) as H.
    apply (only_submits_weaken _ _ _ _) with (2 := H).
    intros t ->. left. now apply Nat.ltb_ge in Elen.
Qed.

End Requests.

Lemma X15_witness :
  only_submits (fits_or_part (split_blank_lines (strip sample_doc)))
    (world_empty tt)
    (snd (Translate.translate_chunk translator_down sample_doc (world_empty tt))).
Proof.
  apply (X15_requests_fit translator_down sample_doc (world_empty tt) _
           (fst (Translate.translate_chunk translator_down sample_doc
                   (world_empty tt)))).
  vm_compute. reflexivity.
Defined.

(** ** One file of the translation loop *)

Section TranslateItem.

Variable isalpha : N -> bool.
Variable digit_value : N -> option nat.
Variable json_dumps : pyval -> str.
Variable PROJECT_ROOT : str.
Variable translator : nat -> str -> outcome pyval.

Lemma translate_md_file_skips {St : Type} (path content : str) (w : world St) :
  files w !! path = Some (Text content) ->
  is_empty (strip content) = true
  \/ Translate._is_likely_translated isalpha content = true ->
  Translate.translate_md_file isalpha digit_value translator path w
  = (Return true, w).
Proof.
  intros Hfile Hskip.
  unfold Translate.translate_md_file. unfold bind at 1, try_except, read_text.
  rewrite Hfile.
  destruct (is_empty (strip content)); [reflexivity |].
  destruct Hskip as [Hskip | Hskip]; [discriminate Hskip |].
  now rewrite Hskip.
Qed.

Lemma main_item_marks (path : str) (b : bool) (w w1 : world (list pyval)) :
  Translate.translate_md_file isalpha digit_value translator path w
  = (Return b, w1) ->
  exists r w',
    Translate.main_item isalpha digit_value json_dumps PROJECT_ROOT translator
      path w = (r, w')
    /\ mem w' = set_add (Translate._path_to_key PROJECT_ROOT path) (mem w1)
    /\ log w' = log w1 /\ calls w' = calls w1.
Proof.
  intros H.
  unfold Translate.main_item, try_except, bind. rewrite H.
  unfold get_mem, set_mem. cbn [mem files trail faults calls log].
  match goal with
  | |- context [Translate.save_state_or_print ?d ?r ?c ?w0] =>
      destruct (Translate.save_state_or_print d r c w0) as [[[] | e] w2] eqn:E;
      pose proof (steady_save_state_or_print _ _ _ _ _ _ E) as (Hm & Hl & Hc);
      cbn [mem log calls] in Hm, Hl, Hc
  end.
  - eexists _, _. split; [reflexivity | auto].
  - destruct (exn_type e) eqn:Et; cbn;
      try (eexists _, _; split; [reflexivity | auto]).
    rewrite Hm.
    match goal with
    | |- context [Translate.save_state_or_print ?d ?r ?c ?w0] =>
        destruct (Translate.save_state_or_print d r c w0) as [[[] | e'] w3] eqn:E';
        pose proof (steady_save_state_or_print _ _ _ _ _ _ E') as (Hm' & Hl' & Hc')
    end.
    + eexists _, _. split; [reflexivity |]. repeat split; congruence.
    + eexists _, _. split; [reflexivity |]. repeat split; congruence.
Qed.

(** X16: a file that is blank, or that already reads as Russian, is left
    as it is: [translate_md_file] reports it done without a call to the
    translator and without touching the disk, and [main] adds its key to
    the completed set. *)
Theorem X16_translated_file_untouched (path content : str)
    (w : world (list pyval)) :
  files w !! path = Some (Text content) ->
  is_empty (strip content) = true
  \/ Translate._is_likely_translated isalpha content = true ->
  Translate.translate_md_file isalpha digit_value translator path w
  = (Return true, w)
  /\ exists r w',
      Translate.main_item isalpha digit_value json_dumps PROJECT_ROOT translator
        path w = (r, w')
      /\ mem w' = set_add (Translate._path_to_key PROJECT_ROOT path) (mem w)
      /\ log w' = log w /\ calls w' = calls w.
Proof.
  intros Hfile Hskip.
  pose proof (translate_md_file_skips path content w Hfile Hskip) as Hrun.
  split; [exact Hrun |].
  exact (main_item_marks path true w w Hrun).
Qed.

(** X17: a file that fails is not marked.  When [translate_md_file]
    raises an exception of class [Exception], [main] goes on to the next
    file without adding the key to the completed set and without writing
    the state; this is what happens to a file that is gone, cannot be
    opened or is no UTF-8, which is not even read further: the next run
    takes it up again. *)
Theorem X17_failed_file_not_completed (path : str) (w : world (list pyval)) :
  (forall e w1,
      Translate.translate_md_file isalpha digit_value translator path w
      = (Raise e, w1) ->
      is_Exception (exn_type e) = true ->
      Translate.main_item isalpha digit_value json_dumps PROJECT_ROOT translator
        path w = (Return tt, w1))
  /\ (files w !! path = None \/ files w !! path = Some Undecodable
      \/ files w !! path = Some Unreadable ->
      Translate.main_item isalpha digit_value json_dumps PROJECT_ROOT translator
        path w = (Return tt, w)).
Proof.
  assert (Hgen : forall e w1,
            Translate.translate_md_file isalpha digit_value translator path w
            = (Raise e, w1) ->
            is_Exception (exn_type e) = true ->
            Translate.main_item isalpha digit_value json_dumps PROJECT_ROOT
              translator path w = (Return tt, w1)).
  { intros e w1 Hrun He.
    unfold Translate.main_item, try_except. unfold bind at 1. rewrite Hrun.
    destruct (exn_type e); cbn in He; try discriminate He; reflexivity. }
  split; [exact Hgen |].
  intros Hfile.
  assert (Hraise : exists e,
            Translate.translate_md_file isalpha digit_value translator path w
            = (Raise e, w)
            /\ is_Exception (exn_type e) = true).
  { unfold Translate.translate_md_file. unfold bind at 1, try_except, read_text.
    destruct Hfile as [-> | [-> | ->]]; cbn; eexists; split; reflexivity. }
  destruct Hraise as (e & Hrun & He). exact (Hgen e w Hrun He).
Qed.

End TranslateItem.

Lemma X16_witness :
  Translate.translate_md_file sample_isalpha sample_digit_value translator_down
    (lit "/docs/blank.md") world_blank_doc
  = (Return true, world_blank_doc).
Proof.
  destruct (X16_translated_file_untouched sample_isalpha sample_digit_value
              sample_json_dumps (lit "/docs") translator_down
              (lit "/docs/blank.md") nl world_blank_doc) as [Hrun _].
  - vm_compute. reflexivity.
  - left. vm_compute. reflexivity.
  - exact Hrun.
Defined.

Lemma X17_witness :
  Translate.main_item sample_isalpha sample_digit_value sample_json_dumps
    (lit "/docs") translator_down (lit "/docs/gone.md") world_one_doc
  = (Return tt, world_one_doc).
Proof.
  apply (X17_failed_file_not_completed sample_isalpha sample_digit_value
           sample_json_dumps (lit "/docs") translator_down
           (lit "/docs/gone.md") world_one_doc).
  left. vm_compute. reflexivity.
Defined.

(** ** The sweep of temporary files *)

Lemma unlink_frame {St : Type} (p : str) (missing_ok : bool) (w w1 : world St)
    (r : outcome unit) :
  unlink p missing_ok w = (r, w1) ->
  forall q, q <> p -> files w1 !! q = files w !! q.
Proof.
  intros H q Hq. destruct w as [m fs tr fl ca lg].
  unfold unlink, bind, next_fault, set_files, raise in H. cbn in H.
  destruct fl as [| [| e n] fl]; cbn in H;
    try (destruct (fs !! p); [| destruct missing_ok]);
    inversion H; subst; cbn; try reflexivity;
    now rewrite lookup_delete_ne by auto.
Qed.

Lemma unlink_healthy {St : Type} (p : str) (missing_ok : bool) (w : world St) :
  faults w = [] ->
  exists r w1,
    unlink p missing_ok w = (r, w1)
    /\ faults w1 = [] /\ files w1 !! p = None
    /\ match r with
       | Return _ => True
       | Raise e => is_OSError (exn_type e) = true
       end.
Proof.
  intros Hf. destruct w as [m fs tr fl ca lg]. cbn in Hf. subst fl.
  unfold unlink, bind, next_fault, set_files, raise. cbn.
  destruct (fs !! p) eqn:E; [| destruct missing_ok];
    eexists _, _; (split; [reflexivity |]); cbn;
    rewrite ?lookup_delete_eq; auto.
Qed.

Lemma unlink_each_frame {St : Type} (ps : list str) :
  forall (removed : Z) (w w' : world St) (r : outcome Z),
    unlink_each ps removed w = (r, w') ->
    forall q, ~ In q ps -> files w' !! q = files w !! q.
Proof.
  induction ps as [| p ps IH]; intros removed w w' r H q Hq.
  - cbn in H. now inversion H.
  - assert (Hq1 : q <> p) by (intros Heq; apply Hq; now left).
    assert (Hq2 : ~ In q ps) by (intros Hin; apply Hq; now right).
    cbn [unlink_each] in H. unfold bind at 1, try_except, bind at 1 in H.
    destruct (unlink p false w) as [[[] | e] w1] eqn:E;
      pose proof (unlink_frame _ _ _ _ _ E q Hq1) as Hstep.
    + unfold ret in H. now rewrite (IH _ _ _ _ H q Hq2).
    + destruct (is_OSError (exn_type e)).
      * unfold ret in H. now rewrite (IH _ _ _ _ H q Hq2).
      * inversion H. subst. exact Hstep.
Qed.

Lemma unlink_each_healthy {St : Type} (ps : list str) :
  forall (removed : Z) (w : world St),
    faults w = [] ->
    exists n w',
      unlink_each ps removed w = (Return n, w')
      /\ faults w' = []
      /\ (forall p, In p ps -> files w' !! p = None).
Proof.
  induction ps as [| p ps IH]; intros removed w Hf.
  - exists removed, w. cbn. repeat split; auto. intros p [].
  - cbn [unlink_each]. unfold bind at 1, try_except, bind at 1.
    destruct (unlink_healthy p false w Hf) as (r & w1 & E & Hf1 & Hp & Hr).
    rewrite E.
    assert (Hnext : forall removed', exists n w',
               unlink_each ps removed' w1 = (Return n, w')
               /\ faults w' = []
               /\ (forall q, In q (p :: ps) -> files w' !! q = None)).
    { intros removed'.
      destruct (IH removed' w1 Hf1) as (n & w' & Hrun & Hf' & Hnone).
      exists n, w'. split; [exact Hrun | split; [exact Hf' |]].
      intros q [<- | Hq]; [| now apply Hnone].
      destruct (contains p ps) eqn:Ec;
        [apply Hnone; now apply contains_In |].
      apply contains_not_In in Ec.
      now rewrite (unlink_each_frame _ _ _ _ _ Hrun p Ec). }
    destruct r as [[] | e].
    + unfold ret. apply Hnext.
    + rewrite Hr. unfold ret. apply Hnext.
Qed.

Lemma rglob_md_tmp_In (fs : gmap str file) (root p : str) :
  In p (rglob_md_tmp fs root)
  <-> is_Some (fs !! p)
      /\ startswith (root ++ lit "/") p && endswith (lit ".md.tmp") (path_name p)
         = true.
Proof.
  unfold rglob_md_tmp. rewrite List.filter_In, in_map_iff. split.
  - intros [([q f] & Hq & Hin) Hp]. cbn in Hq. subst q. split; [| exact Hp].
    apply list_elem_of_In, elem_of_map_to_list in Hin. now exists f.
  - intros [[f Hf] Hp]. split; [| exact Hp].
    exists (p, f). split; [reflexivity |].
    now apply list_elem_of_In, elem_of_map_to_list.
Qed.

Lemma cleanup_frame {St : Type} (state_filename root : str) (w w' : world St)
    (r : outcome Z) :
  _cleanup_orphan_tmp_files state_filename root w = (r, w') ->
  forall p,
    startswith (root ++ lit "/") p && endswith (lit ".md.tmp") (path_name p)
    = false ->
    p <> root ++ lit "/" ++ (state_filename ++ lit ".tmp") ->
    files w' !! p = files w !! p.
Proof.
  intros Hrun p Hp Hne.
  assert (Hout : ~ In p (rglob_md_tmp (files w) root)).
  { intros Hin. apply rglob_md_tmp_In in Hin. destruct Hin as [_ Hin]. congruence. }
  unfold _cleanup_orphan_tmp_files in Hrun. unfold bind at 1 in Hrun.
  destruct (unlink_each (rglob_md_tmp (files w) root) 0 w)
    as [[removed | e] w1] eqn:E1;
    pose proof (unlink_each_frame _ _ _ _ _ E1 p Hout) as H1;
    [| inversion Hrun; now subst].
  unfold bind at 1, path_exists in Hrun.
  destruct (file_exists (files w1) (root ++ lit "/" ++ (state_filename ++ lit ".tmp")));
    [| inversion Hrun; now subst].
  unfold try_except, bind in Hrun.
  destruct (unlink (root ++ lit "/" ++ (state_filename ++ lit ".tmp")) false w1)
    as [[[] | e] w2] eqn:E2;
    pose proof (unlink_frame _ _ _ _ _ E2 p Hne) as H2.
  - inversion Hrun. subst. congruence.
  - destruct (is_OSError (exn_type e)); inversion Hrun; subst; congruence.
Qed.

Lemma cleanup_healthy {St : Type} (state_filename root : str) (w : world St) :
  faults w = [] ->
  exists n w',
    _cleanup_orphan_tmp_files state_filename root w = (Return n, w')
    /\ faults w' = []
    /\ (forall p,
          startswith (root ++ lit "/") p && endswith (lit ".md.tmp") (path_name p)
          = true ->
          files w' !! p = None)
    /\ files w' !! (root ++ lit "/" ++ (state_filename ++ lit ".tmp")) = None.
Proof.
  intros Hf.
  set (state_tmp := root ++ lit "/" ++ (state_filename ++ lit ".tmp")).
  unfold _cleanup_orphan_tmp_files. unfold bind at 1.
  destruct (unlink_each_healthy (rglob_md_tmp (files w) root) 0 w Hf)
    as (removed & w1 & E1 & Hf1 & Hnone).
  rewrite E1.
  assert (Hgone : forall p,
            startswith (root ++ lit "/") p && endswith (lit ".md.tmp") (path_name p)
            = true ->
            files w1 !! p = None).
  { intros p Hp. destruct (files w !! p) as [f |] eqn:Ep.
    - apply Hnone, rglob_md_tmp_In. split; [now exists f | exact Hp].
    - destruct (contains p (rglob_md_tmp (files w) root)) eqn:Ec;
        [apply Hnone; now apply contains_In |].
      apply contains_not_In in Ec.
      now rewrite (unlink_each_frame _ _ _ _ _ E1 p Ec). }
  unfold bind at 1, path_exists. fold state_tmp.
  unfold file_exists.
  destruct (files w1 !! state_tmp) as [f |] eqn:Et.
  - rewrite bool_decide_eq_true_2 by eauto.
    unfold try_except, bind.
    destruct (unlink_healthy state_tmp false w1 Hf1)
      as (r & w2 & E2 & Hf2 & Hp2 & Hr).
    rewrite E2.
    assert (Hkeep : forall p,
              startswith (root ++ lit "/") p
              && endswith (lit ".md.tmp") (path_name p) = true ->
              files w2 !! p = None).
    { intros p Hp.
      destruct (str_eqb p state_tmp) eqn:Ec;
        [apply str_eqb_true in Ec; now subst p |].
      apply str_eqb_false in Ec.
      rewrite (unlink_frame _ _ _ _ _ E2 p Ec). now apply Hgone. }
    destruct r as [[] | e]; [| rewrite Hr]; unfold ret;
      eexists _, _; (split; [reflexivity |]); auto.
  - rewrite bool_decide_eq_false_2 by (intros [x Hx]; discriminate Hx).
    unfold ret. eexists _, _. split; [reflexivity |]. auto.
Qed.

(** X18: the sweep at the start of a run.  Whatever fails on the way, it
    touches no file but the temporary ones: a path that is neither a
    [*.md.tmp] under the root nor the temporary sibling of the state file
    keeps what it had, so that pages and the state file survive.  On a
    disk that works it returns, and none of the temporary files is
    left. *)
Theorem X18_sweep_removes_only_temporaries {St : Type}
    (state_filename root : str) (w : world St) :
  let orphan p :=
    startswith (root ++ lit "/") p && endswith (lit ".md.tmp") (path_name p) in
  let state_tmp := root ++ lit "/" ++ (state_filename ++ lit ".tmp") in
  (forall r w',
      _cleanup_orphan_tmp_files state_filename root w = (r, w') ->
      forall p, orphan p = false -> p <> state_tmp ->
                files w' !! p = files w !! p)
  /\ (faults w = [] ->
      exists n w',
        _cleanup_orphan_tmp_files state_filename root w = (Return n, w')
        /\ (forall p, orphan p = true -> files w' !! p = None)
        /\ files w' !! state_tmp = None).
Proof.
  intros orphan state_tmp. split.
  - intros r w' Hrun. exact (cleanup_frame state_filename root w w' r Hrun).
  - intros Hf.
    destruct (cleanup_healthy state_filename root w Hf)
      as (n & w' & Hrun & _ & Hgone & Hstate).
    exists n, w'. auto.
Qed.

Lemma X18_witness :
  exists n w',
    _cleanup_orphan_tmp_files Fetch.STATE_FILENAME (lit "/docs") world_after_crash
    = (Return n, w')
    /\ files w' !! lit "/docs/02_LIBRARY/re.md.tmp" = None
    /\ files w' !! lit "/docs/.fetch_state.json.tmp" = None.
Proof.
  destruct (proj2 (X18_sweep_removes_only_temporaries Fetch.STATE_FILENAME
                     (lit "/docs") world_after_crash) eq_refl)
    as (n & w' & Hrun & Hgone & Hstate).
  exists n, w'. split; [exact Hrun | split; [| exact Hstate]].
  apply Hgone. vm_compute. reflexivity.
Defined.

(** ** Saving and loading the completed set *)

Lemma insert_by_strings (x : str) (l : list str) :
  exists l',
    insert_by py_lt (PStr x) (List.map PStr l) = Return (List.map PStr l')
    /\ Permutation (x :: l) l'.
Proof.
  induction l as [| y l IH]; cbn.
  - now exists [x].
  - destruct (str_ltb x y).
    + now exists (x :: y :: l).
    + destruct IH as (l' & -> & Hperm).
      exists (y :: l'). split; [reflexivity |].
      rewrite perm_swap. now constructor.
Qed.

Lemma py_sorted_strings (l : list str) :
  exists l',
    py_sorted (List.map PStr l) = Return (List.map PStr l')
    /\ Permutation l l'.
Proof.
  unfold py_sorted. induction l as [| x l IH]; cbn.
  - now exists [].
  - destruct IH as (l1 & -> & H1).
    destruct (insert_by_strings x l1) as (l2 & -> & H2).
    exists l2. split; [reflexivity |].
    now rewrite <- H2, H1.
Qed.

Lemma existsb_py_eq_strings (x : str) (l : list str) :
  existsb (py_eq (PStr x)) (List.map PStr l) = contains x l.
Proof.
  unfold contains. induction l as [| y l IH]; cbn; [reflexivity |].
  now rewrite IH.
Qed.

Lemma py_set_go_strings (l : list str) :
  forall seen : list str,
    List.NoDup (seen ++ l) ->
    py_set_go (List.map PStr seen) (List.map PStr l)
    = Return (List.map PStr (seen ++ l)).
Proof.
  induction l as [| x l IH]; intros seen Hnd; cbn.
  - now rewrite app_nil_r.
  - rewrite existsb_py_eq_strings.
    assert (Hx : contains x seen = false).
    { apply contains_not_In. apply NoDup_remove_2 in Hnd.
      rewrite in_app_iff in Hnd. tauto. }
    rewrite Hx.
    change (List.map PStr seen ++ [PStr x]) with
      (List.map PStr seen ++ List.map PStr [x]).
    rewrite <- map_app, IH, <- app_assoc; [reflexivity |].
    now rewrite <- app_assoc.
Qed.

Section TranslatePersistence.

Variable json_dumps : pyval -> str.
Variable json_loads : str -> option pyval.

Lemma translate_save_state_ok {St : Type} (completed sorted : list pyval)
    (path : str) (w : world St) :
  py_sorted completed = Return sorted ->
  faults w = [] ->
  Translate.save_state json_dumps completed path w
  = (Return tt,
     after_write w path (json_dumps (PDict [(lit "completed", PList sorted)]))).
Proof.
  intros Hsorted Hf.
  unfold Translate.save_state. unfold bind at 1, lift. rewrite Hsorted.
  now apply write_block_ok.
Qed.

(** X19: the completed set survives a save and a load.  For a set of
    string keys, when the JSON library reads back what it wrote and the
    disk works, [load_state] after [save_state] gives the same keys, each
    once (in sorted order, which a set does not show). *)
Theorem X19_completed_set_round_trip {St : Type} (keys : list str) (path : str)
    (w : world St) :
  List.NoDup keys ->
  json_loads (json_dumps (translate_state_doc (List.map PStr keys)))
  = Some (translate_state_doc (List.map PStr keys)) ->
  faults w = [] ->
  exists w1 keys',
    Translate.save_state json_dumps (List.map PStr keys) path w = (Return tt, w1)
    /\ Translate.load_state json_loads path w1
       = (Return (List.map PStr keys'), w1)
    /\ Permutation keys keys'
    /\ (forall k, str_in k (List.map PStr keys') = str_in k (List.map PStr keys)).
Proof.
  intros Hnd Hjson Hf.
  destruct (py_sorted_strings keys) as (keys' & Hsorted & Hperm).
  unfold translate_state_doc in Hjson. rewrite Hsorted in Hjson.
  exists (after_write w path
            (json_dumps (PDict [(lit "completed", PList (List.map PStr keys'))]))),
    keys'.
  split; [now apply translate_save_state_ok |].
  split; [| split; [exact Hperm |]].
  - rewrite (translate_load_state_json json_loads path _ _ _
               (after_write_lookup _ _ _) Hjson).
    unfold translate_completed_of_json.
    change (dict_get_default (lit "completed") (PList [])
              [(lit "completed", PList (List.map PStr keys'))])
      with (PList (List.map PStr keys')).
    cbv beta iota. unfold py_set.
    assert (Hnd' : List.NoDup ([] ++ keys')) by (cbn [app]; now rewrite <- Hperm).
    pose proof (py_set_go_strings keys' [] Hnd') as Hset.
    cbn [List.map app] in Hset. now rewrite Hset.
  - intros k. rewrite !str_in_map_PStr.
    destruct (contains k keys) eqn:E.
    + apply contains_In. apply contains_In in E. now rewrite <- Hperm.
    + apply contains_not_In. apply contains_not_In in E. now rewrite <- Hperm.
Qed.

End TranslatePersistence.

Lemma X19_witness :
  exists w1 keys',
    Translate.save_state sample_json_dumps
      [PStr (lit "library/os.md"); PStr (lit "faq/general.md")]
      (lit "/docs/.translate_state.json") (world_empty tt) = (Return tt, w1)
    /\ Translate.load_state sample_json_loads (lit "/docs/.translate_state.json") w1
       = (Return (List.map PStr keys'), w1)
    /\ Permutation [lit "library/os.md"; lit "faq/general.md"] keys'.
Proof.
  destruct (X19_completed_set_round_trip sample_json_dumps sample_json_loads
              [lit "library/os.md"; lit "faq/general.md"]
              (lit "/docs/.translate_state.json") (world_empty tt))
    as (w1 & keys' & Hsave & Hload & Hperm & _).
  - repeat (apply List.NoDup_cons; [vm_compute; intuition discriminate |]).
    apply List.NoDup_nil.
  - vm_compute. reflexivity.
  - reflexivity.
  - exists w1, keys'. split; [exact Hsave | split; [exact Hload | exact Hperm]].
Defined.

(** ** Ctrl+C during a translation *)

Section TranslateInterrupt.

Variable isalpha : N -> bool.
Variable digit_value : N -> option nat.
Variable json_dumps : pyval -> str.
Variable PROJECT_ROOT : str.
Variable translator : nat -> str -> outcome pyval.


End TranslateInterrupt.


(** ** A run without the table of contents *)

Lemma split_app_sep (sep : N) (a b : str) :
  split sep (a ++ sep :: b) = split sep a ++ split sep b.
Proof.
  induction a as [| c a IH]; cbn [app split].
  - now rewrite N.eqb_refl.
  - destruct (N.eqb c sep); [now rewrite IH |].
    rewrite IH. destruct (split sep a) as [| h t] eqn:E; [| reflexivity].
    now apply split_not_nil in E.
Qed.

Lemma split_without_sep (sep : N) (s : str) : ~ In sep s -> split sep s = [s].
Proof.
  induction s as [| c s IH]; intros H; cbn [split]; [reflexivity |].
  destruct (N.eqb c sep) eqn:E.
  - apply N.eqb_eq in E. subst c. exfalso. apply H. now left.
  - rewrite IH; [reflexivity |]. intros Hin. apply H. now right.
Qed.

Lemma path_name_join (dir name : str) :
  ~ In 47%N name -> path_name (Fetch.path_join dir name) = name.
Proof.
  intros H. unfold path_name, Fetch.path_join.
  change (lit "/" ++ name) with (47%N :: name).
  rewrite split_app_sep, (split_without_sep _ _ H).
  apply last_last.
Qed.

Section FetchMain.

Variable json_dumps : pyval -> str.
Variable json_loads : str -> option pyval.
Variable int_of_str : str -> option Z.
Variable urlopen : str -> outcome str.
Variable html_to_markdown : str -> outcome str.
Variable _extract_doc_urls_from_contents : str -> outcome (list str).
Variable PROJECT_ROOT : str.

(** X21: a first run without network.  When there is no state file, the
    table of contents cannot be downloaded (an OSError) and the disk
    works, [main] records [contents.html] as failed, writes the state file
    and exits with status 1, having entered no item. *)
Theorem X21_no_contents_exit_1 (e : exn) (w : world Fetch.FetchState) :
  faults w = [] ->
  files w !! Fetch.state_path PROJECT_ROOT = None ->
  Fetch.fetch_page urlopen Fetch.CONTENTS_URL = Raise e ->
  is_OSError (exn_type e) = true ->
  exists x w',
    Fetch.main json_dumps json_loads int_of_str urlopen html_to_markdown
      _extract_doc_urls_from_contents PROJECT_ROOT w = (Raise x, w')
    /\ Fetch.exit_status (@Raise unit x) = 1
    /\ mem w'
       = Fetch.mark_failed Fetch.empty_state (lit "contents.html")
           (exn_msg e) (exn_tb e)
    /\ files w' !! Fetch.state_path PROJECT_ROOT
       = Some (Text (json_dumps (Fetch.asdict (mem w')))).
Proof.
  intros Hfl Habsent Hfetch Hos.
  destruct (cleanup_healthy Fetch.STATE_FILENAME (Fetch.OUTPUT_DIR PROJECT_ROOT)
              w Hfl) as (n & w1 & Hsweep & Hfl1 & _ & _).
  assert (Habsent1 : files w1 !! Fetch.state_path PROJECT_ROOT = None).
  { rewrite (cleanup_frame _ _ _ _ _ Hsweep); [exact Habsent | |].
    - unfold Fetch.state_path. rewrite path_name_join.
      + apply andb_false_r.
      + vm_compute. intuition discriminate.
    - unfold Fetch.state_path, Fetch.path_join. intros H.
      apply app_inv_head, app_inv_head in H.
      apply (f_equal (@length N)) in H. rewrite length_app in H.
      change (length (lit ".tmp")) with 4%nat in H. lia. }
  unfold Fetch.main. unfold bind at 1. rewrite Hsweep.
  unfold bind at 1.
  rewrite (fetch_load_state_absent json_loads int_of_str _ w1 Habsent1).
  unfold bind at 1, set_mem at 1.
  unfold bind at 1, lift at 1. cbn [Fetch.report_previous_error Fetch.error_info
    Fetch.empty_state py_truthy].
  unfold bind at 1, try_except, bind at 1, lift at 1. rewrite Hfetch, Hos.
  unfold bind at 1, get_mem at 1. unfold bind at 1, set_mem at 1.
  unfold bind at 1, get_mem at 1. cbn [mem files trail faults calls log].
  unfold bind at 1.
  rewrite fetch_save_state_ok by exact Hfl1.
  eexists _, _. split; [reflexivity |].
  cbn [Fetch.exit_status exn_type after_write mem].
  repeat split. apply after_write_lookup.
Qed.

End FetchMain.

Lemma X21_witness :
  exists x w',
    Fetch.main sample_json_dumps sample_json_loads (fun _ => None) urlopen_down
      plain_html_to_markdown (fun _ => Return []) (lit "/docs")
      (world_empty Fetch.empty_state) = (Raise x, w')
    /\ Fetch.exit_status (@Raise unit x) = 1
    /\ dict_keys (Fetch.failed_urls (mem w')) = [lit "contents.html"].
Proof.
  destruct (X21_no_contents_exit_1 sample_json_dumps sample_json_loads
              (fun _ => None) urlopen_down plain_html_to_markdown
              (fun _ => Return []) (lit "/docs") url_error
              (world_empty Fetch.empty_state))
    as (x & w' & Hrun & Hexit & Hmem & _); try reflexivity.
  exists x, w'. split; [exact Hrun | split; [exact Hexit |]].
  rewrite Hmem. reflexivity.
Defined.

(** ** The links of the table of contents *)

Lemma startswith_iff (p s : str) :
  startswith p s = true <-> exists r, s = p ++ r.
Proof.
  split.
  - intros H. exists (drop (length p) s). symmetry. now apply startswith_drop.
  - intros [r ->]. apply startswith_app.
Qed.

Lemma endswith_iff (p s : str) :
  endswith p s = true <-> exists t, s = t ++ p.
Proof.
  unfold endswith. rewrite startswith_iff. split.
  - intros [r H]. exists (rev r).
    rewrite <- (rev_involutive s), H, rev_app_distr. now rewrite rev_involutive.
  - intros [t ->]. exists (rev t). apply rev_app_distr.
Qed.

Lemma slash_before_suffix (pre : str) :
  forall t r : str,
    (pre ++ [47%N]) ++ r = t ++ lit ".html" ->
    exists t', t = (pre ++ [47%N]) ++ t'.
Proof.
  induction pre as [| c pre IH]; intros t r H.
  - destruct t as [| d t]; [vm_compute in H; discriminate H |].
    cbn in H. injection H as -> _. now exists t.
  - destruct t as [| d t].
    + exfalso.
      assert (Hin : In 47%N (lit ".html")).
      { cbn [app] in H. rewrite <- H. right. rewrite <- app_assoc.
        apply in_app_iff. right. now left. }
      vm_compute in Hin. intuition discriminate.
    + cbn in H. injection H as -> H.
      destruct (IH t r H) as [t' ->]. now exists t'.
Qed.

Lemma lstrip_slash_html (t : str) :
  lstrip_slash (t ++ lit ".html") = lstrip_slash t ++ lit ".html".
Proof.
  induction t as [| c t IH]; [reflexivity |].
  cbn [app lstrip_slash]. destruct (c =? 47)%N; [exact IH | reflexivity].
Qed.

Lemma lstrip_slash_drop (s : str) : exists k, lstrip_slash s = drop k s.
Proof.
  induction s as [| c s IH]; [now exists 0%nat |].
  cbn [lstrip_slash]. destruct (c =? 47)%N; [| now exists 0%nat].
  destruct IH as [k ->]. now exists (S k).
Qed.

Lemma In_drop {A : Type} (k : nat) (l : list A) (x : A) :
  In x (drop k l) -> In x l.
Proof.
  revert k. induction l as [| y l IH]; intros [| k] H; cbn in H; auto.
  right. eapply IH, H.
Qed.

Lemma In_lstrip (s : str) (c : N) : In c (lstrip s) -> In c s.
Proof.
  induction s as [| d s IH]; [auto |].
  cbn [lstrip]. destruct (py_isspace d); [| auto].
  intros H. right. now apply IH.
Qed.

Lemma In_strip (s : str) (c : N) : In c (strip s) -> In c s.
Proof.
  unfold strip. intros H.
  apply in_rev, In_lstrip in H. apply in_rev in H. now apply In_lstrip.
Qed.

Lemma clean_href_no_fragment (raw : str) : ~ In 35%N (clean_href raw).
Proof.
  unfold clean_href. intros H. apply In_strip in H.
  destruct (split 35%N raw) as [| before rest] eqn:E; [destruct H |].
  apply (split_no_sep 35%N raw before); [rewrite E; now left | exact H].
Qed.

Lemma drop_prefix_html (pre href : str) :
  startswith (pre ++ [47%N]) href = true ->
  endswith (lit ".html") href = true ->
  endswith (lit ".html") (lstrip_slash (drop (length (pre ++ [47%N])) href)) = true.
Proof.
  intros Hpre Hend.
  apply startswith_iff in Hpre. destruct Hpre as [r Hr].
  apply endswith_iff in Hend. destruct Hend as [t Ht].
  rewrite Hr in Ht.
  destruct (slash_before_suffix pre t r Ht) as [t' ->].
  rewrite <- !app_assoc in Ht. apply app_inv_head, app_inv_head in Ht.
  rewrite Hr, drop_app_length, Ht, lstrip_slash_html.
  apply endswith_iff. now exists (lstrip_slash t').
Qed.

(** X22: which links become keys.  A link is dropped exactly when its
    address (the text before [#], stripped) does not end in [.html] or
    holds [genindex] or [py-modindex]: the test on [/] and on the names of
    the sections changes nothing.  A key that is kept ends in [.html],
    holds no [#] and is the end of the address; it is the whole address
    unless this starts with the base URL or with [/3/]. *)
Theorem X22_links_kept (base_url raw : str) :
  (href_key base_url raw = None
   <-> endswith (lit ".html") (clean_href raw) = false
       \/ substr (lit "genindex") (clean_href raw) = true
       \/ substr (lit "py-modindex") (clean_href raw) = true)
  /\ (forall path,
        href_key base_url raw = Some path ->
        endswith (lit ".html") path = true
        /\ ~ In 35%N path
        /\ exists k, path = drop k (clean_href raw))
  /\ (forall path,
        href_key base_url raw = Some path ->
        startswith (base_url ++ lit "/") (clean_href raw) = false ->
        startswith (lit "/3/") (clean_href raw) = false ->
        path = clean_href raw).
Proof.
  unfold href_key.
  pose proof (clean_href_no_fragment raw) as Hfrag.
  set (href := clean_href raw) in *.
  destruct (endswith (lit ".html") href) eqn:Eend; cbn [negb orb].
  2: { split; [split; auto |]. split; intros path H; discriminate H. }
  destruct (substr (lit "genindex") href) eqn:Eg; cbn [orb].
  { split; [split; auto |]. split; intros path H; discriminate H. }
  destruct (substr (lit "py-modindex") href) eqn:Em.
  { split; [split; auto |]. split; intros path H; discriminate H. }
  split.
  { split.
    - destruct (startswith (base_url ++ lit "/") href);
        [discriminate |].
      destruct (startswith (lit "/3/") href); [discriminate |].
      destruct (existsb (N.eqb 47%N) href
                || existsb (fun p => startswith p href) SECTION_PREFIXES);
        discriminate.
    - intros [H | [H | H]]; discriminate H. }
  assert (Hkept : forall k path,
            path = lstrip_slash (drop k href) ->
            endswith (lit ".html") path = true ->
            endswith (lit ".html") path = true
            /\ ~ In 35%N path /\ exists k', path = drop k' href).
  { intros k path -> Hend. split; [exact Hend |].
    destruct (lstrip_slash_drop (drop k href)) as [j Hj]. split.
    - rewrite Hj. intros H. apply In_drop, In_drop in H. contradiction.
    - exists (k + j)%nat. rewrite Hj. apply drop_drop. }
  assert (Hwhole : endswith (lit ".html") href = true
                   /\ ~ In 35%N href /\ exists k, href = drop k href)
    by (split; [exact Eend | split; [exact Hfrag | now exists 0%nat]]).
  change (lit "/") with [47%N].
  change (lit "/3/") with ([47%N; 51%N] ++ [47%N]).
  split.
  - intros path.
    destruct (startswith (base_url ++ [47%N]) href) eqn:E1.
    { intros H. injection H as <-. eapply Hkept; [reflexivity |].
      now apply drop_prefix_html. }
    destruct (startswith ([47%N; 51%N] ++ [47%N]) href) eqn:E2.
    { intros H. injection H as <-. eapply Hkept; [reflexivity |].
      exact (drop_prefix_html [47%N; 51%N] href E2 Eend). }
    destruct (existsb (N.eqb 47%N) href
              || existsb (fun p => startswith p href) SECTION_PREFIXES);
      intros H; injection H as <-; exact Hwhole.
  - intros path H H1 H2. rewrite H1, H2 in H.
    destruct (existsb (N.eqb 47%N) href
              || existsb (fun p => startswith p href) SECTION_PREFIXES);
      now injection H as <-.
Qed.

Lemma X22_witness :
  href_key Fetch.BASE_URL (lit "genindex-all.html") = None.
Proof.
  apply (proj2 (proj1 (X22_links_kept Fetch.BASE_URL (lit "genindex-all.html")))).
  right. left. vm_compute. reflexivity.
Defined.

Lemma collect_keys_NoDup (base_url : str) (hrefs : list str) :
  forall urls, List.NoDup urls -> List.NoDup (collect_keys base_url urls hrefs).
Proof.
  induction hrefs as [| raw rest IH]; intros urls Hnd; cbn [collect_keys];
    [exact Hnd |].
  destruct (href_key base_url raw) as [path |]; [| now apply IH].
  apply IH. destruct (contains path urls) eqn:E; [exact Hnd |].
  apply nodup_snoc; [exact Hnd | now apply contains_not_In].
Qed.

Lemma collect_keys_In (base_url : str) (hrefs : list str) :
  forall urls path,
    In path (collect_keys base_url urls hrefs)
    <-> In path urls
        \/ exists raw, In raw hrefs /\ href_key base_url raw = Some path.
Proof.
  induction hrefs as [| raw rest IH]; intros urls path; cbn [collect_keys].
  - split; [now left | intros [H | (raw & [] & _)]; exact H].
  - destruct (href_key base_url raw) as [p |] eqn:E; rewrite IH.
    + assert (Hurls : In path (if contains p urls then urls else urls ++ [p])
                      <-> In path urls \/ p = path).
      { destruct (contains p urls) eqn:Ec.
        - apply contains_In in Ec. split; [now left |].
          intros [H | <-]; assumption.
        - rewrite in_app_iff. cbn. tauto. }
      rewrite Hurls. split.
      * intros [[H | <-] | (r & Hr & Hk)];
          [now left | right; exists raw; split; [now left | exact E]
          | right; exists r; split; [now right | exact Hk]].
      * intros [H | (r & [<- | Hr] & Hk)];
          [left; now left | left; right; congruence
          | right; now exists r].
    + split.
      * intros [H | (r & Hr & Hk)];
          [now left | right; exists r; split; [now right | exact Hk]].
      * intros [H | (r & [<- | Hr] & Hk)];
          [now left | congruence | right; now exists r].
Qed.

Lemma insert_str_perm (x : str) (l : list str) :
  Permutation (x :: l) (insert_str x l).
Proof.
  induction l as [| y l IH]; cbn [insert_str]; [reflexivity |].
  destruct (str_ltb x y); [reflexivity |].
  rewrite perm_swap. now constructor.
Qed.

Lemma sorted_strs_perm (l : list str) : Permutation l (sorted_strs l).
Proof.
  unfold sorted_strs. induction l as [| x l IH]; cbn [fold_right]; [reflexivity |].
  rewrite <- insert_str_perm. now constructor.
Qed.

Lemma lex_ltb_asym (a : str) :
  forall b, str_ltb a b = true -> str_ltb b a = false.
Proof.
  unfold str_ltb.
  induction a as [| x a IH]; intros [| y b] H; cbn in *; try congruence.
  destruct (N.ltb x y) eqn:E1.
  - apply N.ltb_lt in E1.
    assert (E2 : N.ltb y x = false) by (apply N.ltb_ge; lia).
    now rewrite E2.
  - destruct (N.ltb y x); [discriminate H | now apply IH].
Qed.

Lemma ascending_insert (x : str) (l : list str) :
  ascending l = true -> ascending (insert_str x l) = true.
Proof.
  induction l as [| y l IH]; intros H; [reflexivity |].
  cbn [insert_str]. destruct (str_ltb x y) eqn:E.
  - cbn [ascending]. rewrite (lex_ltb_asym x y E). exact H.
  - destruct l as [| z l].
    + cbn. now rewrite E.
    + cbn [ascending] in H. apply andb_true_iff in H. destruct H as [Hzy Hrest].
      specialize (IH Hrest). cbn [insert_str] in IH |- *.
      destruct (str_ltb x z).
      * cbn [ascending] in IH |- *. now rewrite E, IH.
      * change (ascending (y :: z :: insert_str x l))
          with (negb (str_ltb z y) && ascending (z :: insert_str x l)).
        now rewrite Hzy, IH.
Qed.

(** X23: the universe is sorted and without repetition.  Whatever links
    the table of contents holds, the list [_extract_doc_urls_from_contents]
    returns has no key twice (as the planner needs to plan no key twice),
    never a smaller string after a greater one, and exactly the keys of
    its links. *)
Theorem X23_universe_sorted_distinct (base_url : str) (hrefs : list str) :
  List.NoDup (extract_doc_urls base_url hrefs)
  /\ ascending (extract_doc_urls base_url hrefs) = true
  /\ (forall path,
        In path (extract_doc_urls base_url hrefs)
        <-> exists raw, In raw hrefs /\ href_key base_url raw = Some path).
Proof.
  unfold extract_doc_urls. split; [| split].
  - rewrite <- sorted_strs_perm. apply collect_keys_NoDup. constructor.
  - unfold sorted_strs.
    induction (collect_keys base_url [] hrefs) as [| x l IH]; [reflexivity |].
    cbn [fold_right]. now apply ascending_insert.
  - intros path. rewrite <- sorted_strs_perm, collect_keys_In.
    split; [intros [[] | H]; exact H | now right].
Qed.

(** ** C3: what [main] keeps of a file whose translation failed *)

Section TranslateKeeps.

Variable isalpha : N -> bool.
Variable digit_value : N -> option nat.
Variable json_dumps : pyval -> str.
Variable PROJECT_ROOT : str.
Variable translator : nat -> str -> outcome pyval.

Lemma set_add_strings (key : str) (keys : list str) :
  exists keys', set_add key (List.map PStr keys) = List.map PStr keys'.
Proof.
  unfold set_add. destruct (str_in key (List.map PStr keys)).
  - now exists keys.
  - exists (keys ++ [key]). now rewrite map_app.
Qed.

Lemma main_item_persists (path : str) (b : bool) (keys : list str)
    (w w1 : world (list pyval)) :
  Translate.translate_md_file isalpha digit_value translator path w
  = (Return b, w1) ->
  mem w1 = List.map PStr keys ->
  faults w1 = [] ->
  exists w',
    Translate.main_item isalpha digit_value json_dumps PROJECT_ROOT translator
      path w = (Return tt, w')
    /\ mem w' = set_add (Translate._path_to_key PROJECT_ROOT path) (mem w1)
    /\ files w' !! Translate.state_path PROJECT_ROOT
       = Some (Text (json_dumps (translate_state_doc (mem w')))).
Proof.
  intros Hrun Hmem Hfl.
  destruct (set_add_strings (Translate._path_to_key PROJECT_ROOT path) keys)
    as (keys1 & Hkeys1).
  rewrite <- Hmem in Hkeys1.
  destruct (py_sorted_strings keys1) as (keys2 & Hsorted & _).
  rewrite <- Hkeys1 in Hsorted.
  unfold Translate.main_item, try_except. unfold bind at 1. rewrite Hrun.
  unfold bind, get_mem, set_mem. cbn [mem files trail faults calls log].
  unfold Translate.save_state_or_print, try_except.
  rewrite (translate_save_state_ok json_dumps _ (List.map PStr keys2) _
             (mkWorld (set_add (Translate._path_to_key PROJECT_ROOT path) (mem w1))
                (files w1) (trail w1) (faults w1) (calls w1) (log w1))
             Hsorted Hfl).
  eexists. split; [reflexivity |]. cbn [after_write mem].
  split; [reflexivity |].
  unfold translate_state_doc. rewrite Hsorted. apply after_write_lookup.
Qed.

End TranslateKeeps.

(** C3, as the code has it: when the translator raises an exception on
    each of the three attempts, [_translate_with_retry] calls it exactly
    three times, sleeps 0.5 s and 1 s in between, prints the last error
    and returns the text it was given: a normal return, from which the
    caller cannot tell a failure.  Nothing records one: whenever
    [translate_md_file] returns, [main] adds the file to the completed
    set, the only thing the state of this script holds; and when the set
    holds string keys and the disk works, [main] writes the set, the file
    in it, to the state file. *)
Theorem C3_retry_exhausted_returns_text :
  (forall (translator : nat -> str -> outcome pyval) (St : Type) (text : str)
          (e1 e2 e3 : exn) (w : world St),
      translator (calls w) text = Raise e1 ->
      translator (S (calls w)) text = Raise e2 ->
      translator (S (S (calls w))) text = Raise e3 ->
      is_Exception (exn_type e1) = true ->
      is_Exception (exn_type e2) = true ->
      is_Exception (exn_type e3) = true ->
      Translate._translate_with_retry translator text w
      = (Return text,
         mkWorld (mem w) (files w) (trail w) (faults w) (3 + calls w)
           (log w
            ++ [EvTranslate text; EvSleep 500; EvTranslate text; EvSleep 1000;
                EvTranslate text; EvPrintError 3 (Some (kept_error e3))])))
  /\ (forall isalpha digit_value json_dumps PROJECT_ROOT translator path b
             (w w1 : world (list pyval)),
         Translate.translate_md_file isalpha digit_value translator path w
         = (Return b, w1) ->
         exists r w',
           Translate.main_item isalpha digit_value json_dumps PROJECT_ROOT
             translator path w = (r, w')
           /\ str_in (Translate._path_to_key PROJECT_ROOT path) (mem w') = true)
  /\ (forall isalpha digit_value json_dumps PROJECT_ROOT translator path b keys
             (w w1 : world (list pyval)),
         Translate.translate_md_file isalpha digit_value translator path w
         = (Return b, w1) ->
         mem w1 = List.map PStr keys ->
         faults w1 = [] ->
         exists w',
           Translate.main_item isalpha digit_value json_dumps PROJECT_ROOT
             translator path w = (Return tt, w')
           /\ str_in (Translate._path_to_key PROJECT_ROOT path) (mem w') = true
           /\ files w' !! Translate.state_path PROJECT_ROOT
              = Some (Text (json_dumps (translate_state_doc (mem w'))))).
Proof.
  split; [| split].
  - intros translator St text e1 e2 e3 w H1 H2 H3 E1 E2 E3.
    exact (translate_with_retry_exhausted translator text e1 e2 e3 w
             H1 H2 H3 E1 E2 E3).
  - intros isalpha digit_value json_dumps root translator path b w w1 H.
    destruct (main_item_after_translate isalpha digit_value json_dumps root
                translator path b w w1 H) as (r & w' & Hrun & Hmem).
    exists r, w'. split; [exact Hrun |].
    rewrite Hmem. apply str_in_set_add.
  - intros isalpha digit_value json_dumps root translator path b keys w w1
      H Hkeys Hfl.
    destruct (main_item_persists isalpha digit_value json_dumps root translator
                path b keys w w1 H Hkeys Hfl) as (w' & Hrun & Hmem & Hfile).
    exists w'. split; [exact Hrun | split; [| exact Hfile]].
    rewrite Hmem. apply str_in_set_add.
Qed.

Lemma C3_witness :
  Translate._translate_with_retry translator_down sample_doc (world_empty tt)
  = (Return sample_doc,
     mkWorld tt ∅ [] [] 3
       [EvTranslate sample_doc; EvSleep 500; EvTranslate sample_doc; EvSleep 1000;
        EvTranslate sample_doc; EvPrintError 3 (Some request_error)])
  /\ (exists r w',
        Translate.main_item sample_isalpha sample_digit_value sample_json_dumps
          (lit "/docs") translator_down (lit "/docs/doc.md") world_one_doc
        = (r, w')
        /\ str_in (lit "doc.md") (mem w') = true)
  /\ (exists w',
        Translate.main_item sample_isalpha sample_digit_value sample_json_dumps
          (lit "/docs") translator_down (lit "/docs/doc.md") world_one_doc
        = (Return tt, w')
        /\ str_in (lit "doc.md") (mem w') = true
        /\ files w' !! lit "/docs/.translate_state.json"
           = Some (Text (sample_json_dumps (translate_state_doc (mem w'))))).
Proof.
  split; [| split].
  - exact (proj1 C3_retry_exhausted_returns_text translator_down unit sample_doc
             request_error request_error request_error (world_empty tt)
             eq_refl eq_refl eq_refl eq_refl eq_refl eq_refl).
  - apply (proj1 (proj2 C3_retry_exhausted_returns_text) sample_isalpha
             sample_digit_value sample_json_dumps (lit "/docs") translator_down
             (lit "/docs/doc.md") true world_one_doc
             (snd (Translate.translate_md_file sample_isalpha sample_digit_value
                     translator_down (lit "/docs/doc.md") world_one_doc))).
    vm_compute. reflexivity.
  - apply (proj2 (proj2 C3_retry_exhausted_returns_text) sample_isalpha
             sample_digit_value sample_json_dumps (lit "/docs") translator_down
             (lit "/docs/doc.md") true []  world_one_doc
             (snd (Translate.translate_md_file sample_isalpha sample_digit_value
                     translator_down (lit "/docs/doc.md") world_one_doc)));
      vm_compute; reflexivity.
Defined.

(** C3 as stated fails: with a translator that fails on every attempt,
    [main] makes three calls, ends normally and persists the page as
    completed; the page on the disk is the untranslated text and no failure
    is recorded. *)
Lemma C3_counterexample :
  fst (run_translate_main translator_down) = Return tt
  /\ calls (snd (run_translate_main translator_down)) = 3%nat
  /\ mem (snd (run_translate_main translator_down)) = [PStr (lit "doc.md")]
  /\ files (snd (run_translate_main translator_down))
     !! lit "/docs/.translate_state.json"
     = Some (Text (sample_json_dumps
                     (PDict [(lit "completed", PList [PStr (lit "doc.md")])])))
  /\ files (snd (run_translate_main translator_down)) !! lit "/docs/doc.md"
     = Some (Text sample_doc).
Proof. repeat split; vm_compute; reflexivity. Qed.
